(** * gsa_admin.py: the configuration signing core ([gsaConfig])

    A shallow embedding of class [gsaConfig] of gsa_admin.py: the HMAC-SHA1
    signature over the rewritten [<config>] subtree of an appliance
    configuration document, and the operations [computeSignature], [sign],
    [verifySignature] and [writeFile].

    Byte strings (Python 2 [str]) are [string]; a text value of the DOM is
    kept in its UTF-8 encoding, which is what [hmac], [encode("utf-8")] and
    the file layer see of it (the module sets the default encoding to
    UTF-8).  The library functions the class calls ([hmac], [hashlib.sha1],
    [re.sub], [str.replace], [str.count], [strip], [str.encode],
    [xml.dom.minidom]) are
    written out below from their documented behaviour, so that every
    operation runs on concrete documents. *)

From stdpp Require Import base gmap strings list.
From Stdlib Require Import ZArith Ascii String Lia.

Local Open Scope Z_scope.

(** ** Bytes *)

Definition byte_of_ascii (c : ascii) : Z := Z.of_N (N_of_ascii c).
Definition ascii_of_byte (b : Z) : ascii := ascii_of_N (Z.to_N (b mod 256)).

Fixpoint bytes_of_string (s : string) : list Z :=
  match s with
  | EmptyString => []
  | String c s' => byte_of_ascii c :: bytes_of_string s'
  end.

Fixpoint string_of_bytes (l : list Z) : string :=
  match l with
  | [] => EmptyString
  | b :: l' => String (ascii_of_byte b) (string_of_bytes l')
  end.

(** ** SHA-1 (FIPS 180-4) on 32-bit words kept in [Z] *)

Module SHA1.

Definition w32 (x : Z) : Z := x mod 2 ^ 32.
Definition add32 (x y : Z) : Z := w32 (x + y).
Definition not32 (x : Z) : Z := Z.lxor x 0xFFFFFFFF.
Definition rotl (n x : Z) : Z :=
  w32 (Z.lor (Z.shiftl x n) (Z.shiftr x (32 - n))).

(** Big-endian conversions. *)
Definition word_of_bytes (b0 b1 b2 b3 : Z) : Z :=
  Z.lor (Z.shiftl b0 24) (Z.lor (Z.shiftl b1 16) (Z.lor (Z.shiftl b2 8) b3)).

Definition bytes_of_word (w : Z) : list Z :=
  [Z.shiftr w 24 mod 256; Z.shiftr w 16 mod 256; Z.shiftr w 8 mod 256; w mod 256].

Fixpoint words_of_bytes (n : nat) (l : list Z) : list Z :=
  match n, l with
  | S n', b0 :: b1 :: b2 :: b3 :: l' =>
      word_of_bytes b0 b1 b2 b3 :: words_of_bytes n' l'
  | _, _ => []
  end.

(** The message followed by 0x80, zeros up to 56 modulo 64, and the bit
    length on eight bytes. *)
Definition pad (msg : list Z) : list Z :=
  let len := Z.of_nat (List.length msg) in
  let zeros := Z.to_nat ((55 - len) mod 64) in
  let bits := 8 * len in
  msg ++ [0x80] ++ List.repeat 0 zeros
      ++ bytes_of_word (Z.shiftr bits 32 mod 2 ^ 32)
      ++ bytes_of_word (bits mod 2 ^ 32).

Record state := State { ha : Z; hb : Z; hc : Z; hd : Z; he : Z }.

Definition init : state :=
  State 0x67452301 0xEFCDAB89 0x98BADCFE 0x10325476 0xC3D2E1F0.

Definition f_k (i : nat) (b c d : Z) : Z * Z :=
  if (i <? 20)%nat then
    (Z.lor (Z.land b c) (Z.land (not32 b) d), 0x5A827999)
  else if (i <? 40)%nat then
    (Z.lxor b (Z.lxor c d), 0x6ED9EBA1)
  else if (i <? 60)%nat then
    (Z.lor (Z.land b c) (Z.lor (Z.land b d) (Z.land c d)), 0x8F1BBCDC)
  else
    (Z.lxor b (Z.lxor c d), 0xCA62C1D6).

(** The message schedule is kept as a window of sixteen words: the head is
    the word of the current round, and the word sixteen rounds ahead is
    appended. *)
Definition next_word (win : list Z) : Z :=
  rotl 1 (Z.lxor (List.nth 13 win 0)
            (Z.lxor (List.nth 8 win 0)
               (Z.lxor (List.nth 2 win 0) (List.nth 0 win 0)))).

Fixpoint rounds (n : nat) (i : nat) (win : list Z) (s : state) : state :=
  match n with
  | O => s
  | S n' =>
      let '(f, k) := f_k i (hb s) (hc s) (hd s) in
      let temp :=
        add32 (add32 (add32 (add32 (rotl 5 (ha s)) f) (he s)) k)
              (List.nth 0 win 0) in
      rounds n' (S i) (List.tl win ++ [next_word win])
             (State temp (ha s) (rotl 30 (hb s)) (hc s) (hd s))
  end.

Definition compress (h : state) (block : list Z) : state :=
  let s := rounds 80 0 (words_of_bytes 16 block) h in
  State (add32 (ha h) (ha s)) (add32 (hb h) (hb s)) (add32 (hc h) (hc s))
        (add32 (hd h) (hd s)) (add32 (he h) (he s)).

Fixpoint blocks (n : nat) (h : state) (l : list Z) : state :=
  match n with
  | O => h
  | S n' => blocks n' (compress h (List.firstn 64 l)) (List.skipn 64 l)
  end.

Definition hash (msg : list Z) : state :=
  let p := pad msg in
  blocks (List.length p / 64) init p.

Definition digest (msg : list Z) : list Z :=
  let h := hash msg in
  bytes_of_word (ha h) ++ bytes_of_word (hb h) ++ bytes_of_word (hc h)
    ++ bytes_of_word (hd h) ++ bytes_of_word (he h).

End SHA1.

(** ** HMAC (RFC 2104) with SHA-1, as [hmac.new(key, msg, hashlib.sha1)] *)

Definition hex_digit (n : Z) : ascii :=
  ascii_of_byte (if n <? 10 then 48 + n else 87 + n).

Fixpoint hex_of_bytes (l : list Z) : string :=
  match l with
  | [] => EmptyString
  | b :: l' =>
      String (hex_digit (b / 16 mod 16))
        (String (hex_digit (b mod 16)) (hex_of_bytes l'))
  end.

Definition hmac_key (key : list Z) : list Z :=
  let k := if (64 <? List.length key)%nat then SHA1.digest key else key in
  k ++ List.repeat 0 (64 - List.length k).

Definition hmac_digest (key msg : list Z) : list Z :=
  let k := hmac_key key in
  let inner := SHA1.digest (List.map (Z.lxor 0x36) k ++ msg) in
  SHA1.digest (List.map (Z.lxor 0x5C) k ++ inner).

(** [hmac.new(key, msg, hashlib.sha1).hexdigest()] *)
Definition hmac_sha1_hex (key msg : string) : string :=
  hex_of_bytes (hmac_digest (bytes_of_string key) (bytes_of_string msg)).

Definition sha1_hex (msg : string) : string :=
  hex_of_bytes (SHA1.digest (bytes_of_string msg)).

(** Test vectors: FIPS 180 ("abc"), the empty message, and the HMAC-SHA1
    examples of common use. *)
Example sha1_abc :
  sha1_hex "abc" = "a9993e364706816aba3e25717850c26c9cd0d89d"%string.
Proof. vm_compute. reflexivity. Qed.

Example sha1_empty :
  sha1_hex "" = "da39a3ee5e6b4b0d3255bfef95601890afd80709"%string.
Proof. vm_compute. reflexivity. Qed.

Example sha1_two_blocks :
  sha1_hex "abcdbcdecdefdefgefghfghighijhijkijkljklmklmnlmnomnopnopq"
  = "84983e441c3bd26ebaae4aa1f95129e5e54670f1"%string.
Proof. vm_compute. reflexivity. Qed.

Example hmac_fox :
  hmac_sha1_hex "key" "The quick brown fox jumps over the lazy dog"
  = "de7c9b85b8b78aa6bc8a7a36f70a90701c9db4d9"%string.
Proof. vm_compute. reflexivity. Qed.

Example hmac_empty :
  hmac_sha1_hex "" "" = "fbdb1d1b18aa6c08324b7d64b71fb76370690e1d"%string.
Proof. vm_compute. reflexivity. Qed.

(** ** Python string operations *)

Local Open Scope string_scope.

Definition nl : string := String "010"%char EmptyString.
Definition dq : string := String "034"%char EmptyString.

Fixpoint drop_chars (n : nat) (s : string) : string :=
  match n, s with
  | S n', String _ s' => drop_chars n' s'
  | _, _ => s
  end.

(** [re.sub(pat, rep, s)] for a pattern without metacharacters and a
    replacement without escapes, which is how the class calls it, and
    [s.replace(pat, rep)]: every occurrence, leftmost first, without overlap.
    [skip] counts the characters of a match still to be passed over. *)
Fixpoint replace_from (pat rep : string) (skip : nat) (s : string) : string :=
  match s with
  | EmptyString => EmptyString
  | String c s' =>
      match skip with
      | S k => replace_from pat rep k s'
      | O =>
          if prefix pat s
          then rep ++ replace_from pat rep (String.length pat - 1) s'
          else String c (replace_from pat rep O s')
      end
  end.

Definition re_sub (pat rep s : string) : string := replace_from pat rep O s.

(** [s.replace(pat, rep, 1)]: the first occurrence only. *)
Fixpoint replace_first (pat rep s : string) : string :=
  match s with
  | EmptyString => EmptyString
  | String c s' =>
      if prefix pat s then rep ++ drop_chars (String.length pat) s
      else String c (replace_first pat rep s')
  end.

(** [s.count(pat)]: the number of occurrences without overlap; an empty
    pattern is found once before every character and once at the end. *)
Fixpoint count_from (pat : string) (skip : nat) (s : string) : nat :=
  match s with
  | EmptyString => match skip with O => if prefix pat "" then 1 else 0 | _ => 0 end
  | String c s' =>
      match skip with
      | S k => count_from pat k s'
      | O =>
          if prefix pat s
          then S (count_from pat (String.length pat - 1) s')
          else count_from pat O s'
      end
  end%nat.

Definition str_count (s pat : string) : nat := count_from pat O s.

(** [unicode.strip()], on the UTF-8 encoding of the value.  The characters
    Python 2.7 takes for white space (Unicode 5.2): U+0009..U+000D,
    U+001C..U+0020, U+0085, U+00A0, U+1680, U+180E, U+2000..U+200A, U+2028,
    U+2029, U+202F, U+205F and U+3000. *)
Definition whitespace_codes : list (list Z) :=
  [ [0x09]; [0x0A]; [0x0B]; [0x0C]; [0x0D]; [0x1C]; [0x1D]; [0x1E]; [0x1F];
    [0x20]; [0xC2; 0x85]; [0xC2; 0xA0]; [0xE1; 0x9A; 0x80]; [0xE1; 0xA0; 0x8E];
    [0xE2; 0x80; 0x80]; [0xE2; 0x80; 0x81]; [0xE2; 0x80; 0x82];
    [0xE2; 0x80; 0x83]; [0xE2; 0x80; 0x84]; [0xE2; 0x80; 0x85];
    [0xE2; 0x80; 0x86]; [0xE2; 0x80; 0x87]; [0xE2; 0x80; 0x88];
    [0xE2; 0x80; 0x89]; [0xE2; 0x80; 0x8A]; [0xE2; 0x80; 0xA8];
    [0xE2; 0x80; 0xA9]; [0xE2; 0x80; 0xAF]; [0xE2; 0x81; 0x9F];
    [0xE3; 0x80; 0x80] ].

Fixpoint bytes_prefix (p l : list Z) : bool :=
  match p, l with
  | [], _ => true
  | a :: p', b :: l' => (a =? b)%Z && bytes_prefix p' l'
  | _ :: _, [] => false
  end.

(** The length of the white-space character [l] starts with, if any. *)
Definition leading_space (codes : list (list Z)) (l : list Z) : option nat :=
  List.length <$> List.find (fun p => bytes_prefix p l) codes.

Fixpoint lstrip_bytes (fuel : nat) (codes : list (list Z)) (l : list Z) : list Z :=
  match fuel with
  | O => l
  | S fuel' =>
      match leading_space codes l with
      | Some n => lstrip_bytes fuel' codes (List.skipn n l)
      | None => l
      end
  end.

Definition strip (s : string) : string :=
  let l := bytes_of_string s in
  let l1 := lstrip_bytes (List.length l) whitespace_codes l in
  let r := List.rev l1 in
  let r1 := lstrip_bytes (List.length r) (List.map (@List.rev Z) whitespace_codes) r in
  string_of_bytes (List.rev r1).

Example strip_uar_data :
  strip (nl ++ "AAAAAAAAAA==" ++ nl ++ "          ") = "AAAAAAAAAA==".
Proof. vm_compute. reflexivity. Qed.

Example strip_blank : strip (nl ++ "   " ++ nl) = "".
Proof. vm_compute. reflexivity. Qed.

Example re_sub_uam_dir :
  re_sub "          <uam_dir>" "<uam_dir>"
         ("  <a/>" ++ nl ++ "            <uam_dir>x</uam_dir>" ++ nl)
  = "  <a/>" ++ nl ++ "  <uam_dir>x</uam_dir>" ++ nl.
Proof. vm_compute. reflexivity. Qed.

Example str_count_examples :
  str_count "abcabcab" "abc" = 2%nat /\ str_count "aaaa" "aa" = 2%nat
  /\ str_count "ab" "" = 3%nat /\ str_count "ab" "abc" = 0%nat.
Proof. vm_compute. auto. Qed.

(** ** Exceptions and results *)

Inductive exn : Type :=
  | ExpatError          (* xml.parsers.expat.ExpatError: not well-formed *)
  | AttributeError      (* an attribute of [None] was asked for *)
  | ValueError          (* raised by [toxml] on data it cannot write *)
  | TypeError
  | IOError
  | UnicodeDecodeError  (* bytes that the UTF-8 codec does not decode *)
  | SystemExit (code : Z).

Inductive result (A : Type) : Type :=
  | Ok (a : A)
  | Raise (e : exn).
Arguments Ok {A} a.
Arguments Raise {A} e.

Definition rbind {A B} (r : result A) (k : A -> result B) : result B :=
  match r with
  | Ok a => k a
  | Raise e => Raise e
  end.

(** Using a value that may be [None]: asking [None] for an attribute raises
    AttributeError. *)
Definition attr_of {A} (o : option A) : result A :=
  match o with
  | Some a => Ok a
  | None => Raise AttributeError
  end.

(** ** The UTF-8 codec of Python 2.7

    [s.decode("utf-8")], errors strict: sequences of one to four bytes,
    no overlong form and nothing above U+10FFFF.  The codec of Python 2.7
    accepts the three-byte forms of the surrogates U+D800..U+DFFF. *)

Local Open Scope Z_scope.

Definition is_continuation (b : Z) : bool := (0x80 <=? b) && (b <=? 0xBF).

Fixpoint utf8_decode (l : list Z) : option (list Z) :=
  match l with
  | [] => Some []
  | b0 :: l1 =>
      if b0 <? 0x80 then cons b0 <$> utf8_decode l1
      else if (0xC2 <=? b0) && (b0 <=? 0xDF) then
        match l1 with
        | b1 :: l2 =>
            if is_continuation b1
            then cons ((b0 - 0xC0) * 64 + (b1 - 0x80)) <$> utf8_decode l2
            else None
        | _ => None
        end
      else if (0xE0 <=? b0) && (b0 <=? 0xEF) then
        match l1 with
        | b1 :: b2 :: l3 =>
            if is_continuation b1 && is_continuation b2
               && negb ((b0 =? 0xE0) && (b1 <? 0xA0))
            then cons ((b0 - 0xE0) * 4096 + (b1 - 0x80) * 64 + (b2 - 0x80))
                   <$> utf8_decode l3
            else None
        | _ => None
        end
      else if (0xF0 <=? b0) && (b0 <=? 0xF4) then
        match l1 with
        | b1 :: b2 :: b3 :: l4 =>
            if is_continuation b1 && is_continuation b2 && is_continuation b3
               && negb ((b0 =? 0xF0) && (b1 <? 0x90))
               && negb ((b0 =? 0xF4) && (0x8F <? b1))
            then cons ((b0 - 0xF0) * 262144 + (b1 - 0x80) * 4096
                       + (b2 - 0x80) * 64 + (b3 - 0x80))
                   <$> utf8_decode l4
            else None
        | _ => None
        end
      else None
  end.

(** The bytes of one code point. *)
Definition utf8_bytes (c : Z) : list Z :=
  if c <? 0x80 then [c]
  else if c <? 0x800 then [0xC0 + c / 64; 0x80 + c mod 64]
  else if c <? 0x10000 then
    [0xE0 + c / 4096; 0x80 + c / 64 mod 64; 0x80 + c mod 64]
  else
    [0xF0 + c / 262144; 0x80 + c / 4096 mod 64; 0x80 + c / 64 mod 64;
     0x80 + c mod 64].

(** [u.encode("utf-8")]: a high surrogate followed by a low one is
    written as the code point the pair stands for. *)
Fixpoint utf8_encode (points : list Z) : list Z :=
  match points with
  | [] => []
  | c :: ps =>
      match ps with
      | c2 :: ps' =>
          if (0xD800 <=? c) && (c <=? 0xDBFF)
             && (0xDC00 <=? c2) && (c2 <=? 0xDFFF)
          then utf8_bytes ((c - 0xD800) * 1024 + (c2 - 0xDC00) + 0x10000)
                 ++ utf8_encode ps'
          else utf8_bytes c ++ utf8_encode ps
      | [] => utf8_bytes c
      end
  end%list.

Local Open Scope string_scope.

(** [s.encode("utf-8")] on a byte string: Python 2 first decodes [s] with
    the default encoding, which the module sets to UTF-8, and encodes what
    it decoded.  Bytes that are not UTF-8 raise UnicodeDecodeError. *)
Definition encode_utf8 (s : string) : result string :=
  match utf8_decode (bytes_of_string s) with
  | Some points => Ok (string_of_bytes (utf8_encode points))
  | None => Raise UnicodeDecodeError
  end.

(** ** The DOM of xml.dom.minidom *)

#[local] Set Warnings "-register-all".

Inductive node : Type :=
  | Element (tagName : string) (attributes : list (string * string))
            (childNodes : list node)
  | Text (data : string)
  | CDATASection (data : string)
  | Comment (data : string)
  | ProcessingInstruction (target data : string).

(** A [Document] is the list of its children: the document element and the
    comments and processing instructions around it. *)
Definition document : Type := list node.

Section node_induction.
Variable P : node -> Prop.
Hypothesis HElement :
    forall t a cs, Forall P cs -> P (Element t a cs).
Hypothesis HText : forall d, P (Text d).
Hypothesis HCDATA : forall d, P (CDATASection d).
Hypothesis HComment : forall d, P (Comment d).
Hypothesis HPI : forall t d, P (ProcessingInstruction t d).

Fixpoint node_forall_ind (n : node) : P n :=
    match n with
    | Element t a cs =>
        HElement t a cs
          ((fix go (l : list node) : Forall P l :=
              match l with
              | [] => @List.Forall_nil node P
              | c :: l' => @List.Forall_cons node P c l' (node_forall_ind c) (go l')
              end) cs)
    | Text d => HText d
    | CDATASection d => HCDATA d
    | Comment d => HComment d
    | ProcessingInstruction t d => HPI t d
    end.
End node_induction.

Definition children (n : node) : list node :=
  match n with
  | Element _ _ cs => cs
  | _ => []
  end.

(** [n.firstChild] *)
Definition firstChild (n : node) : option node := List.head (children n).

(** [n.nodeValue]: the data of a character-data node, a comment or a
    processing instruction, [None] for an element. *)
Definition nodeValue (n : node) : option string :=
  match n with
  | Element _ _ _ => None
  | Text d | CDATASection d | Comment d => Some d
  | ProcessingInstruction _ d => Some d
  end.

(** [n.nodeValue = v].  On an element the assignment only shadows the class
    attribute of that object; neither its children nor what [toxml] writes
    change. *)
Definition set_nodeValue (v : string) (n : node) : node :=
  match n with
  | Element t a cs => Element t a cs
  | Text _ => Text v
  | CDATASection _ => CDATASection v
  | Comment _ => Comment v
  | ProcessingInstruction t _ => ProcessingInstruction t v
  end.

Definition is_tag (name : string) (n : node) : bool :=
  match n with
  | Element t _ _ => String.eqb t name
  | _ => false
  end.

(** [getElementsByTagName]: the elements called [name] below a parent, in
    document order ([_get_elements_by_tagName_helper]). *)
Fixpoint elements_in (name : string) (n : node) : list node :=
  ((if is_tag name n then [n] else [])
   ++ match n with
      | Element _ _ cs =>
          (fix go (l : list node) : list node :=
             match l with
             | [] => []
             | c :: l' => elements_in name c ++ go l'
             end) cs
      | _ => []
      end)%list.

Fixpoint getElementsByTagName (name : string) (ns : list node) : list node :=
  match ns with
  | [] => []
  | c :: ns' => (elements_in name c ++ getElementsByTagName name ns')%list
  end.

(** [nodelist.item(0)] *)
Definition item0 (l : list node) : option node := List.head l.

(** A node found by [getElementsByTagName(name).item(0)] is named below by
    its position, the first element called [name] in document order.
    [remove_first] is [n.parentNode.removeChild(n)] for that node, and
    [update_first f] an assignment that turns that node into [f n]. *)
Fixpoint update_in (name : string) (f : node -> option node) (n : node)
  : option (option node) :=
  (* [None]: no match inside; [Some r]: matched, [r] replaces [n], and
     [Some None] removes it *)
  if is_tag name n then Some (f n)
  else match n with
       | Element t a cs =>
           match
             (fix go (l : list node) : option (list node) :=
                match l with
                | [] => None
                | c :: l' =>
                    match update_in name f c with
                    | Some (Some c') => Some (c' :: l')
                    | Some None => Some l'
                    | None => cons c <$> go l'
                    end
                end) cs
           with
           | Some cs' => Some (Some (Element t a cs'))
           | None => None
           end
       | _ => None
       end.

Fixpoint update_first (name : string) (f : node -> option node)
  (ns : list node) : option (list node) :=
  match ns with
  | [] => None
  | c :: ns' =>
      match update_in name f c with
      | Some (Some c') => Some (c' :: ns')
      | Some None => Some ns'
      | None => cons c <$> update_first name f ns'
      end
  end.

Definition remove_first (name : string) (ns : list node) : list node :=
  default ns (update_first name (fun _ => None) ns).

(** [n.firstChild.nodeValue = v] on the first element called [name]. *)
Definition set_firstChild_value (v : string) (n : node) : node :=
  match n with
  | Element t a (c :: cs) => Element t a (set_nodeValue v c :: cs)
  | _ => n
  end.

Definition assign_first (name : string) (f : node -> node)
  (ns : list node) : list node :=
  default ns (update_first name (fun n => Some (f n)) ns).

(** *** Serialisation: [toxml()], that is [writexml] without indentation *)

(** [_write_data]: the four replacements, [&] first. *)
Fixpoint write_data (s : string) : string :=
  match s with
  | EmptyString => EmptyString
  | String c s' =>
      (if Ascii.eqb c "&" then "&amp;"
       else if Ascii.eqb c "<" then "&lt;"
       else if Ascii.eqb c "034" then "&quot;"
       else if Ascii.eqb c ">" then "&gt;"
       else String c EmptyString) ++ write_data s'
  end.

(** Attributes are written in the order of their sorted names. *)
Fixpoint insert_attr (a : string * string) (l : list (string * string))
  : list (string * string) :=
  match l with
  | [] => [a]
  | b :: l' => if String.leb (fst a) (fst b) then a :: l else b :: insert_attr a l'
  end.

Definition sort_attrs (l : list (string * string)) : list (string * string) :=
  List.fold_right insert_attr [] l.

Fixpoint write_attrs (l : list (string * string)) : string :=
  match l with
  | [] => ""
  | (k, v) :: l' => " " ++ k ++ "=" ++ dq ++ write_data v ++ dq ++ write_attrs l'
  end.

(** Whether [pat] occurs in [s]. *)
Definition occurs (pat s : string) : bool := (0 <? str_count s pat)%nat.

Definition start_tag (t : string) (a : list (string * string)) : string :=
  "<" ++ t ++ write_attrs (sort_attrs a).

Fixpoint writexml (n : node) : result string :=
  match n with
  | Element t a cs =>
      let start := start_tag t a in
      match cs with
      | [] => Ok (start ++ "/>")
      | _ =>
          rbind
            ((fix go (l : list node) : result string :=
                match l with
                | [] => Ok ""
                | c :: l' =>
                    rbind (writexml c) (fun x =>
                    rbind (go l') (fun y => Ok (x ++ y)))
                end) cs)
            (fun body => Ok (start ++ ">" ++ body ++ "</" ++ t ++ ">"))
      end
  | Text d => Ok (write_data d)
  | CDATASection d =>
      if occurs "]]>" d then Raise ValueError
      else Ok ("<![CDATA[" ++ d ++ "]]>")
  | Comment d =>
      if occurs "--" d then Raise ValueError
      else Ok ("<!--" ++ d ++ "-->")
  | ProcessingInstruction t d => Ok ("<?" ++ t ++ " " ++ d ++ "?>")
  end.

Fixpoint writexml_list (l : list node) : result string :=
  match l with
  | [] => Ok ""
  | c :: l' =>
      rbind (writexml c) (fun x =>
      rbind (writexml_list l') (fun y => Ok (x ++ y)))
  end.

(** [node.toxml()] of an element, and [doc.toxml()] of a document, which
    starts with the XML declaration. *)
Definition toxml (n : node) : result string := writexml n.

Definition xml_declaration : string :=
  "<?xml version=" ++ dq ++ "1.0" ++ dq ++ " ?>".

Definition doc_toxml (d : document) : result string :=
  rbind (writexml_list d) (fun body => Ok (xml_declaration ++ body)).

(** *** Parsing: [xml.dom.minidom.parseString]

    The class hands its text to the expat parser behind minidom.  The
    operations below take the parser as a parameter; [Minidom.parseString]
    is the parser written out for UTF-8 documents made of elements,
    attributes, text, the predefined and numeric references, CDATA sections,
    comments and processing instructions, building the tree as minidom's
    expat builder does.  Document type declarations, a byte order mark and
    names with a colon are outside that fragment and are refused; the
    contents of the XML declaration, the encoding it names among them, are
    not examined.  It is run on the documents of the examples only, which
    lie in the fragment. *)

Module Minidom.

Local Open Scope Z_scope.

Definition code (c : ascii) : Z := byte_of_ascii c.

Definition is_space (c : ascii) : bool :=
  let n := code c in (n =? 32) || (n =? 9) || (n =? 10) || (n =? 13).

Definition is_digit (c : ascii) : bool :=
  let n := code c in (48 <=? n) && (n <=? 57).

Definition is_name_start (c : ascii) : bool :=
  let n := code c in
  ((65 <=? n) && (n <=? 90)) || ((97 <=? n) && (n <=? 122)) || (n =? 95)
  || (128 <=? n).

Definition is_name_char (c : ascii) : bool :=
  is_name_start c || is_digit c || (code c =? 45) || (code c =? 46).

(** Characters below U+0020 other than tab, line feed and carriage return
    are not allowed in a document. *)
Definition is_char (c : ascii) : bool :=
  let n := code c in (32 <=? n) || (n =? 9) || (n =? 10) || (n =? 13).

Fixpoint span (p : ascii -> bool) (s : string) : string * string :=
  match s with
  | EmptyString => ("", "")
  | String c s' =>
      if p c then let '(a, b) := span p s' in (String c a, b) else ("", s)
  end.

Definition skip_space (s : string) : string := snd (span is_space s).

(** The text before and after the first occurrence of [pat]. *)
Fixpoint split_at (pat : string) (s : string) : option (string * string) :=
  if prefix pat s then Some ("", drop_chars (String.length pat) s)
  else match s with
       | EmptyString => None
       | String c s' =>
           match split_at pat s' with
           | Some (a, b) => Some (String c a, b)
           | None => None
           end
       end.

(** Line ends are normalised before parsing: CR LF and a lone CR become
    LF. *)
Fixpoint normalize_newlines (s : string) : string :=
  match s with
  | EmptyString => EmptyString
  | String c s' =>
      if (code c =? 13) then
        match s' with
        | String c' _ =>
            if (code c' =? 10) then normalize_newlines s'
            else String "010"%char (normalize_newlines s')
        | EmptyString => String "010"%char EmptyString
        end
      else String c (normalize_newlines s')
  end.

Definition parse_name (s : string) : option (string * string) :=
  match s with
  | String c _ =>
      if is_name_start c then Some (span is_name_char s) else None
  | EmptyString => None
  end.

(** Numbers of character references. *)
Definition digit_value (c : ascii) : option Z :=
  let n := code c in
  if (48 <=? n) && (n <=? 57) then Some (n - 48)
  else if (97 <=? n) && (n <=? 102) then Some (n - 87)
  else if (65 <=? n) && (n <=? 70) then Some (n - 55)
  else None.

Fixpoint number_of (base : Z) (acc : Z) (s : string) : option Z :=
  match s with
  | EmptyString => Some acc
  | String c s' =>
      match digit_value c with
      | Some d => if d <? base then number_of base (base * acc + d) s' else None
      | None => None
      end
  end.

Definition is_xml_char (cp : Z) : bool :=
  (cp =? 9) || (cp =? 10) || (cp =? 13)
  || ((0x20 <=? cp) && (cp <=? 0xD7FF))
  || ((0xE000 <=? cp) && (cp <=? 0xFFFD))
  || ((0x10000 <=? cp) && (cp <=? 0x10FFFF)).

Definition utf8 (cp : Z) : string :=
  string_of_bytes
    (if cp <? 0x80 then [cp]
     else if cp <? 0x800 then [0xC0 + cp / 64; 0x80 + cp mod 64]
     else if cp <? 0x10000 then
       [0xE0 + cp / 4096; 0x80 + cp / 64 mod 64; 0x80 + cp mod 64]
     else
       [0xF0 + cp / 262144; 0x80 + cp / 4096 mod 64; 0x80 + cp / 64 mod 64;
        0x80 + cp mod 64]).

(** A reference, read after its [&]: the text it stands for and the rest. *)
Definition parse_reference (s : string) : option (string * string) :=
  match split_at ";" s with
  | None => None
  | Some (body, rest) =>
      let char_ref (base : Z) (digits : string) :=
        match digits with
        | EmptyString => None
        | _ =>
            match number_of base 0 digits with
            | Some cp => if is_xml_char cp then Some (utf8 cp, rest) else None
            | None => None
            end
        end in
      match body with
      | String "#" (String "x" digits) => char_ref 16 digits
      | String "#" digits => char_ref 10 digits
      | _ =>
          if String.eqb body "lt" then Some ("<", rest)
          else if String.eqb body "gt" then Some (">", rest)
          else if String.eqb body "amp" then Some ("&", rest)
          else if String.eqb body "quot" then Some (dq, rest)
          else if String.eqb body "apos" then Some ("'", rest)
          else None
      end
  end.

(** An attribute value between its quotes: references are replaced, white
    space becomes a space, and [<] is refused. *)
Fixpoint attr_value (fuel : nat) (s : string) : option string :=
  match fuel, s with
  | _, EmptyString => Some ""
  | O, _ => None
  | S fuel', String c s' =>
      if Ascii.eqb c "&" then
        match parse_reference s' with
        | Some (t, rest) => String.append t <$> attr_value fuel' rest
        | None => None
        end
      else if Ascii.eqb c "<" then None
      else if negb (is_char c) then None
      else String (if is_space c then " "%char else c) <$> attr_value fuel' s'
  end.

Fixpoint parse_attrs (fuel : nat) (s : string) (acc : list (string * string))
  : option (list (string * string) * bool * string) :=
  match fuel with
  | O => None
  | S fuel' =>
      let s1 := skip_space s in
      if prefix "/>" s1 then Some (List.rev acc, true, drop_chars 2 s1)
      else if prefix ">" s1 then Some (List.rev acc, false, drop_chars 1 s1)
      else if (String.length s1 =? String.length s)%nat then None
      else
        match parse_name s1 with
        | None => None
        | Some (k, s2) =>
            match skip_space s2 with
            | String "=" s3 =>
                match skip_space s3 with
                | String q s4 =>
                    if Ascii.eqb q "034" || Ascii.eqb q "'" then
                      match split_at (String q "") s4 with
                      | Some (raw, s5) =>
                          match attr_value (String.length raw) raw with
                          | Some v =>
                              if List.existsb (String.eqb k) (List.map fst acc)
                              then None
                              else parse_attrs fuel' s5 ((k, v) :: acc)
                          | None => None
                          end
                      | None => None
                      end
                    else None
                | EmptyString => None
                end
            | _ => None
            end
        end
  end.

(** Character data is added to a text node that ends the list, as the
    builder's [character_data_handler_cdata] does. *)
Definition push_text (d : string) (acc : list node) : list node :=
  match acc with
  | Text d0 :: acc' => Text (d0 ++ d) :: acc'
  | _ => Text d :: acc
  end.

Definition is_plain (c : ascii) : bool :=
  is_char c && negb (Ascii.eqb c "<") && negb (Ascii.eqb c "&")
  && negb (Ascii.eqb c "]").

Definition lower (c : ascii) : ascii :=
  let n := code c in
  if (65 <=? n) && (n <=? 90) then ascii_of_byte (n + 32) else c.

Fixpoint lower_string (s : string) : string :=
  match s with
  | EmptyString => EmptyString
  | String c s' => String (lower c) (lower_string s')
  end.

(** A comment, read after [<!--]. *)
Definition parse_comment (s : string) : option (node * string) :=
  match split_at "--" s with
  | Some (d, String ">" rest) =>
      if List.forallb is_char (list_ascii_of_string d)
      then Some (Comment d, rest) else None
  | _ => None
  end.

(** A processing instruction, read after [<?]. *)
Definition parse_pi (s : string) : option (node * string) :=
  match parse_name s with
  | None => None
  | Some (t, s1) =>
      if String.eqb (lower_string t) "xml" then None
      else if prefix "?>" s1 then
        Some (ProcessingInstruction t "", drop_chars 2 s1)
      else
        match s1 with
        | String c _ =>
            if is_space c then
              match split_at "?>" (skip_space s1) with
              | Some (d, rest) =>
                  if List.forallb is_char (list_ascii_of_string d)
                  then Some (ProcessingInstruction t d, rest) else None
              | None => None
              end
            else None
        | EmptyString => None
        end
  end.

(** The content of an element up to its end tag, and the text after the
    [</] of that tag.  [acc] holds the children read so far, last first. *)
Fixpoint parse_content (fuel : nat) (s : string) (acc : list node)
  : option (list node * string) :=
  match fuel with
  | O => None
  | S fuel' =>
      if prefix "</" s then Some (List.rev acc, drop_chars 2 s)
      else if prefix "<!--" s then
        match parse_comment (drop_chars 4 s) with
        | Some (c, rest) => parse_content fuel' rest (c :: acc)
        | None => None
        end
      else if prefix "<![CDATA[" s then
        match split_at "]]>" (drop_chars 9 s) with
        | Some (d, rest) =>
            if List.forallb is_char (list_ascii_of_string d) then
              parse_content fuel' rest
                (match d with
                 | EmptyString => acc
                 | _ => CDATASection d :: acc
                 end)
            else None
        | None => None
        end
      else if prefix "<?" s then
        match parse_pi (drop_chars 2 s) with
        | Some (p, rest) => parse_content fuel' rest (p :: acc)
        | None => None
        end
      else
        match s with
        | EmptyString => None
        | String "<" s1 =>
            match parse_name s1 with
            | None => None
            | Some (t, s2) =>
                match parse_attrs (S (String.length s2)) s2 [] with
                | None => None
                | Some (attrs, true, rest) =>
                    parse_content fuel' rest (Element t attrs [] :: acc)
                | Some (attrs, false, s3) =>
                    match parse_content fuel' s3 [] with
                    | None => None
                    | Some (cs, s4) =>
                        match parse_name s4 with
                        | Some (t', s5) =>
                            match skip_space s5 with
                            | String ">" rest =>
                                if String.eqb t t'
                                then parse_content fuel' rest
                                       (Element t attrs cs :: acc)
                                else None
                            | _ => None
                            end
                        | None => None
                        end
                    end
                end
            end
        | String "&" s1 =>
            match parse_reference s1 with
            | Some (t, rest) => parse_content fuel' rest (push_text t acc)
            | None => None
            end
        | String c s1 =>
            if prefix "]]>" s then None
            else if Ascii.eqb c "]" then
              parse_content fuel' s1 (push_text "]" acc)
            else
              match span is_plain s with
              | (EmptyString, _) => None
              | (run, rest) => parse_content fuel' rest (push_text run acc)
              end
        end
  end.

(** Comments, processing instructions and white space around the document
    element. *)
Fixpoint parse_misc (fuel : nat) (s : string) (acc : list node)
  : option (list node * string) :=
  match fuel with
  | O => None
  | S fuel' =>
      let s1 := skip_space s in
      if prefix "<!--" s1 then
        match parse_comment (drop_chars 4 s1) with
        | Some (c, rest) => parse_misc fuel' rest (c :: acc)
        | None => None
        end
      else if prefix "<?" s1 then
        match parse_pi (drop_chars 2 s1) with
        | Some (p, rest) => parse_misc fuel' rest (p :: acc)
        | None => None
        end
      else Some (List.rev acc, s1)
  end.

Definition skip_declaration (s : string) : option string :=
  match s with
  | String "<" (String "?" (String "x" (String "m" (String "l" (String c s'))))) =>
      if is_space c then snd <$> split_at "?>" s' else Some s
  | _ => Some s
  end.

Definition parseString (text : string) : option document :=
  let s := normalize_newlines text in
  let fuel := S (String.length s) in
  match skip_declaration s with
  | None => None
  | Some s0 =>
      match parse_misc fuel s0 [] with
      | None => None
      | Some (before, s1) =>
          (* the document element, read as the only child of a parent whose
             end tag is never met *)
          match s1 with
          | String "<" _ =>
              if prefix "</" s1 || prefix "<!" s1 then None
              else
                match parse_name (drop_chars 1 s1) with
                | None => None
                | Some (t, s2) =>
                    match parse_attrs (S (String.length s2)) s2 [] with
                    | None => None
                    | Some (attrs, selfclosing, s3) =>
                        let finish root rest :=
                          match parse_misc fuel rest [] with
                          | Some (after, EmptyString) =>
                              Some (before ++ root :: after)%list
                          | _ => None
                          end in
                        if selfclosing then finish (Element t attrs []) s3
                        else
                          match parse_content fuel s3 [] with
                          | None => None
                          | Some (cs, s4) =>
                              match parse_name s4 with
                              | Some (t', s5) =>
                                  match skip_space s5 with
                                  | String ">" rest =>
                                      if String.eqb t t'
                                      then finish (Element t attrs cs) rest
                                      else None
                                  | _ => None
                                  end
                              | None => None
                              end
                          end
                    end
                end
          | _ => None
          end
      end
  end.

End Minidom.

(** ** The object, the file system and the log *)

(** [configXMLString] is [None] until a document is loaded (the class
    attribute); it then holds the bytes that were read or set. *)
Record gsaConfig : Type := GsaConfig { configXMLString : option string }.

Inductive level : Type := DEBUG | ERROR.

Record world : Type := World {
  self : gsaConfig;
  files : gmap string string;      (* path to contents *)
  records : list (level * string)  (* what [log] was given, latest first *)
}.

(** Methods run in a state and exception monad over [world]: a raised
    exception keeps the changes made before it. *)
Definition M (A : Type) : Type := world -> result A * world.

Definition ret {A} (a : A) : M A := fun w => (Ok a, w).

Definition bind {A B} (m : M A) (k : A -> M B) : M B :=
  fun w =>
    match m w with
    | (Ok a, w') => k a w'
    | (Raise e, w') => (Raise e, w')
    end.

Definition raise {A} (e : exn) : M A := fun w => (Raise e, w).

Definition lift {A} (r : result A) : M A := fun w => (r, w).

Notation "'do' x <- m ; k" := (bind m (fun x => k))
  (at level 10, x name, m at level 100, k at level 200, only parsing).
Notation "m ;; k" := (bind m (fun _ => k))
  (at level 100, k at level 200, right associativity, only parsing).

Definition log_to (l : level) (msg : string) : M unit :=
  fun w => (Ok tt, World (self w) (files w) ((l, msg) :: records w)).

(** [sys.exit(code)] raises SystemExit. *)
Definition sys_exit {A} (code : Z) : M A := raise (SystemExit code).

Definition os_path_exists (path : string) : M bool :=
  fun w => (Ok (bool_decide (is_Some (files w !! path))), w).

(** [open(path).read()] *)
Definition file_read (path : string) : M string :=
  fun w => (match files w !! path with
            | Some s => Ok s
            | None => Raise IOError
            end, w).

(** [codecs.open(path, "w", "utf-8")].  [creatable path] says whether a
    file can be opened for writing at [path]: the name is not empty, its
    directory exists and can be written to, and no directory stands at
    [path].  When it cannot, IOError is raised and nothing changes;
    otherwise the file is there, empty.  The methods create and remove no
    directory, so that [creatable] is the same throughout a run. *)
Definition file_create (creatable : string -> bool) (path : string) : M unit :=
  fun w =>
    if creatable path
    then (Ok tt, World (self w) (<[path := ""]> (files w)) (records w))
    else (Raise IOError, w).

(** [f.write(data)] on the file opened at [path]: the data written is its
    content once the file object is dropped at the end of the method. *)
Definition file_write (path data : string) : M unit :=
  fun w => (Ok tt, World (self w) (<[path := data]> (files w)) (records w)).

Definition get_configXMLString : M (option string) :=
  fun w => (Ok (configXMLString (self w)), w).

Definition set_configXMLString (s : string) : M unit :=
  fun w => (Ok tt, World (GsaConfig (Some s)) (files w) (records w)).

(** ** Class [gsaConfig] *)

Section gsaConfig.

Variable parseString : string -> option document.
Variable creatable : string -> bool.

(** [xml.dom.minidom.parseString(text)] *)
Definition parse (text : string) : result document :=
  match parseString text with
  | Some d => Ok d
  | None => Raise ExpatError
  end.

Definition openFile (fileName : string) : M unit :=
  do there <- os_path_exists fileName;
  (if there then ret tt
   else log_to ERROR "Input file does not exist" ;; sys_exit 1) ;;
  do contents <- file_read fileName;
  set_configXMLString contents.

(** [xmlString] is the text [toxml] returned; its UTF-8 encoding is
    stored. *)
Definition setXMLContents (xmlString : string) : M unit :=
  set_configXMLString xmlString.

(** [self.configXMLString.encode("utf-8")]: AttributeError when nothing
    was loaded, UnicodeDecodeError when the bytes loaded are not UTF-8. *)
Definition getXMLContents : M string :=
  do s <- get_configXMLString;
  do s <- lift (attr_of s);
  lift (encode_utf8 s).

(** The text the rewritten [uar_data] node carries. *)
Definition uar_data_text (uardataHash : string) : string :=
  nl ++ "/tmp/tmp_uar_data_dir," ++ uardataHash ++ nl ++ "          ".

Definition computeSignature (password : string) : M string :=
  do configXMLString <- getXMLContents;
  let configXMLString := re_sub "          <uam_dir>" "<uam_dir>" configXMLString in
  let configXMLString := re_sub ("</uam_dir>" ++ nl) "</uam_dir>" configXMLString in
  do doc <- lift (parse configXMLString);
  (* uamdirNode.parentNode.removeChild(uamdirNode) *)
  do uamdirNode <- lift (attr_of (item0 (getElementsByTagName "uam_dir" doc)));
  let doc := remove_first "uam_dir" doc in
  do uardataNode <- lift (attr_of (item0 (getElementsByTagName "uar_data" doc)));
  do child <- lift (attr_of (firstChild uardataNode));
  do value <- lift (attr_of (nodeValue child));
  let uardataB64contents := strip value ++ nl in
  do doc <-
    (if String.eqb uardataB64contents nl then ret doc
     else
       log_to DEBUG "UAR data contains data.  Must be 7.0 or newer" ;;
       let uardataHash := hmac_sha1_hex password uardataB64contents in
       let text := uar_data_text uardataHash in
       do shown <- lift (toxml (set_firstChild_value text uardataNode));
       log_to DEBUG ("uar_data is replaced to " ++ shown) ;;
       ret (assign_first "uar_data" (set_firstChild_value text) doc));
  do configNode <- lift (attr_of (item0 (getElementsByTagName "config" doc)));
  do configNodeXML <- lift (toxml configNode);
  ret (hmac_sha1_hex password configNodeXML).

Definition sign (password : string) : M unit :=
  do computedSignature <- computeSignature password;
  do configXMLString <- getXMLContents;
  do doc <- lift (parse configXMLString);
  do signatureNode <- lift (attr_of (item0 (getElementsByTagName "signature" doc)));
  do signatureCDATANode <- lift (attr_of (firstChild signatureNode));
  let doc :=
    assign_first "signature" (set_firstChild_value computedSignature) doc in
  do xml <- lift (doc_toxml doc);
  setXMLContents xml.

Definition writeFile (filename : string) : M unit :=
  do there <- os_path_exists filename;
  (if there then log_to ERROR "Output file exists" ;; sys_exit 1
   else ret tt) ;;
  do s <- get_configXMLString;
  do doc <- lift (match s with
                  | Some text => parse text
                  | None => Raise TypeError
                  end);
  file_create creatable filename ;;
  log_to DEBUG ("Writing XML to " ++ filename) ;;
  do xml <- lift (doc_toxml doc);
  file_write filename (replace_first "<eef>" (nl ++ "<eef>") xml).

(** Returns 1 ([true]) or [None] ([false]). *)
Definition verifySignature (password : string) : M bool :=
  do computedSignature <- computeSignature password;
  do configXMLString <- getXMLContents;
  do doc <- lift (parse configXMLString);
  do signatureNode <- lift (attr_of (item0 (getElementsByTagName "signature" doc)));
  do signatureCDATANode <- lift (attr_of (firstChild signatureNode));
  do signatureValue <- lift (attr_of (nodeValue signatureCDATANode));
  if (0 <? str_count signatureValue computedSignature)%nat then
    log_to DEBUG "Signature matches" ;;
    ret true
  else
    log_to DEBUG ("Signature does not match " ++ signatureValue ++ " vs "
                  ++ computedSignature) ;;
    ret false.

End gsaConfig.

(** A document held in memory, with no files and an empty log. *)
Definition loaded (text : string) : world :=
  World (GsaConfig (Some text)) ∅ [].

Definition raw (w : world) : option string := configXMLString (self w).

(** Unfolding a run of the monad. *)
Ltac run :=
  repeat progress
    (unfold bind, ret, lift, raise, sys_exit, log_to, getXMLContents,
       get_configXMLString, set_configXMLString, setXMLContents,
       os_path_exists, file_create, file_write, file_read in *;
     cbn [fst snd self files records configXMLString raw rbind attr_of] in *).

Ltac step := cbn [fst snd self files records configXMLString raw rbind attr_of].

(** ** What the methods compute

    [computeSignature] read without its log: the text is rewritten, parsed,
    [uam_dir] is detached, [uar_data] is replaced by its digest when it
    holds data, and the [config] element is serialised and signed. *)

Section canonical_view.

Variable parseString : string -> option document.

Definition rewrite_uam_dir (text : string) : string :=
  re_sub ("</uam_dir>" ++ nl) "</uam_dir>"
         (re_sub "          <uam_dir>" "<uam_dir>" text).

(** The tree whose [config] element is hashed. *)
Definition canonical_tree (password : string) (doc : document) : result document :=
  rbind (attr_of (item0 (getElementsByTagName "uam_dir" doc))) (fun _ =>
  let doc := remove_first "uam_dir" doc in
  rbind (attr_of (item0 (getElementsByTagName "uar_data" doc))) (fun uardataNode =>
  rbind (attr_of (firstChild uardataNode)) (fun child =>
  rbind (attr_of (nodeValue child)) (fun value =>
  if String.eqb (strip value ++ nl) nl then Ok doc
  else
    let text := uar_data_text (hmac_sha1_hex password (strip value ++ nl)) in
    rbind (toxml (set_firstChild_value text uardataNode)) (fun _ =>
    Ok (assign_first "uar_data" (set_firstChild_value text) doc)))))).

(** The bytes that are hashed: the serialised [config] element. *)
Definition config_xml (password : string) (doc : document) : result string :=
  rbind (canonical_tree password doc) (fun tree =>
  rbind (attr_of (item0 (getElementsByTagName "config" tree))) toxml).

Definition canonical_view (password text : string) : result string :=
  rbind (parse parseString (rewrite_uam_dir text)) (config_xml password).

Definition signature_of (password text : string) : result string :=
  rbind (canonical_view password text) (fun bytes =>
  Ok (hmac_sha1_hex password bytes)).

(** The node [sign] writes to and [verifySignature] reads: the first child
    of the first [signature] element. *)
Definition signature_child (doc : document) : result node :=
  rbind (attr_of (item0 (getElementsByTagName "signature" doc))) (fun n =>
  attr_of (firstChild n)).

Definition signed_tree (digest : string) (doc : document) : document :=
  assign_first "signature" (set_firstChild_value digest) doc.

Definition signed_text (password text : string) : result string :=
  rbind (signature_of password text) (fun digest =>
  rbind (parse parseString text) (fun doc =>
  rbind (signature_child doc) (fun _ =>
  doc_toxml (signed_tree digest doc)))).

Definition verified (password text : string) : result bool :=
  rbind (signature_of password text) (fun digest =>
  rbind (parse parseString text) (fun doc =>
  rbind (signature_child doc) (fun child =>
  rbind (attr_of (nodeValue child)) (fun value =>
  Ok (0 <? str_count value digest)%nat)))).

Lemma getXMLContents_run w :
  getXMLContents w = (rbind (attr_of (raw w)) encode_utf8, w).
Proof.
  destruct w as [[s] fs log]. unfold getXMLContents, bind, lift,
    get_configXMLString, raw. cbn [self configXMLString].
  destruct s as [text|]; [|done]. cbn [attr_of rbind].
  by destruct (encode_utf8 text).
Qed.

Lemma getXMLContents_fst w :
  fst (getXMLContents w) = rbind (attr_of (raw w)) encode_utf8.
Proof. by rewrite getXMLContents_run. Qed.

Lemma computeSignature_run password w :
  exists msgs,
    computeSignature parseString password w
    = (rbind (fst (getXMLContents w)) (signature_of password),
       World (self w) (files w) (msgs ++ records w)%list).
Proof.
  unfold computeSignature. unfold bind at 1. rewrite getXMLContents_run.
  cbn [fst]. destruct (rbind (attr_of (raw w)) encode_utf8) as [text|e];
    [|exists []; by destruct w].
  destruct w as [[s] fs log]. unfold signature_of,
    canonical_view, config_xml, canonical_tree. run.
  fold (rewrite_uam_dir text).
  destruct (parse parseString (rewrite_uam_dir text)) as [doc|e]; step;
    [|by exists []].
  destruct (item0 (getElementsByTagName "uam_dir" doc)); step; [|by exists []].
  destruct (item0 (getElementsByTagName "uar_data" _)) as [uar|]; step;
    [|by exists []].
  destruct (firstChild uar) as [child|]; step; [|by exists []].
  destruct (nodeValue child) as [value|]; step; [|by exists []].
  destruct (String.eqb (strip value ++ nl) nl); step.
  - destruct (item0 (getElementsByTagName "config" _)) as [cfg|]; step;
      [|by exists []].
    destruct (toxml cfg); step; by exists [].
  - destruct (toxml (set_firstChild_value _ uar)) as [shown|]; step.
    + destruct (item0 (getElementsByTagName "config" _)) as [cfg|]; step;
        [|by eexists [_; _]].
      destruct (toxml cfg); step; by eexists [_; _].
    + by eexists [_].
Qed.

Lemma sign_run password w :
  exists msgs,
    sign parseString password w
    = match rbind (fst (getXMLContents w)) (signed_text password) with
      | Ok xml =>
          (Ok tt, World (GsaConfig (Some xml)) (files w) (msgs ++ records w)%list)
      | Raise e =>
          (Raise e, World (self w) (files w) (msgs ++ records w)%list)
      end.
Proof.
  destruct (computeSignature_run password w) as [msgs Hc].
  exists msgs. unfold sign. unfold bind at 1. rewrite Hc.
  assert (fst (getXMLContents
                 (World (self w) (files w) (msgs ++ records w)%list))
          = fst (getXMLContents w)) as Hsame
    by (by rewrite !getXMLContents_run).
  destruct (fst (getXMLContents w)) as [text|e] eqn:Et; cbn [rbind]; [|done].
  unfold signed_text, signature_child.
  destruct (signature_of password text) as [digest|]; cbn [rbind]; [|done].
  unfold bind at 1. rewrite getXMLContents_run in *. cbn [fst] in Hsame.
  rewrite Hsame. cbn [raw self] . run.
  destruct (parse parseString text) as [doc|]; step; [|done].
  destruct (item0 (getElementsByTagName "signature" doc)) as [n|]; step; [|done].
  destruct (firstChild n); step; [|done].
  fold (signed_tree digest doc).
  by destruct (doc_toxml (signed_tree digest doc)).
Qed.

Lemma verifySignature_run password w :
  exists msgs,
    verifySignature parseString password w
    = (rbind (fst (getXMLContents w)) (verified password),
       World (self w) (files w) (msgs ++ records w)%list).
Proof.
  destruct (computeSignature_run password w) as [msgs Hc].
  unfold verifySignature. unfold bind at 1. rewrite Hc.
  assert (fst (getXMLContents
                 (World (self w) (files w) (msgs ++ records w)%list))
          = fst (getXMLContents w)) as Hsame
    by (by rewrite !getXMLContents_run).
  destruct (fst (getXMLContents w)) as [text|e] eqn:Et; cbn [rbind];
    [|by exists msgs].
  unfold verified, signature_child.
  destruct (signature_of password text) as [digest|]; cbn [rbind];
    [|by exists msgs].
  unfold bind at 1. rewrite getXMLContents_run in *. cbn [fst] in Hsame.
  rewrite Hsame. run.
  destruct (parse parseString text) as [doc|]; step; [|by exists msgs].
  destruct (item0 (getElementsByTagName "signature" doc)) as [n|]; step;
    [|by exists msgs].
  destruct (firstChild n) as [child|]; step; [|by exists msgs].
  destruct (nodeValue child) as [value|]; step; [|by exists msgs].
  destruct (0 <? str_count value digest)%nat; step;
    by eexists (_ :: msgs).
Qed.

End canonical_view.

(** ** Lemmas on trees *)

Lemma elements_in_Element name t a cs :
  elements_in name (Element t a cs)
  = ((if String.eqb t name then [Element t a cs] else [])
     ++ getElementsByTagName name cs)%list.
Proof.
  cbn [elements_in is_tag]. f_equal.
  induction cs as [|c cs IH]; [done|]. cbn [getElementsByTagName].
  by rewrite IH.
Qed.

Lemma elements_in_leaf name n :
  children n = [] -> is_tag name n = false -> elements_in name n = [].
Proof. destruct n; cbn; try done. intros -> ->. done. Qed.

Lemma update_in_Element name f t a cs :
  update_in name f (Element t a cs)
  = if String.eqb t name then Some (f (Element t a cs))
    else (fun cs' => Some (Element t a cs')) <$> update_first name f cs.
Proof.
  cbn [update_in is_tag]. destruct (String.eqb t name); [done|].
  assert ((fix go (l : list node) : option (list node) :=
             match l with
             | [] => None
             | c :: l' =>
                 match update_in name f c with
                 | Some (Some c') => Some (c' :: l')
                 | Some None => Some l'
                 | None => cons c <$> go l'
                 end
             end) cs = update_first name f cs) as ->.
  { induction cs as [|c cs IH]; [done|]. cbn [update_first].
    by rewrite IH. }
  by destruct (update_first name f cs).
Qed.

Lemma update_in_leaf name f n :
  is_tag name n = false -> children n = [] -> update_in name f n = None.
Proof. destruct n; cbn; try done. intros -> ->. done. Qed.

Lemma is_tag_Element name n :
  is_tag name n = true -> exists t a cs, n = Element t a cs /\ String.eqb t name = true.
Proof. destruct n; cbn; try done. eauto. Qed.

(** An update finds a node exactly when [getElementsByTagName] does. *)
Lemma update_in_None name f n :
  update_in name f n = None <-> elements_in name n = [].
Proof.
  induction n as [t a cs IH| | | |] using node_forall_ind; try done.
  rewrite update_in_Element, elements_in_Element.
  destruct (String.eqb t name); [done|]. cbn [app].
  induction IH as [|c cs Hc _ IHcs]; [done|].
  cbn [update_first getElementsByTagName].
  destruct (update_in name f c) as [[c'|]|] eqn:E.
  - split; [done|]. intros [H _]%app_eq_nil. apply Hc in H. congruence.
  - split; [done|]. intros [H _]%app_eq_nil. apply Hc in H. congruence.
  - destruct Hc as [Hc _]. rewrite (Hc eq_refl). cbn [app].
    destruct (update_first name f cs); cbn in *; [|tauto].
    split; [done|]. intros H. apply IHcs in H. done.
Qed.

Lemma update_first_None name f ns :
  update_first name f ns = None <-> getElementsByTagName name ns = [].
Proof.
  induction ns as [|c ns IH]; [done|].
  cbn [update_first getElementsByTagName].
  pose proof (update_in_None name f c) as Hc.
  destruct (update_in name f c) as [[c'|]|] eqn:E.
  - split; [done|]. intros [H _]%app_eq_nil. apply Hc in H. done.
  - split; [done|]. intros [H _]%app_eq_nil. apply Hc in H. done.
  - destruct Hc as [Hc _]. rewrite (Hc eq_refl). cbn [app].
    destruct (update_first name f ns); cbn; [|tauto].
    split; [done|]. intros H. apply IH in H. done.
Qed.

Lemma head_app {A} (l1 l2 : list A) :
  List.head (l1 ++ l2) = match List.head l1 with
                         | Some x => Some x
                         | None => List.head l2
                         end.
Proof. by destruct l1. Qed.

(** What [update_in] and [update_first] leave, as lists of nodes. *)
Definition kept (r : option node) : list node :=
  match r with
  | Some n => [n]
  | None => []
  end.

(** After an assignment to the first element called [name], that element
    is still the first one called [name]. *)
Lemma item0_update_in name g n r :
  (forall m, is_tag name m = true -> is_tag name (g m) = true) ->
  update_in name (fun m => Some (g m)) n = Some r ->
  exists n', r = Some n'
    /\ List.head (elements_in name n') = g <$> List.head (elements_in name n).
Proof.
  intros Hg. revert r.
  induction n as [t a cs IH| | | |] using node_forall_ind; try done.
  intros r. rewrite update_in_Element, elements_in_Element.
  destruct (String.eqb t name) eqn:Et.
  - intros [= <-]. eexists; split; [done|]. cbn [app List.head fmap option_fmap option_map].
    specialize (Hg (Element t a cs)). cbn [is_tag] in Hg.
    specialize (Hg Et). destruct (is_tag_Element _ _ Hg) as (t' & a' & cs' & -> & Et').
    rewrite elements_in_Element, Et'. done.
  - cbn [app]. destruct (update_first name _ cs) as [cs'|] eqn:E; [|done].
    intros [= <-]. eexists; split; [done|].
    rewrite elements_in_Element, Et. cbn [app].
    revert cs' E. induction IH as [|c cs Hc _ IHcs]; [done|].
    intros cs'. cbn [update_first getElementsByTagName].
    destruct (update_in name _ c) as [r|] eqn:Ec.
    + destruct (Hc r eq_refl) as (c' & -> & Hh). intros [= <-].
      cbn [getElementsByTagName]. rewrite !head_app, Hh.
      destruct (List.head (elements_in name c)) eqn:Eh; [done|].
      assert (elements_in name c = []) as Hnil by (by destruct (elements_in name c)).
      apply (update_in_None name (fun m => Some (g m))) in Hnil. congruence.
    + apply update_in_None in Ec. rewrite Ec. cbn [app].
      destruct (update_first name _ cs) as [cs1|]; [|done].
      intros [= <-]. cbn [getElementsByTagName]. rewrite Ec. cbn [app].
      by apply IHcs.
Qed.

Lemma item0_assign_first name g ns :
  (forall m, is_tag name m = true -> is_tag name (g m) = true) ->
  item0 (getElementsByTagName name (assign_first name g ns))
  = g <$> item0 (getElementsByTagName name ns).
Proof.
  intros Hg. unfold assign_first, item0.
  induction ns as [|c ns IH]; [done|].
  cbn [update_first getElementsByTagName].
  destruct (update_in name _ c) as [r|] eqn:Ec.
  - destruct (item0_update_in _ _ _ _ Hg Ec) as (c' & -> & Hh).
    cbn [default from_option id getElementsByTagName]. rewrite !head_app, Hh.
    destruct (List.head (elements_in name c)) eqn:Eh; [done|].
    assert (elements_in name c = []) as Hnil by (by destruct (elements_in name c)).
    apply (update_in_None name (fun m => Some (g m))) in Hnil. congruence.
  - apply update_in_None in Ec. rewrite Ec. cbn [app].
    destruct (update_first name _ ns) as [ns1|]; cbn [default from_option id fmap option_fmap option_map] in *.
    + cbn [getElementsByTagName]. by rewrite Ec.
    + cbn [getElementsByTagName]. by rewrite Ec.
Qed.

(** The elements of every name left by an update, counted. *)
Lemma length_update_in name f x n r :
  (forall m m', f m = Some m' ->
     List.length (elements_in x m') <= List.length (elements_in x m))%nat ->
  update_in name f n = Some r ->
  (List.length (List.flat_map (elements_in x) (kept r))
   <= List.length (elements_in x n))%nat.
Proof.
  intros Hf. revert r.
  induction n as [t a cs IH| | | |] using node_forall_ind; try done.
  intros r. rewrite update_in_Element.
  destruct (String.eqb t name) eqn:Et.
  - intros [= <-]. destruct (f (Element t a cs)) as [m'|] eqn:E; cbn [kept List.flat_map].
    + rewrite app_nil_r. eauto.
    + cbn. lia.
  - destruct (update_first name f cs) as [cs'|] eqn:E; [|done].
    intros [= <-]. cbn [kept List.flat_map]. rewrite app_nil_r.
    rewrite !elements_in_Element. rewrite !length_app.
    apply Nat.add_le_mono; [by destruct (String.eqb t x)|].
    revert cs' E. induction IH as [|c cs Hc _ IHcs]; [done|].
    intros cs'. cbn [update_first getElementsByTagName].
    destruct (update_in name f c) as [r|] eqn:Ec.
    + specialize (Hc r eq_refl). destruct r as [c'|]; intros [= <-];
        cbn [kept List.flat_map getElementsByTagName] in *;
        rewrite ?app_nil_r, ?length_app in *; cbn [List.length] in *; lia.
    + destruct (update_first name f cs) as [cs1|]; [|done].
      intros [= <-]. cbn [getElementsByTagName]. rewrite !length_app.
      specialize (IHcs cs1 eq_refl). lia.
Qed.

Lemma length_update_first name f x ns ns' :
  (forall m m', f m = Some m' ->
     List.length (elements_in x m') <= List.length (elements_in x m))%nat ->
  update_first name f ns = Some ns' ->
  (List.length (getElementsByTagName x ns')
   <= List.length (getElementsByTagName x ns))%nat.
Proof.
  intros Hf. revert ns'. induction ns as [|c ns IH]; [done|].
  intros ns'. cbn [update_first getElementsByTagName].
  destruct (update_in name f c) as [r|] eqn:Ec.
  - pose proof (length_update_in _ _ x _ _ Hf Ec) as Hc.
    destruct r as [c'|]; intros [= <-];
      cbn [kept List.flat_map getElementsByTagName] in *;
      rewrite ?app_nil_r, ?length_app in *; cbn [List.length] in *; lia.
  - destruct (update_first name f ns) as [ns1|]; [|done].
    intros [= <-]. cbn [getElementsByTagName]. rewrite !length_app.
    specialize (IH ns1 eq_refl). lia.
Qed.

(** Removing the first element called [name] leaves no more elements of
    any name, and fewer called [name]. *)
Lemma length_remove_first name x ns :
  (List.length (getElementsByTagName x (remove_first name ns))
   <= List.length (getElementsByTagName x ns))%nat.
Proof.
  unfold remove_first.
  destruct (update_first name _ ns) as [ns'|] eqn:E; cbn [default from_option id]; [|done].
  by eapply length_update_first; [|exact E].
Qed.

Lemma remove_in_lt name n r :
  update_in name (fun _ => None) n = Some r ->
  (List.length (List.flat_map (elements_in name) (kept r))
   < List.length (elements_in name n))%nat.
Proof.
  revert r.
  induction n as [t a cs IH| | | |] using node_forall_ind; try done.
  intros r. rewrite update_in_Element, elements_in_Element.
  destruct (String.eqb t name) eqn:Et.
  - intros [= <-]. cbn. lia.
  - destruct (update_first name _ cs) as [cs'|] eqn:E; [|done].
    intros [= <-]. cbn [kept List.flat_map app]. rewrite app_nil_r.
    rewrite elements_in_Element, Et. cbn [app].
    revert cs' E. induction IH as [|c cs Hc _ IHcs]; [done|].
    intros cs'. cbn [update_first getElementsByTagName].
    destruct (update_in name _ c) as [r|] eqn:Ec.
    + specialize (Hc r eq_refl). destruct r as [c'|]; intros [= <-];
        cbn [kept List.flat_map getElementsByTagName] in *;
        rewrite ?app_nil_r, ?length_app in *; cbn [List.length] in *; lia.
    + destruct (update_first name _ cs) as [cs1|]; [|done].
      intros [= <-]. cbn [getElementsByTagName]. rewrite !length_app.
      specialize (IHcs cs1 eq_refl). lia.
Qed.

Lemma remove_first_lt name ns :
  getElementsByTagName name ns <> [] ->
  (List.length (getElementsByTagName name (remove_first name ns))
   < List.length (getElementsByTagName name ns))%nat.
Proof.
  intros Hne. unfold remove_first.
  destruct (update_first name _ ns) as [ns'|] eqn:E; cbn [default from_option id].
  - clear Hne. revert ns' E. induction ns as [|c ns IH]; [done|].
    intros ns'. cbn [update_first getElementsByTagName].
    destruct (update_in name _ c) as [r|] eqn:Ec.
    + pose proof (remove_in_lt _ _ _ Ec) as Hc.
      destruct r as [c'|]; intros [= <-];
        cbn [kept List.flat_map getElementsByTagName] in *;
        rewrite ?app_nil_r, ?length_app in *; cbn [List.length] in *; lia.
    + destruct (update_first name _ ns) as [ns1|]; [|done].
      intros [= <-]. cbn [getElementsByTagName]. rewrite !length_app.
      specialize (IH ns1 eq_refl). lia.
  - apply update_first_None in E. done.
Qed.

(** An assignment to [firstChild.nodeValue] changes no element. *)
Lemma elements_in_set_nodeValue x v c :
  elements_in x (set_nodeValue v c) = elements_in x c.
Proof. by destruct c. Qed.

Lemma length_elements_in_set_firstChild_value x v m :
  List.length (elements_in x (set_firstChild_value v m))
  = List.length (elements_in x m).
Proof.
  destruct m as [t a [|c cs]| | | |]; try done.
  cbn [set_firstChild_value]. rewrite !elements_in_Element.
  cbn [getElementsByTagName]. rewrite elements_in_set_nodeValue.
  rewrite !length_app. by destruct (String.eqb t x).
Qed.

Lemma is_tag_set_firstChild_value name v m :
  is_tag name (set_firstChild_value v m) = is_tag name m.
Proof. by destruct m as [t a [|c cs]| | | |]. Qed.

Lemma length_assign_first name x v ns :
  (List.length (getElementsByTagName x
                  (assign_first name (set_firstChild_value v) ns))
   <= List.length (getElementsByTagName x ns))%nat.
Proof.
  unfold assign_first.
  destruct (update_first name _ ns) as [ns'|] eqn:E;
    cbn [default from_option id]; [|done].
  eapply length_update_first; [|exact E].
  intros m m' [= <-]. by rewrite length_elements_in_set_firstChild_value.
Qed.

(** The elements below an element of the tree are elements of the tree. *)
Lemma elements_in_below x y n m :
  m ∈ elements_in y n ->
  (List.length (elements_in x m) <= List.length (elements_in x n))%nat.
Proof.
  induction n as [t a cs IH| | | |] using node_forall_ind;
    try (by intros ?%elem_of_nil).
  rewrite (elements_in_Element y). intros [Hm|Hm]%elem_of_app.
  - destruct (String.eqb t y); [|by apply elem_of_nil in Hm].
    apply list_elem_of_singleton in Hm as ->. done.
  - rewrite (elements_in_Element x), length_app.
    etrans; [|apply Nat.le_add_l].
    induction IH as [|c cs Hc _ IHcs]; [by apply elem_of_nil in Hm|].
    cbn [getElementsByTagName] in *. rewrite length_app.
    apply elem_of_app in Hm as [Hm|Hm].
    + specialize (Hc Hm). lia.
    + specialize (IHcs Hm). lia.
Qed.

Lemma elements_below x y ns m :
  m ∈ getElementsByTagName y ns ->
  (List.length (elements_in x m)
   <= List.length (getElementsByTagName x ns))%nat.
Proof.
  induction ns as [|c ns IH]; [by intros ?%elem_of_nil|].
  cbn [getElementsByTagName]. rewrite length_app.
  intros [Hm|Hm]%elem_of_app.
  - pose proof (elements_in_below x y c m Hm). lia.
  - specialize (IH Hm). lia.
Qed.

Lemma item0_elem (l : list node) m : item0 l = Some m -> m ∈ l.
Proof. destruct l; [done|]. intros [= ->]. apply elem_of_cons. by left. Qed.

(** ** The claims about the state of the object and the files *)

Section effects.

Variable parseString : string -> option document.

(** C7.  Determinism of [computeSignature]: the digest depends on the raw
    content, as [encode("utf-8")] returns it, and the password only.  Whatever the files and the log are, the
    same content gives the same result; a second call on the state the
    first one leaves gives the same result again; and a digest returned is
    the HMAC-SHA1 of the canonical bytes under the password. *)
Theorem computeSignature_deterministic password w fs log :
  fst (computeSignature parseString password (World (self w) fs log))
  = fst (computeSignature parseString password w)
  /\ fst (computeSignature parseString password
            (snd (computeSignature parseString password w)))
     = fst (computeSignature parseString password w)
  /\ fst (computeSignature parseString password w)
     = rbind (rbind (attr_of (raw w)) encode_utf8) (fun text =>
       rbind (canonical_view parseString password text) (fun bytes =>
       Ok (hmac_sha1_hex password bytes))).
Proof.
  destruct (computeSignature_run parseString password w) as [m1 H1].
  destruct (computeSignature_run parseString password (World (self w) fs log))
    as [m2 H2].
  destruct (computeSignature_run parseString password
              (snd (computeSignature parseString password w))) as [m3 H3].
  rewrite H2, H3, H1, !getXMLContents_fst. cbn [fst snd raw self]. done.
Qed.

(** C9.  [computeSignature] leaves the object as it found it: the raw
    content, hence the tree parsed from it, and the files are the same
    after the call.  The raw content changes in [sign], and only when
    [sign] succeeds: it is then the text [sign] serialised. *)
Theorem computeSignature_frame password w :
  raw (snd (computeSignature parseString password w)) = raw w
  /\ parse parseString <$> raw (snd (computeSignature parseString password w))
     = parse parseString <$> raw w
  /\ files (snd (computeSignature parseString password w)) = files w
  /\ raw (snd (sign parseString password w))
     = match rbind (rbind (attr_of (raw w)) encode_utf8)
               (signed_text parseString password) with
       | Ok xml => Some xml
       | Raise _ => raw w
       end.
Proof.
  destruct (computeSignature_run parseString password w) as [m1 H1].
  destruct (sign_run parseString password w) as [m2 H2].
  rewrite H1, H2, getXMLContents_fst. cbn [fst snd raw self files].
  repeat split.
  destruct (rbind (rbind (attr_of (raw w)) encode_utf8)
              (signed_text parseString password));
    cbn [fst snd raw self configXMLString]; done.
Qed.

(** C8.  [writeFile] on a path that exists: the method logs the error and
    leaves through [sys.exit(1)] (the AlreadyExistsError of the
    specification); nothing is written, and every file, the one at
    [filename] among them, keeps its content. *)
Theorem writeFile_existing creatable filename contents w :
  files w !! filename = Some contents ->
  exists w',
    writeFile parseString creatable filename w = (Raise (SystemExit 1), w')
    /\ files w' = files w
    /\ files w' !! filename = Some contents
    /\ self w' = self w.
Proof.
  intros Hf. unfold writeFile. run. rewrite Hf.
  rewrite bool_decide_eq_true_2 by eauto.
  eexists. split; [reflexivity|]. cbn [files self]. done.
Qed.

(** C10.  [computeSignature] reads [uardataNode.firstChild.nodeValue]: when
    the [uar_data] element of the text that [getXMLContents] returns has
    no child node, [firstChild] is [None] and
    the call, and with it [sign] and [verifySignature], raises
    AttributeError. *)
Theorem computeSignature_childless_uar_data password w text doc uar :
  fst (getXMLContents w) = Ok text ->
  parseString (rewrite_uam_dir text) = Some doc ->
  getElementsByTagName "uam_dir" doc <> [] ->
  item0 (getElementsByTagName "uar_data" (remove_first "uam_dir" doc)) = Some uar ->
  children uar = [] ->
  fst (computeSignature parseString password w) = Raise AttributeError
  /\ fst (sign parseString password w) = Raise AttributeError
  /\ fst (verifySignature parseString password w) = Raise AttributeError.
Proof.
  intros Hraw Hp Huam Huar Hch.
  destruct (computeSignature_run parseString password w) as [m1 H1].
  destruct (sign_run parseString password w) as [m2 H2].
  destruct (verifySignature_run parseString password w) as [m3 H3].
  rewrite H1, H2, H3, Hraw. cbn [rbind fst].
  assert (signature_of parseString password text = Raise AttributeError) as Hs.
  { unfold signature_of, canonical_view, config_xml, canonical_tree, parse.
    rewrite Hp. cbn [rbind].
    destruct (item0 (getElementsByTagName "uam_dir" doc)) eqn:E;
      [|by destruct (getElementsByTagName "uam_dir" doc)].
    cbn [attr_of rbind]. rewrite Huar.
    cbn [attr_of rbind]. unfold firstChild. rewrite Hch. done. }
  unfold signed_text, verified. rewrite Hs. done.
Qed.

End effects.

(** ** The digest is forty lower-case hexadecimal digits *)

Definition is_hex (c : ascii) : bool :=
  let n := byte_of_ascii c in
  (((48 <=? n) && (n <=? 57)) || ((97 <=? n) && (n <=? 102)))%Z.

Fixpoint all_chars (p : ascii -> bool) (s : string) : bool :=
  match s with
  | EmptyString => true
  | String c s' => p c && all_chars p s'
  end.

Lemma hex_digit_is_hex n : (0 <= n < 16)%Z -> is_hex (hex_digit n) = true.
Proof.
  intros Hn.
  assert (List.forallb (fun k => is_hex (hex_digit (Z.of_nat k))) (List.seq 0 16)
          = true) as H by (vm_compute; reflexivity).
  rewrite List.forallb_forall in H.
  specialize (H (Z.to_nat n)). rewrite Z2Nat.id in H by lia.
  apply H, List.in_seq. lia.
Qed.

Lemma hex_of_bytes_spec l :
  String.length (hex_of_bytes l) = (2 * List.length l)%nat
  /\ all_chars is_hex (hex_of_bytes l) = true.
Proof.
  induction l as [|b l [IH1 IH2]]; [done|].
  cbn [hex_of_bytes String.length all_chars List.length]. split; [lia|].
  rewrite !hex_digit_is_hex, IH2; [done| |]; apply Z.mod_pos_bound; lia.
Qed.

Lemma length_sha1_digest msg : List.length (SHA1.digest msg) = 20%nat.
Proof. unfold SHA1.digest. by generalize (SHA1.hash msg). Qed.

Lemma hmac_sha1_hex_spec key msg :
  String.length (hmac_sha1_hex key msg) = 40%nat
  /\ all_chars is_hex (hmac_sha1_hex key msg) = true.
Proof.
  unfold hmac_sha1_hex, hmac_digest.
  destruct (hex_of_bytes_spec
              (SHA1.digest
                 (List.map (Z.lxor 92) (hmac_key (bytes_of_string key))
                  ++ SHA1.digest
                       (List.map (Z.lxor 54) (hmac_key (bytes_of_string key))
                        ++ bytes_of_string msg)))%list) as [H1 H2].
  rewrite length_sha1_digest in H1. done.
Qed.

(** ** Occurrences *)

Lemma append_String c s t : String c s ++ t = String c (s ++ t).
Proof. reflexivity. Qed.

Lemma append_empty t : "" ++ t = t.
Proof. reflexivity. Qed.

Lemma prefix_app pat s : prefix pat s = true <-> exists b, s = pat ++ b.
Proof.
  revert s. induction pat as [|c pat IH]; intros s.
  - split; [|by destruct s]. intros _. by exists s.
  - destruct s as [|d s]; cbn [prefix].
    + split; [done|]. by intros [b ?].
    + destruct (ascii_dec c d) as [->|Hne].
      * rewrite IH. split; intros [b Hb]; exists b; rewrite append_String in *;
          congruence.
      * split; [done|]. intros [b Hb]. rewrite append_String in Hb. congruence.
Qed.

Lemma count_from_pos pat skip s :
  (0 < count_from pat skip s)%nat -> exists a b, s = a ++ pat ++ b.
Proof.
  revert skip. induction s as [|c s IH]; intros skip.
  - destruct skip; cbn [count_from]; [|lia].
    destruct (prefix pat "") eqn:E; [|lia]. intros _.
    apply prefix_app in E as [b Hb]. by exists "", b.
  - cbn [count_from]. destruct skip as [|k].
    + destruct (prefix pat (String c s)) eqn:E.
      * intros _. apply prefix_app in E as [b Hb]. by exists "", b.
      * intros (a & b & ->)%IH. by exists (String c a), b.
    + intros (a & b & ->)%IH. by exists (String c a), b.
Qed.

Lemma count_pos_of_app pat a b : (0 < str_count (a ++ pat ++ b) pat)%nat.
Proof.
  unfold str_count. induction a as [|c a IH].
  - rewrite append_empty. assert (prefix pat (pat ++ b) = true) as E
      by (apply prefix_app; eauto).
    destruct (pat ++ b) as [|d s] eqn:Es; cbn [count_from]; rewrite E; lia.
  - rewrite append_String. cbn [count_from].
    destruct (prefix pat _); [lia|done].
Qed.

(** [value.count(digest)] is not zero exactly when [digest] is a substring
    of [value]. *)
Lemma occurs_substring pat s :
  (0 <? str_count s pat)%nat = true <-> exists a b, s = a ++ pat ++ b.
Proof.
  rewrite Nat.ltb_lt. split.
  - apply count_from_pos.
  - intros (a & b & ->). apply count_pos_of_app.
Qed.

Lemma eqb_append_nl s : String.eqb (s ++ nl) nl = true <-> s = "".
Proof.
  destruct s as [|c s]; [done|]. split; [|done].
  rewrite append_String. unfold nl. cbn [String.eqb].
  destruct (Ascii.eqb c "010"); [|done]. destruct s; [done|].
  by rewrite append_String.
Qed.

(** The text content of a node in the sense of the DOM: the data of the
    text and CDATA nodes below it, in document order. *)
Fixpoint textContent (n : node) : string :=
  match n with
  | Element _ _ cs =>
      (fix go (l : list node) : string :=
         match l with
         | [] => ""
         | c :: l' => textContent c ++ go l'
         end) cs
  | Text d | CDATASection d => d
  | Comment _ | ProcessingInstruction _ _ => ""
  end.

(** ** [encode("utf-8")] on ASCII

    On a text in ASCII, [encode("utf-8")] returns the bytes it was
    given. *)

Lemma string_of_bytes_of_string s : string_of_bytes (bytes_of_string s) = s.
Proof.
  induction s as [|c s IH]; [done|].
  cbn [bytes_of_string string_of_bytes]. rewrite IH. f_equal.
  unfold ascii_of_byte, byte_of_ascii.
  assert (N_of_ascii c < 256)%N as Hc by apply N_ascii_bounded.
  rewrite Z.mod_small by lia. by rewrite N2Z.id, ascii_N_embedding.
Qed.

Lemma utf8_decode_ascii l :
  Forall (fun b => b < 128) l -> utf8_decode l = Some l.
Proof.
  induction 1 as [|b l Hb _ IH]; [done|].
  cbn [utf8_decode]. apply Z.ltb_lt in Hb. rewrite Hb. by rewrite IH.
Qed.

Lemma utf8_encode_ascii l :
  Forall (fun b => b < 128) l -> utf8_encode l = l.
Proof.
  induction 1 as [|b l Hb Hl IH]; [done|].
  cbn [utf8_encode]. destruct l as [|b2 l'].
  - unfold utf8_bytes. apply Z.ltb_lt in Hb. by rewrite Hb.
  - assert ((55296 <=? b)%Z = false) as -> by (apply Z.leb_gt; lia).
    cbn [andb]. rewrite IH. unfold utf8_bytes.
    apply Z.ltb_lt in Hb. by rewrite Hb.
Qed.

Lemma encode_utf8_ascii s :
  all_chars (fun c => (byte_of_ascii c <? 128)%Z) s = true ->
  encode_utf8 s = Ok s.
Proof.
  intros Hs.
  assert (Forall (fun b => b < 128) (bytes_of_string s)) as Hb.
  { induction s as [|c s IH]; [constructor|]. cbn [all_chars] in Hs.
    apply andb_prop in Hs as [Hc Hs]. cbn [bytes_of_string].
    constructor; [by apply Z.ltb_lt|by apply IH]. }
  unfold encode_utf8. rewrite (utf8_decode_ascii _ Hb).
  by rewrite (utf8_encode_ascii _ Hb), string_of_bytes_of_string.
Qed.

(** ** The canonical view and the signature check *)

Section view.

Variable parseString : string -> option document.

(** C3, as amended.  What [computeSignature] reads of [uar_data], in the
    text that [getXMLContents] returns, is the node value of the element's
    first child.  When that value is blank
    after [strip], the tree that is hashed is the parsed tree without
    [uam_dir], and [uar_data] is as it was.  Otherwise the value of that
    first child becomes a newline, [/tmp/tmp_uar_data_dir,], the digest, a
    newline and ten spaces, the digest being the forty hexadecimal digits
    of the HMAC-SHA1, under the same password, of the stripped value
    followed by one newline; the other children stay.  The signature is
    the HMAC-SHA1 of the serialised [config] element of that tree. *)
Theorem canonical_uar_data password w text doc uar child value tree :
  fst (getXMLContents w) = Ok text ->
  parseString (rewrite_uam_dir text) = Some doc ->
  item0 (getElementsByTagName "uar_data" (remove_first "uam_dir" doc)) = Some uar ->
  firstChild uar = Some child ->
  nodeValue child = Some value ->
  canonical_tree password doc = Ok tree ->
  (strip value = "" ->
     tree = remove_first "uam_dir" doc
     /\ item0 (getElementsByTagName "uar_data" tree) = Some uar)
  /\ (strip value <> "" ->
      exists uar',
        item0 (getElementsByTagName "uar_data" tree) = Some uar'
        /\ firstChild uar' ≫= nodeValue
           = Some (nl ++ "/tmp/tmp_uar_data_dir,"
                   ++ hmac_sha1_hex password (strip value ++ nl)
                   ++ nl ++ "          ")
        /\ List.tail (children uar') = List.tail (children uar)
        /\ String.length (hmac_sha1_hex password (strip value ++ nl)) = 40%nat
        /\ all_chars is_hex (hmac_sha1_hex password (strip value ++ nl)) = true)
  /\ fst (computeSignature parseString password w)
     = rbind (attr_of (item0 (getElementsByTagName "config" tree))) (fun cfg =>
       rbind (toxml cfg) (fun bytes => Ok (hmac_sha1_hex password bytes))).
Proof.
  intros Hraw Hp Huar Hch Hval Htree.
  assert (Hsig : fst (computeSignature parseString password w)
                 = rbind (attr_of (item0 (getElementsByTagName "config" tree)))
                     (fun cfg => rbind (toxml cfg) (fun bytes =>
                        Ok (hmac_sha1_hex password bytes)))).
  { destruct (computeSignature_run parseString password w) as [m H].
    rewrite H, Hraw. cbn [fst attr_of rbind].
    unfold signature_of, canonical_view, config_xml, parse.
    rewrite Hp. cbn [rbind]. rewrite Htree. cbn [rbind].
    by destruct (item0 (getElementsByTagName "config" tree)) as [cfg|];
      cbn [attr_of rbind]; [destruct (toxml cfg)|]. }
  unfold canonical_tree in Htree.
  destruct (item0 (getElementsByTagName "uam_dir" doc)); [|done].
  cbn [attr_of rbind] in Htree. rewrite Huar in Htree.
  cbn [attr_of rbind] in Htree. rewrite Hch in Htree.
  cbn [attr_of rbind] in Htree. rewrite Hval in Htree.
  cbn [attr_of rbind] in Htree.
  destruct (String.eqb (strip value ++ nl) nl) eqn:E.
  - apply eqb_append_nl in E. injection Htree as <-.
    split; [done|]. split; [done|]. done.
  - assert (strip value <> "") as Hne.
    { intros H. apply eqb_append_nl in H. congruence. }
    destruct (toxml (set_firstChild_value _ uar)); [|done].
    cbn [rbind] in Htree. injection Htree as <-.
    split; [done|]. split; [|done]. intros _.
    exists (set_firstChild_value
              (uar_data_text (hmac_sha1_hex password (strip value ++ nl))) uar).
    rewrite item0_assign_first
      by (intros m; by rewrite is_tag_set_firstChild_value).
    rewrite Huar. split; [done|].
    destruct (hmac_sha1_hex_spec password (strip value ++ nl)) as [Hl Hh].
    destruct uar as [tg ats [|c cs]| | | |]; try done.
    cbn in Hch. injection Hch as ->.
    split; [by destruct child|]. done.
Qed.

(** C2, as amended.  [verifySignature] returns true exactly when the
    digest [computeSignature] returns is a substring of the node value of
    the first child of the [signature] element, in the text that
    [getXMLContents] returns; when it is not a
    substring, the call returns false and raises nothing. *)
Theorem verifySignature_first_child password w :
  (fst (verifySignature parseString password w) = Ok true <->
   exists text digest doc child value,
     fst (getXMLContents w) = Ok text
     /\ fst (computeSignature parseString password w) = Ok digest
     /\ parseString text = Some doc
     /\ signature_child doc = Ok child
     /\ nodeValue child = Some value
     /\ exists a b, value = a ++ digest ++ b)
  /\ (forall text digest doc child value,
        fst (getXMLContents w) = Ok text ->
        fst (computeSignature parseString password w) = Ok digest ->
        parseString text = Some doc ->
        signature_child doc = Ok child ->
        nodeValue child = Some value ->
        ~ (exists a b, value = a ++ digest ++ b) ->
        fst (verifySignature parseString password w) = Ok false).
Proof.
  destruct (computeSignature_run parseString password w) as [m1 H1].
  destruct (verifySignature_run parseString password w) as [m2 H2].
  rewrite H1, H2. cbn [fst]. unfold verified, parse. split; [split|].
  - destruct (fst (getXMLContents w)) as [text|]; cbn [rbind]; [|done].
    destruct (signature_of parseString password text) as [digest|] eqn:Ed;
      cbn [rbind]; [|done].
    destruct (parseString text) as [doc|] eqn:Ep; cbn [rbind]; [|done].
    destruct (signature_child doc) as [child|] eqn:Ec; cbn [rbind]; [|done].
    destruct (nodeValue child) as [value|] eqn:Ev; cbn [attr_of rbind]; [|done].
    intros [= H%occurs_substring].
    exists text, digest, doc, child, value. cbn [attr_of rbind]. done.
  - intros (text & digest & doc & child & value & Ht & Hd & Hp & Hc & Hv & Hs).
    rewrite Ht in *.
    cbn [attr_of rbind] in *. rewrite Hd. cbn [rbind]. rewrite Hp.
    cbn [rbind]. rewrite Hc. cbn [rbind]. rewrite Hv. cbn [attr_of rbind].
    apply occurs_substring in Hs. by rewrite Hs.
  - intros text digest doc child value Ht Hd Hp Hc Hv Hs. rewrite Ht in *.
    cbn [attr_of rbind] in *. rewrite Hd. cbn [rbind]. rewrite Hp.
    cbn [rbind]. rewrite Hc. cbn [rbind]. rewrite Hv. cbn [attr_of rbind].
    f_equal. apply not_true_is_false. by rewrite occurs_substring.
Qed.

End view.

(** An assignment to a first child keeps the elements of every name. *)
Lemma length_assign_in name x g n r :
  (forall m, List.length (elements_in x (g m)) = List.length (elements_in x m)) ->
  update_in name (fun m => Some (g m)) n = Some r ->
  List.length (List.flat_map (elements_in x) (kept r))
  = List.length (elements_in x n).
Proof.
  intros Hg. revert r.
  induction n as [t a cs IH| | | |] using node_forall_ind; try done.
  intros r. rewrite update_in_Element.
  destruct (String.eqb t name) eqn:Et.
  - intros [= <-]. cbn [kept List.flat_map]. by rewrite app_nil_r.
  - destruct (update_first name _ cs) as [cs'|] eqn:E; [|done].
    intros [= <-]. cbn [kept List.flat_map]. rewrite app_nil_r.
    rewrite !elements_in_Element. rewrite !length_app.
    f_equal; [by destruct (String.eqb t x)|].
    revert cs' E. induction IH as [|c cs Hc _ IHcs]; [done|].
    intros cs'. cbn [update_first getElementsByTagName].
    destruct (update_in name _ c) as [r|] eqn:Ec.
    + specialize (Hc r eq_refl). destruct r as [c'|]; intros [= <-];
        cbn [kept List.flat_map getElementsByTagName] in *;
        rewrite ?app_nil_r, ?length_app in *; cbn [List.length] in *; lia.
    + destruct (update_first name _ cs) as [cs1|]; [|done].
      intros [= <-]. cbn [getElementsByTagName]. rewrite !length_app.
      specialize (IHcs cs1 eq_refl). lia.
Qed.

Lemma length_signed_tree x digest doc :
  List.length (getElementsByTagName x (signed_tree digest doc))
  = List.length (getElementsByTagName x doc).
Proof.
  unfold signed_tree, assign_first.
  destruct (update_first "signature" _ doc) as [doc'|] eqn:E;
    cbn [default from_option id]; [|done].
  revert doc' E. induction doc as [|c ns IH]; [done|].
  intros ns'. cbn [update_first getElementsByTagName].
  destruct (update_in "signature" _ c) as [r|] eqn:Ec.
  - pose proof (length_assign_in _ x _ _ _
                  (length_elements_in_set_firstChild_value x digest) Ec) as Hc.
    destruct r as [c'|]; intros [= <-];
      cbn [kept List.flat_map getElementsByTagName] in *;
      rewrite ?app_nil_r, ?length_app in *; cbn [List.length] in *; lia.
  - destruct (update_first "signature" _ ns) as [ns1|]; [|done].
    intros [= <-]. cbn [getElementsByTagName]. rewrite !length_app.
    specialize (IH ns1 eq_refl). lia.
Qed.

Lemma length_nil {A} (l : list A) : List.length l = 0%nat -> l = [].
Proof. by destruct l. Qed.

(** The tree that is hashed has at most the elements of the parsed tree,
    and one [uam_dir] less. *)
Lemma canonical_tree_elements password doc tree x :
  canonical_tree password doc = Ok tree ->
  (List.length (getElementsByTagName x tree)
   <= List.length (getElementsByTagName x doc))%nat
  /\ (List.length (getElementsByTagName "uam_dir" tree)
      < List.length (getElementsByTagName "uam_dir" doc))%nat.
Proof.
  unfold canonical_tree. intros H.
  destruct (item0 (getElementsByTagName "uam_dir" doc)) eqn:Eu; [|done].
  assert (getElementsByTagName "uam_dir" doc <> []) as Hne
    by (by destruct (getElementsByTagName "uam_dir" doc)).
  pose proof (remove_first_lt _ _ Hne) as Hlt.
  cbn [attr_of rbind] in H.
  destruct (item0 (getElementsByTagName "uar_data" _)) as [uar|]; [|done].
  cbn [attr_of rbind] in H. destruct (firstChild uar) as [child|]; [|done].
  cbn [attr_of rbind] in H. destruct (nodeValue child) as [value|]; [|done].
  cbn [attr_of rbind] in H.
  destruct (String.eqb (strip value ++ nl) nl).
  - injection H as <-. split; [apply length_remove_first|done].
  - destruct (toxml _); [|done]. cbn [rbind] in H. injection H as <-.
    split.
    + etrans; [apply length_assign_first|apply length_remove_first].
    + eapply Nat.le_lt_trans; [apply length_assign_first|done].
Qed.

Section removal.

Variable parseString : string -> option document.

(** C4, as amended.  For a document, the text that [getXMLContents]
    returns, with one [uam_dir] element, the tree that is hashed has no
    [uam_dir] element, and neither has the [config]
    element that is serialised.  [sign] does not remove the element: the
    tree it serialises into the raw content is the parsed document with
    one node value changed, and it has as many [uam_dir] elements as the
    document had. *)
Theorem uam_dir_removed_from_view_only password w text doc docr :
  fst (getXMLContents w) = Ok text ->
  parseString text = Some doc ->
  parseString (rewrite_uam_dir text) = Some docr ->
  List.length (getElementsByTagName "uam_dir" docr) = 1%nat ->
  (forall tree cfg,
     canonical_tree password docr = Ok tree ->
     item0 (getElementsByTagName "config" tree) = Some cfg ->
     getElementsByTagName "uam_dir" tree = []
     /\ elements_in "uam_dir" cfg = [])
  /\ (fst (sign parseString password w) = Ok tt ->
      exists digest xml,
        fst (computeSignature parseString password w) = Ok digest
        /\ doc_toxml (signed_tree digest doc) = Ok xml
        /\ raw (snd (sign parseString password w)) = Some xml
        /\ List.length (getElementsByTagName "uam_dir" (signed_tree digest doc))
           = List.length (getElementsByTagName "uam_dir" doc)).
Proof.
  intros Hraw Hp Hpr Hone. split.
  - intros tree cfg Htree Hcfg.
    destruct (canonical_tree_elements _ _ _ "uam_dir" Htree) as [_ Hlt].
    assert (getElementsByTagName "uam_dir" tree = []) as Hnil
      by (apply length_nil; lia).
    split; [done|]. apply length_nil.
    pose proof (elements_below "uam_dir" "config" tree cfg
                  (item0_elem _ _ Hcfg)) as Hle.
    rewrite Hnil in Hle. cbn in Hle. lia.
  - destruct (computeSignature_run parseString password w) as [m1 H1].
    destruct (sign_run parseString password w) as [m2 H2].
    rewrite H1, H2, Hraw. cbn [attr_of rbind fst]. unfold signed_text, parse.
    destruct (signature_of parseString password text) as [digest|];
      cbn [rbind fst snd]; [|done].
    rewrite Hp. cbn [rbind].
    destruct (signature_child doc); cbn [rbind fst snd]; [|done].
    destruct (doc_toxml (signed_tree digest doc)) as [xml|] eqn:Ex;
      cbn [fst snd raw self configXMLString]; [|done].
    intros _. exists digest, xml. by rewrite length_signed_tree.
Qed.

End removal.

Lemma replace_first_skip pat rep c s :
  prefix pat (String c s) = false ->
  replace_first pat rep (String c s) = String c (replace_first pat rep s).
Proof. cbn [replace_first]. by intros ->. Qed.

Lemma replace_first_here pat rep c s :
  replace_first (String c pat) rep (String c pat ++ s) = rep ++ s.
Proof.
  rewrite append_String. cbn [replace_first].
  assert (prefix (String c pat) (String c (pat ++ s)) = true) as ->
    by (apply prefix_app; by exists s).
  f_equal. cbn [String.length drop_chars].
  induction pat as [|d pat IH]; [done|]. by rewrite append_String.
Qed.

Lemma eef_on_second_line rest :
  replace_first "<eef>" (nl ++ "<eef>") (xml_declaration ++ "<eef>" ++ rest)
  = xml_declaration ++ nl ++ "<eef>" ++ rest.
Proof.
  unfold xml_declaration, dq.
  repeat (rewrite ?append_String, ?append_empty;
          rewrite replace_first_skip by reflexivity).
  rewrite ?append_String, ?append_empty.
  change (String "<" (String "e" (String "e" (String "f" (String ">" rest)))))
    with ("<eef>" ++ rest).
  by rewrite replace_first_here.
Qed.

(** An assignment that leaves the first element called [name] as it is
    leaves the tree as it is. *)
Lemma update_in_fixed name (g : node -> node) n m :
  List.head (elements_in name n) = Some m ->
  g m = m ->
  update_in name (fun x => Some (g x)) n = Some (Some n).
Proof.
  intros Hm Hg. revert Hm.
  induction n as [t a cs IH| | | |] using node_forall_ind; try done.
  rewrite update_in_Element, elements_in_Element.
  destruct (String.eqb t name) eqn:Et.
  - cbn [app List.head]. intros [= <-]. by rewrite Hg.
  - cbn [app]. intros Hh.
    assert (update_first name (fun x => Some (g x)) cs = Some cs) as ->;
      [|done].
    induction IH as [|c cs Hc _ IHcs]; [done|].
    cbn [getElementsByTagName] in Hh. cbn [update_first].
    destruct (elements_in name c) as [|m0 l] eqn:Ec.
    + apply (update_in_None name (fun x => Some (g x))) in Ec as ->.
      cbn [app] in Hh. by rewrite (IHcs Hh).
    + cbn [app List.head] in Hh. by rewrite (Hc Hh).
Qed.

Lemma assign_first_fixed name (g : node -> node) ns m :
  item0 (getElementsByTagName name ns) = Some m ->
  g m = m ->
  assign_first name g ns = ns.
Proof.
  intros Hm Hg. unfold assign_first, item0 in *.
  assert (update_first name (fun x => Some (g x)) ns = Some ns) as ->;
    [|done].
  induction ns as [|c ns IH]; [done|].
  cbn [getElementsByTagName] in Hm. cbn [update_first].
  destruct (elements_in name c) as [|m0 l] eqn:Ec.
  - apply (update_in_None name (fun x => Some (g x))) in Ec as ->.
    cbn [app] in Hm. by rewrite (IH Hm).
  - cbn [app List.head] in Hm.
    rewrite (update_in_fixed name g c m); [done| |done].
    by rewrite Ec.
Qed.

Section written.

Variable parseString : string -> option document.
Variable creatable : string -> bool.

(** C5, as amended.  When [sign] returns, the raw content is the
    serialisation of the whole parsed tree, the XML declaration first and
    the tree next to it on the same line.  In that tree the first child of
    the [signature] element has the digest as its node value when it is a
    node that carries one (character data, a comment or a processing
    instruction); when it is an element, the assignment changes nothing
    that is serialised and the tree is the parsed one.  [sign] inserts no
    newline.  It is [writeFile] that, writing to a path that does not
    exist and at which a file can be created, parses the raw content again
    and writes its serialisation with a newline put before the first
    [<eef>]; when the tree starts with the tag [<eef>], that tag then
    starts the second line of the file. *)
Theorem sign_raw_content password w text doc :
  fst (getXMLContents w) = Ok text ->
  parseString text = Some doc ->
  fst (sign parseString password w) = Ok tt ->
  exists digest signatureNode child body,
    fst (computeSignature parseString password w) = Ok digest
    /\ item0 (getElementsByTagName "signature" doc) = Some signatureNode
    /\ firstChild signatureNode = Some child
    /\ item0 (getElementsByTagName "signature" (signed_tree digest doc))
       = Some (set_firstChild_value digest signatureNode)
    /\ firstChild (set_firstChild_value digest signatureNode)
       = Some (set_nodeValue digest child)
    /\ (nodeValue child <> None ->
        nodeValue (set_nodeValue digest child) = Some digest)
    /\ (nodeValue child = None -> signed_tree digest doc = doc)
    /\ writexml_list (signed_tree digest doc) = Ok body
    /\ raw (snd (sign parseString password w)) = Some (xml_declaration ++ body)
    /\ (forall filename doc' out,
          files w !! filename = None ->
          creatable filename = true ->
          parseString (xml_declaration ++ body) = Some doc' ->
          doc_toxml doc' = Ok out ->
          fst (writeFile parseString creatable filename
                 (snd (sign parseString password w)))
          = Ok tt
          /\ files (snd (writeFile parseString creatable filename
                           (snd (sign parseString password w)))) !! filename
             = Some (replace_first "<eef>" (nl ++ "<eef>") out))
    /\ (forall rest,
          replace_first "<eef>" (nl ++ "<eef>")
            (xml_declaration ++ "<eef>" ++ rest)
          = xml_declaration ++ nl ++ "<eef>" ++ rest).
Proof.
  intros Hraw Hp.
  destruct (computeSignature_run parseString password w) as [m1 H1].
  destruct (sign_run parseString password w) as [m2 H2].
  rewrite H1, H2, Hraw. cbn [attr_of rbind fst]. unfold signed_text, parse.
  destruct (signature_of parseString password text) as [digest|];
    cbn [rbind fst snd]; [|done].
  rewrite Hp. cbn [rbind]. unfold signature_child.
  destruct (item0 (getElementsByTagName "signature" doc)) as [sn|] eqn:Es;
    cbn [attr_of rbind fst snd]; [|done].
  destruct (firstChild sn) as [child|] eqn:Ec;
    cbn [attr_of rbind fst snd]; [|done].
  unfold doc_toxml.
  destruct (writexml_list (signed_tree digest doc)) as [body|] eqn:Eb;
    cbn [rbind fst snd raw self configXMLString]; [|done].
  intros _. exists digest, sn, child, body.
  split; [done|]. split; [done|]. split; [done|]. split.
  { unfold signed_tree. rewrite item0_assign_first, Es; [done|].
    intros m. by rewrite is_tag_set_firstChild_value. }
  split.
  { destruct sn as [tg ats [|c cs]| | | |]; try done.
    cbn in Ec. by injection Ec as ->. }
  split; [by destruct child|]. split.
  { intros Hnone. unfold signed_tree.
    apply (assign_first_fixed _ _ _ sn Es).
    destruct sn as [tg ats [|c cs]| | | |]; try done.
    cbn in Ec. injection Ec as ->. by destruct child. }
  split; [done|]. split; [done|]. split; [|apply eef_on_second_line].
  intros filename doc' out Hf Hcr Hp' Hout.
  unfold writeFile. run. rewrite Hf.
  rewrite bool_decide_eq_false_2 by (by intros [? ?]).
  run. unfold parse. rewrite Hp'. run. rewrite Hcr. run.
  fold (doc_toxml doc') in Hout. rewrite Hout. run.
  by rewrite lookup_insert_eq.
Qed.

End written.

(** ** Trees that [toxml] can write

    [toxml] refuses a CDATA section that holds the end mark of a section,
    and a comment that holds two hyphens in a row.  A tree built by the
    parser has neither. *)

Fixpoint writable (n : node) : bool :=
  match n with
  | Element _ _ cs =>
      (fix go (l : list node) : bool :=
         match l with
         | [] => true
         | c :: l' => writable c && go l'
         end) cs
  | CDATASection d => negb (occurs "]]>" d)
  | Comment d => negb (occurs "--" d)
  | Text _ | ProcessingInstruction _ _ => true
  end.

Definition all_writable (ns : list node) : bool := List.forallb writable ns.

Lemma writable_Element t a cs :
  writable (Element t a cs) = all_writable cs.
Proof. cbn [writable]. induction cs as [|c cs IH]; [done|]. cbn. by rewrite IH. Qed.

Lemma writexml_Element t a cs :
  writexml (Element t a cs)
  = match cs with
    | [] => Ok (start_tag t a ++ "/>")
    | _ => rbind (writexml_list cs) (fun body =>
           Ok (start_tag t a ++ ">" ++ body ++ "</" ++ t ++ ">"))
    end.
Proof.
  cbn [writexml]. destruct cs as [|c0 cs0]; [done|].
  assert (forall l,
            (fix go (l : list node) : result string :=
               match l with
               | [] => Ok ""
               | c :: l' =>
                   rbind (writexml c) (fun x =>
                   rbind (go l') (fun y => Ok (x ++ y)))
               end) l = writexml_list l) as ->; [|done].
  intros l. induction l as [|c l IH]; [done|]. cbn [writexml_list].
  by rewrite IH.
Qed.

Lemma writexml_writable n : writable n = true -> exists s, writexml n = Ok s.
Proof.
  induction n as [t a cs IH|d|d|d|t d] using node_forall_ind.
  - rewrite writable_Element, writexml_Element. intros Hw.
    assert (exists body, writexml_list cs = Ok body) as [body Hb].
    { induction IH as [|c cs Hc _ IHcs]; [by exists ""|].
      cbn in Hw. apply andb_prop in Hw as [Hw1 Hw2].
      destruct (Hc Hw1) as [x Hx]. destruct (IHcs Hw2) as [y Hy].
      cbn [writexml_list]. rewrite Hx, Hy. cbn [rbind]. eexists; reflexivity. }
    destruct cs; [eexists; reflexivity|]. rewrite Hb. cbn [rbind]. eexists; reflexivity.
  - eexists; reflexivity.
  - cbn [writable writexml]. intros H.
    destruct (occurs "]]>" d); [by cbn in H|]. eexists; reflexivity.
  - cbn [writable writexml]. intros H.
    destruct (occurs "--" d); [by cbn in H|]. eexists; reflexivity.
  - eexists; reflexivity.
Qed.

Lemma writable_elements_in y n m :
  writable n = true -> m ∈ elements_in y n -> writable m = true.
Proof.
  induction n as [t a cs IH| | | |] using node_forall_ind;
    try (by intros _ ?%elem_of_nil).
  intros Hw. rewrite elements_in_Element. intros [Hm|Hm]%elem_of_app.
  - destruct (String.eqb t y); [|by apply elem_of_nil in Hm].
    by apply list_elem_of_singleton in Hm as ->.
  - rewrite writable_Element in Hw.
    induction IH as [|c cs Hc _ IHcs]; [by apply elem_of_nil in Hm|].
    cbn in Hw. apply andb_prop in Hw as [Hw1 Hw2].
    cbn [getElementsByTagName] in Hm. apply elem_of_app in Hm as [Hm|Hm]; eauto.
Qed.

Lemma writable_elements y ns m :
  all_writable ns = true -> m ∈ getElementsByTagName y ns -> writable m = true.
Proof.
  induction ns as [|c ns IH]; [by intros _ ?%elem_of_nil|].
  cbn. intros [Hw1 Hw2]%andb_prop [Hm|Hm]%elem_of_app; [|eauto].
  by eapply writable_elements_in.
Qed.

Lemma writable_update_in name f n r :
  (forall m m', writable m = true -> f m = Some m' -> writable m' = true) ->
  writable n = true ->
  update_in name f n = Some r ->
  all_writable (kept r) = true.
Proof.
  intros Hf. revert r.
  induction n as [t a cs IH| | | |] using node_forall_ind; try done.
  intros r Hw. rewrite update_in_Element.
  destruct (String.eqb t name).
  - intros [= <-]. destruct (f _) as [m'|] eqn:E; [|done].
    cbn. by rewrite (Hf _ _ Hw E).
  - destruct (update_first name f cs) as [cs'|] eqn:E; [|done].
    intros [= <-]. cbn [kept all_writable List.forallb]. rewrite andb_true_r.
    rewrite writable_Element in *.
    revert cs' E. induction IH as [|c cs Hc _ IHcs]; [done|].
    intros cs'. cbn in Hw. apply andb_prop in Hw as [Hw1 Hw2].
    cbn [update_first].
    destruct (update_in name f c) as [r|] eqn:Ec.
    + specialize (Hc r Hw1 eq_refl). destruct r as [c'|]; intros [= <-].
      * cbn in *. rewrite andb_true_r in Hc. by rewrite Hc.
      * done.
    + destruct (update_first name f cs) as [cs1|]; [|done].
      intros [= <-]. cbn. rewrite Hw1. by apply IHcs.
Qed.

Lemma writable_update_first name f ns ns' :
  (forall m m', writable m = true -> f m = Some m' -> writable m' = true) ->
  all_writable ns = true ->
  update_first name f ns = Some ns' ->
  all_writable ns' = true.
Proof.
  intros Hf. revert ns'. induction ns as [|c ns IH]; [done|].
  intros ns'. cbn. intros [Hw1 Hw2]%andb_prop.
  destruct (update_in name f c) as [r|] eqn:Ec.
  - pose proof (writable_update_in _ _ _ _ Hf Hw1 Ec) as Hc.
    destruct r as [c'|]; intros [= <-]; [|done].
    cbn in *. rewrite andb_true_r in Hc. by rewrite Hc.
  - destruct (update_first name f ns) as [ns1|]; [|done].
    intros [= <-]. cbn. rewrite Hw1. by apply IH.
Qed.

Lemma writable_remove_first name ns :
  all_writable ns = true -> all_writable (remove_first name ns) = true.
Proof.
  intros Hw. unfold remove_first.
  destruct (update_first name _ ns) as [ns'|] eqn:E;
    cbn [default from_option id]; [|done].
  by eapply writable_update_first; [| |exact E].
Qed.

Lemma writable_set_firstChild_value v m :
  occurs "]]>" v = false -> occurs "--" v = false ->
  writable m = true -> writable (set_firstChild_value v m) = true.
Proof.
  intros H1 H2. destruct m as [t a [|c cs]| | | |]; try done.
  cbn [set_firstChild_value]. rewrite !writable_Element.
  cbn [all_writable List.forallb].
  intros [Hc Hcs]%andb_prop. rewrite Hcs, andb_true_r.
  destruct c; cbn [set_nodeValue]; [done|done| | |done];
    cbn [writable]; by rewrite ?H1, ?H2.
Qed.

(** A pattern does not occur in a text that never has its first
    character. *)
Lemma count_from_absent c pat skip s :
  all_chars (fun x => negb (Ascii.eqb x c)) s = true ->
  count_from (String c pat) skip s = 0%nat.
Proof.
  revert skip. induction s as [|d s IH]; intros skip.
  - by destruct skip.
  - cbn [all_chars]. intros [Hd Hs]%andb_prop.
    cbn [count_from]. destruct skip; [|by apply IH].
    cbn [prefix]. destruct (ascii_dec c d) as [->|Hne].
    + by rewrite Ascii.eqb_refl in Hd.
    + by apply IH.
Qed.

Lemma all_chars_app p a b :
  all_chars p (a ++ b) = all_chars p a && all_chars p b.
Proof.
  induction a as [|c a IH]; [done|].
  rewrite append_String. cbn [all_chars]. by rewrite IH, andb_assoc.
Qed.

Lemma all_chars_impl (p q : ascii -> bool) s :
  (forall c, p c = true -> q c = true) ->
  all_chars p s = true -> all_chars q s = true.
Proof.
  intros Hpq. induction s as [|c s IH]; [done|]. cbn.
  intros [Hc Hs]%andb_prop. by rewrite (Hpq _ Hc), IH.
Qed.

Lemma is_hex_not c d : is_hex d = false -> is_hex c = true -> negb (Ascii.eqb c d) = true.
Proof.
  intros Hd Hc. destruct (Ascii.eqb c d) eqn:E; [|done].
  apply Ascii.eqb_eq in E as ->. congruence.
Qed.

Lemma uar_data_text_writable password msg :
  occurs "]]>" (uar_data_text (hmac_sha1_hex password msg)) = false
  /\ occurs "--" (uar_data_text (hmac_sha1_hex password msg)) = false.
Proof.
  destruct (hmac_sha1_hex_spec password msg) as [_ Hh].
  unfold occurs, str_count, uar_data_text. split.
  - rewrite (count_from_absent "]" "]>"); [done|]. rewrite !all_chars_app.
    rewrite (all_chars_impl is_hex _ _ (fun c => is_hex_not c "]" eq_refl) Hh).
    reflexivity.
  - rewrite (count_from_absent "-" "-"); [done|]. rewrite !all_chars_app.
    rewrite (all_chars_impl is_hex _ _ (fun c => is_hex_not c "-" eq_refl) Hh).
    reflexivity.
Qed.

Lemma nonempty_of_le (l1 l2 : list node) m :
  item0 l1 = Some m -> (List.length l1 <= List.length l2)%nat -> l2 <> [].
Proof. destruct l1, l2; cbn; try done. lia. Qed.

(** On a tree that can be written, the computation of the canonical tree
    either succeeds or misses a node: it raises nothing but
    AttributeError. *)
Lemma canonical_tree_result password doc :
  all_writable doc = true ->
  (exists tree,
     canonical_tree password doc = Ok tree
     /\ all_writable tree = true
     /\ getElementsByTagName "uam_dir" doc <> []
     /\ getElementsByTagName "uar_data" doc <> [])
  \/ canonical_tree password doc = Raise AttributeError.
Proof.
  intros Hw. unfold canonical_tree.
  destruct (item0 (getElementsByTagName "uam_dir" doc)) as [uam|] eqn:Eu;
    cbn [attr_of rbind]; [|by right].
  assert (getElementsByTagName "uam_dir" doc <> []) as Hu
    by (by destruct (getElementsByTagName "uam_dir" doc)).
  pose proof (writable_remove_first "uam_dir" _ Hw) as Hw1.
  destruct (item0 (getElementsByTagName "uar_data" _)) as [uar|] eqn:Er;
    cbn [attr_of rbind]; [|by right].
  pose proof (nonempty_of_le _ _ _ Er (length_remove_first "uam_dir" "uar_data" doc))
    as Hr.
  destruct (firstChild uar) as [child|]; cbn [attr_of rbind]; [|by right].
  destruct (nodeValue child) as [value|]; cbn [attr_of rbind]; [|by right].
  destruct (String.eqb (strip value ++ nl) nl).
  - left. by eexists.
  - destruct (uar_data_text_writable password (strip value ++ nl)) as [H1 H2].
    pose proof (writable_elements _ _ _ Hw1 (item0_elem _ _ Er)) as Hwu.
    destruct (writexml_writable _
                (writable_set_firstChild_value _ _ H1 H2 Hwu)) as [x Hx].
    unfold toxml. rewrite Hx. cbn [rbind]. left. eexists.
    split; [done|]. split; [|done].
    unfold assign_first.
    destruct (update_first "uar_data" _ _) as [ns'|] eqn:E;
      cbn [default from_option id]; [|done].
    eapply writable_update_first; [|exact Hw1|exact E].
    intros m m' Hm [= <-]. exact (writable_set_firstChild_value _ _ H1 H2 Hm).
Qed.

Lemma config_xml_result password doc :
  all_writable doc = true ->
  (exists bytes,
     config_xml password doc = Ok bytes
     /\ getElementsByTagName "uam_dir" doc <> []
     /\ getElementsByTagName "uar_data" doc <> []
     /\ getElementsByTagName "config" doc <> [])
  \/ config_xml password doc = Raise AttributeError.
Proof.
  intros Hw. unfold config_xml.
  destruct (canonical_tree_result password doc Hw)
    as [(tree & Ht & Hwt & Hu & Hr)| ->]; [|by right].
  rewrite Ht. cbn [rbind].
  destruct (item0 (getElementsByTagName "config" tree)) as [cfg|] eqn:Ec;
    cbn [attr_of rbind]; [|by right].
  destruct (writexml_writable cfg
              (writable_elements _ _ _ Hwt (item0_elem _ _ Ec))) as [x Hx].
  unfold toxml. rewrite Hx. left. eexists. split; [done|].
  split; [done|]. split; [done|].
  destruct (canonical_tree_elements _ _ _ "config" Ht) as [Hle _].
  by eapply nonempty_of_le.
Qed.

Section missing.

Variable parseString : string -> option document.

(** C6, as amended.  Take a document whose bytes are UTF-8, so that
    [getXMLContents] returns its text, and whose text parses, also after
    the rewriting of the white space around [uam_dir], into trees that can
    be written back (as the trees of a parser are).  When it has no
    [signature] element, [sign] and [verifySignature] raise
    AttributeError, the error of asking a node that is not there for an
    attribute (the StructureError of the specification), and not the
    parser's error.  [computeSignature] raises the same error when
    [uam_dir], [uar_data] or [config] is absent. *)
Theorem missing_element_raises password w text doc docr :
  fst (getXMLContents w) = Ok text ->
  parseString text = Some doc ->
  parseString (rewrite_uam_dir text) = Some docr ->
  all_writable docr = true ->
  (getElementsByTagName "signature" doc = [] ->
     fst (sign parseString password w) = Raise AttributeError
     /\ fst (verifySignature parseString password w) = Raise AttributeError)
  /\ (getElementsByTagName "uam_dir" docr = []
      \/ getElementsByTagName "uar_data" docr = []
      \/ getElementsByTagName "config" docr = [] ->
      fst (computeSignature parseString password w) = Raise AttributeError).
Proof.
  intros Hraw Hp Hpr Hw.
  destruct (computeSignature_run parseString password w) as [m1 H1].
  destruct (sign_run parseString password w) as [m2 H2].
  destruct (verifySignature_run parseString password w) as [m3 H3].
  rewrite H1, H2, H3, Hraw. cbn [attr_of rbind fst].
  unfold signed_text, verified, signature_of, canonical_view, parse.
  rewrite Hp, Hpr. cbn [rbind].
  destruct (config_xml_result password docr Hw)
    as [(bytes & -> & Hu & Hr & Hc)| ->]; cbn [rbind fst].
  - split.
    + intros Hs. unfold signature_child. rewrite Hs. done.
    + intros [?|[?|?]]; done.
  - done.
Qed.

End missing.

(** ** Trees that differ only in what [sign] writes

    [mask] blanks the character data directly below every [signature]
    element ([below] tells whether the node is a child of one).  Two trees
    with the same mask differ in nothing else. *)

Fixpoint mask (below : bool) (n : node) : node :=
  match n with
  | Element t a cs =>
      Element t a (List.map (mask (String.eqb t "signature")) cs)
  | _ => if below then set_nodeValue "" n else n
  end.

Lemma is_tag_mask name b n : is_tag name (mask b n) = is_tag name n.
Proof. by destruct n, b. Qed.

Lemma mask_element name b n :
  is_tag name n = true -> mask b n = mask false n.
Proof. by destruct n. Qed.

Lemma elements_in_mask name b n :
  elements_in name (mask b n) = List.map (mask false) (elements_in name n).
Proof.
  revert b.
  induction n as [t a cs IH| | | |] using node_forall_ind; intros b;
    try (by destruct b).
  cbn [mask]. rewrite !elements_in_Element, List.map_app. f_equal.
  - by destruct (String.eqb t name).
  - generalize (String.eqb t "signature"). intros b'.
    induction IH as [|c cs Hc _ IHcs]; [done|].
    cbn [List.map getElementsByTagName]. by rewrite List.map_app, Hc, IHcs.
Qed.

Lemma elements_mask name b ns :
  getElementsByTagName name (List.map (mask b) ns)
  = List.map (mask false) (getElementsByTagName name ns).
Proof.
  induction ns as [|c ns IH]; [done|].
  cbn [List.map getElementsByTagName].
  by rewrite List.map_app, elements_in_mask, IH.
Qed.

(** An update that commutes with [mask] on the node it changes commutes
    with it on the tree. *)
Lemma update_in_mask name (f : node -> option node) b n :
  (forall b m, is_tag name m = true -> f (mask b m) = option_map (mask b) (f m)) ->
  update_in name f (mask b n)
  = option_map (option_map (mask b)) (update_in name f n).
Proof.
  intros Hf. revert b.
  induction n as [t a cs IH| | | |] using node_forall_ind; intros b;
    try (by destruct b).
  cbn [mask]. rewrite !update_in_Element.
  destruct (String.eqb t name) eqn:Et.
  - cbn [fmap option_fmap option_map List.map]. f_equal.
    by rewrite <- (Hf b (Element t a cs)) by (cbn; done).
  - set (b' := String.eqb t "signature").
    assert (update_first name f (List.map (mask b') cs)
            = option_map (List.map (mask b')) (update_first name f cs)) as ->.
    { induction IH as [|c cs Hc _ IHcs]; [done|].
      cbn [List.map update_first]. rewrite Hc.
      destruct (update_in name f c) as [[c'|]|];
        cbn [fmap option_fmap option_map List.map]; try done.
      rewrite IHcs. by destruct (update_first name f cs). }
    destruct (update_first name f cs) as [cs'|];
      cbn [fmap option_fmap option_map List.map]; [|done].
    done.
Qed.

Lemma update_first_mask name (f : node -> option node) b ns :
  (forall b m, is_tag name m = true -> f (mask b m) = option_map (mask b) (f m)) ->
  update_first name f (List.map (mask b) ns)
  = option_map (List.map (mask b)) (update_first name f ns).
Proof.
  intros Hf. induction ns as [|c ns IH]; [done|].
  cbn [List.map update_first]. rewrite (update_in_mask _ _ _ _ Hf).
  destruct (update_in name f c) as [[c'|]|];
    cbn [fmap option_fmap option_map List.map]; try done.
  rewrite IH. by destruct (update_first name f ns).
Qed.

Lemma remove_first_mask name b ns :
  remove_first name (List.map (mask b) ns)
  = List.map (mask b) (remove_first name ns).
Proof.
  unfold remove_first. rewrite update_first_mask by done.
  by destruct (update_first name _ ns).
Qed.

Lemma mask_set_nodeValue v c :
  mask false (set_nodeValue v c) = set_nodeValue v (mask false c).
Proof. by destruct c. Qed.

Lemma assign_first_mask name v b ns :
  String.eqb name "signature" = false ->
  assign_first name (set_firstChild_value v) (List.map (mask b) ns)
  = List.map (mask b) (assign_first name (set_firstChild_value v) ns).
Proof.
  intros Hn. unfold assign_first. rewrite update_first_mask.
  - by destruct (update_first name _ ns).
  - intros b' m Hm. cbn [option_map]. f_equal.
    destruct (is_tag_Element _ _ Hm) as (t & a & cs & -> & Et).
    apply String.eqb_eq in Et as ->. destruct cs as [|c cs]; [done|].
    cbn [mask set_firstChild_value List.map]. rewrite Hn.
    by rewrite mask_set_nodeValue.
Qed.

(** What [sign] writes is hidden by the mask. *)
Lemma mask_set_in name g b n r :
  (forall b m, is_tag name m = true -> mask b (g m) = mask b m) ->
  update_in name (fun m => Some (g m)) n = Some r ->
  List.map (mask b) (kept r) = [mask b n].
Proof.
  intros Hg. revert b r.
  induction n as [t a cs IH| | | |] using node_forall_ind; intros b r;
    try done.
  rewrite update_in_Element. destruct (String.eqb t name) eqn:Et.
  - intros [= <-]. cbn [kept List.map]. by rewrite Hg by (cbn; done).
  - destruct (update_first name _ cs) as [cs'|] eqn:E; [|done].
    intros [= <-]. cbn [kept List.map mask]. do 2 f_equal.
    generalize (String.eqb t "signature"). intros b'.
    revert cs' E. induction IH as [|c cs Hc _ IHcs]; [done|].
    intros cs'. cbn [update_first].
    destruct (update_in name _ c) as [r|] eqn:Ec.
    + specialize (Hc b' r eq_refl). destruct r as [c'|]; [|done].
      intros [= <-]. cbn [kept List.map] in *. by injection Hc as ->.
    + destruct (update_first name _ cs) as [cs1|]; [|done].
      intros [= <-]. cbn [List.map]. f_equal. by apply IHcs.
Qed.

Lemma mask_signed_tree digest b doc :
  List.map (mask b) (signed_tree digest doc) = List.map (mask b) doc.
Proof.
  unfold signed_tree, assign_first.
  destruct (update_first "signature" _ doc) as [doc'|] eqn:E;
    cbn [default from_option id]; [|done].
  revert doc' E. induction doc as [|c ns IH]; [done|].
  intros ns'. cbn [update_first].
  destruct (update_in "signature" _ c) as [r|] eqn:Ec.
  - assert (List.map (mask b) (kept r) = [mask b c]) as Hc.
    { eapply mask_set_in; [|exact Ec]. intros b' m Hm.
      destruct (is_tag_Element _ _ Hm) as (t & a & cs & -> & Et).
      destruct cs as [|c0 cs]; [done|].
      cbn [set_firstChild_value mask List.map]. rewrite Et.
      do 2 f_equal. by destruct c0. }
    destruct r as [c'|]; [|done]. intros [= <-].
    cbn [kept List.map] in *. by injection Hc as ->.
  - destruct (update_first "signature" _ ns) as [ns1|]; [|done].
    intros [= <-]. cbn [List.map]. f_equal. by apply IH.
Qed.

(** A node without a [signature] element is its own mask, and the only
    node with that mask. *)
Lemma mask_id n : elements_in "signature" n = [] -> mask false n = n.
Proof.
  induction n as [t a cs IH| | | |] using node_forall_ind; try done.
  rewrite elements_in_Element.
  destruct (String.eqb t "signature") eqn:Et; [done|].
  cbn [app mask]. rewrite Et. intros Hcs. f_equal.
  induction IH as [|c cs Hc _ IHcs]; [done|].
  cbn [getElementsByTagName] in Hcs. apply app_eq_nil in Hcs as [H1 H2].
  cbn [List.map]. by rewrite Hc, IHcs.
Qed.

Lemma mask_eq_id n m :
  mask false m = n -> elements_in "signature" n = [] -> m = n.
Proof.
  intros Hm Hn. rewrite <- (mask_id m); [done|].
  rewrite <- Hm, elements_in_mask in Hn.
  by destruct (elements_in "signature" m).
Qed.

Lemma item0_mask name ns ns' m :
  List.map (mask false) ns' = List.map (mask false) ns ->
  item0 (getElementsByTagName name ns) = Some m ->
  elements_in "signature" m = [] ->
  item0 (getElementsByTagName name ns') = Some m.
Proof.
  intros Hmask Hm Hs.
  assert (List.map (mask false) (getElementsByTagName name ns')
          = List.map (mask false) (getElementsByTagName name ns)) as H
    by (by rewrite <- (elements_mask name false ns'),
             <- (elements_mask name false ns), Hmask).
  destruct (getElementsByTagName name ns) as [|m0 l]; [done|].
  injection Hm as ->.
  destruct (getElementsByTagName name ns') as [|m' l']; [done|].
  cbn [List.map] in H. injection H as H _.
  rewrite (mask_id m Hs) in H. cbn. f_equal. by apply mask_eq_id.
Qed.

(** The [uar_data] element that is read, and the [config] element that
    is serialised. *)
Definition uar_data_node (doc : document) : option node :=
  item0 (getElementsByTagName "uar_data" (remove_first "uam_dir" doc)).

Definition hashed_config (password : string) (doc : document) : result node :=
  rbind (canonical_tree password doc) (fun tree =>
  attr_of (item0 (getElementsByTagName "config" tree))).

Lemma config_xml_hashed password doc :
  config_xml password doc = rbind (hashed_config password doc) toxml.
Proof.
  unfold config_xml, hashed_config.
  destruct (canonical_tree password doc) as [tree|]; [|done]. cbn [rbind].
  by destruct (attr_of _).
Qed.

Lemma item0_mask_some name ns ns' m :
  List.map (mask false) ns' = List.map (mask false) ns ->
  item0 (getElementsByTagName name ns) = Some m ->
  exists m', item0 (getElementsByTagName name ns') = Some m'.
Proof.
  intros Hmask Hm.
  assert (List.map (mask false) (getElementsByTagName name ns')
          = List.map (mask false) (getElementsByTagName name ns)) as H
    by (by rewrite <- (elements_mask name false ns'),
             <- (elements_mask name false ns), Hmask).
  destruct (getElementsByTagName name ns) as [|m0 l]; [done|].
  destruct (getElementsByTagName name ns') as [|m' l']; [done|].
  by exists m'.
Qed.

(** Two trees with the same mask have canonical trees with the same
    mask, when the [uar_data] element read holds no [signature]
    element. *)
Lemma canonical_tree_mask password doc doc' tree :
  List.map (mask false) doc' = List.map (mask false) doc ->
  canonical_tree password doc = Ok tree ->
  (forall uar, uar_data_node doc = Some uar -> elements_in "signature" uar = []) ->
  exists tree',
    canonical_tree password doc' = Ok tree'
    /\ List.map (mask false) tree' = List.map (mask false) tree.
Proof.
  intros Hmask Htree Huar. unfold canonical_tree, uar_data_node in *.
  destruct (item0 (getElementsByTagName "uam_dir" doc)) as [uam|] eqn:Eu;
    [|done].
  destruct (item0_mask_some _ _ _ _ Hmask Eu) as [uam' ->].
  cbn [attr_of rbind] in *.
  assert (List.map (mask false) (remove_first "uam_dir" doc')
          = List.map (mask false) (remove_first "uam_dir" doc)) as Hmask1
    by (by rewrite <- !remove_first_mask, Hmask).
  destruct (item0 (getElementsByTagName "uar_data" (remove_first "uam_dir" doc)))
    as [uar|] eqn:Er; [|done].
  rewrite (item0_mask _ _ _ _ Hmask1 Er (Huar uar eq_refl)).
  cbn [attr_of rbind] in *.
  destruct (firstChild uar) as [child|]; [|done]. cbn [attr_of rbind] in *.
  destruct (nodeValue child) as [value|]; [|done]. cbn [attr_of rbind] in *.
  destruct (String.eqb (strip value ++ nl) nl).
  - injection Htree as <-. by eexists.
  - destruct (toxml _); [|done]. cbn [rbind] in *. injection Htree as <-.
    eexists. split; [reflexivity|].
    by rewrite <- !assign_first_mask, Hmask1.
Qed.

Lemma config_xml_mask password doc doc' bytes :
  List.map (mask false) doc' = List.map (mask false) doc ->
  config_xml password doc = Ok bytes ->
  (forall uar, uar_data_node doc = Some uar -> elements_in "signature" uar = []) ->
  (forall cfg, hashed_config password doc = Ok cfg ->
               elements_in "signature" cfg = []) ->
  config_xml password doc' = Ok bytes.
Proof.
  intros Hmask Hb Huar Hcfg. unfold config_xml, hashed_config in *.
  destruct (canonical_tree password doc) as [tree|] eqn:Et; [|done].
  destruct (canonical_tree_mask _ _ _ _ Hmask Et Huar) as (tree' & -> & Hm).
  cbn [rbind] in *.
  destruct (item0 (getElementsByTagName "config" tree)) as [cfg|] eqn:Ec;
    [|done].
  by rewrite (item0_mask _ _ _ _ Hm Ec (Hcfg cfg eq_refl)).
Qed.

Lemma append_nil_r s : s ++ "" = s.
Proof. induction s as [|c s IH]; [done|]. by rewrite append_String, IH. Qed.

Lemma count_self s : (0 <? str_count s s)%nat = true.
Proof.
  apply occurs_substring. exists "", "". by rewrite append_empty, append_nil_r.
Qed.

Section round_trip.

Variable parseString : string -> option document.

(** X17.  When the round trip holds.  [sign] followed by
    [verifySignature] returns true for a document on which [sign]
    succeeds, when: the first child of the [signature] element carries a
    node value (it is not an element); the text [sign] leaves parses back
    to the tree that was serialised, as it stands and after the rewriting
    of the white space around [uam_dir]; and neither the [uar_data]
    element that is read nor the [config] element that is hashed holds a
    [signature] element. *)
Theorem sign_then_verify password w text doc docr digest signed child :
  fst (getXMLContents w) = Ok text ->
  parseString text = Some doc ->
  parseString (rewrite_uam_dir text) = Some docr ->
  fst (computeSignature parseString password w) = Ok digest ->
  fst (sign parseString password w) = Ok tt ->
  fst (getXMLContents (snd (sign parseString password w))) = Ok signed ->
  signature_child doc = Ok child ->
  nodeValue child <> None ->
  parseString signed = Some (signed_tree digest doc) ->
  parseString (rewrite_uam_dir signed) = Some (signed_tree digest docr) ->
  (forall uar, uar_data_node docr = Some uar ->
               elements_in "signature" uar = []) ->
  (forall cfg, hashed_config password docr = Ok cfg ->
               elements_in "signature" cfg = []) ->
  fst (verifySignature parseString password (snd (sign parseString password w)))
  = Ok true.
Proof.
  intros Hraw Hp Hpr Hd Hs Hsigned Hchild Hval Hp' Hpr' Huar Hcfg.
  destruct (verifySignature_run parseString password
              (snd (sign parseString password w))) as [m3 H3].
  rewrite H3, Hsigned. cbn [attr_of rbind fst]. clear H3.
  destruct (computeSignature_run parseString password w) as [m1 H1].
  rewrite H1, Hraw in Hd. cbn [attr_of rbind fst] in Hd.
  unfold verified, signature_of, canonical_view, parse in *.
  rewrite Hpr in Hd. rewrite Hp', Hpr'. cbn [rbind] in *.
  destruct (config_xml password docr) as [bytes|] eqn:Eb; [|done].
  cbn [rbind] in Hd. injection Hd as Hd.
  rewrite (config_xml_mask password docr (signed_tree digest docr) bytes
             (mask_signed_tree _ _ _) Eb Huar Hcfg).
  cbn [rbind]. rewrite Hd. clear Hd. unfold signature_child in *.
  unfold signed_tree at 1.
  rewrite item0_assign_first
    by (intros m; by rewrite is_tag_set_firstChild_value).
  destruct (item0 (getElementsByTagName "signature" doc)) as [sn|]; [|done].
  cbn [attr_of rbind fmap option_fmap option_map] in *.
  destruct sn as [tg ats [|c cs]| | | |]; try done.
  cbn in Hchild. injection Hchild as ->.
  cbn [set_firstChild_value firstChild children List.head attr_of rbind].
  destruct child; [by cbn in Hval|..];
    cbn [set_nodeValue nodeValue attr_of rbind]; by rewrite count_self.
Qed.

End round_trip.

(** ** The claims on concrete documents

    The documents below are parsed with [Minidom.parseString]. *)

(** The file system of the examples: a file can be created under any
    name that is not empty and holds no slash, that is, in the current
    directory. *)
Definition current_directory (path : string) : bool :=
  negb (String.eqb path "")
  && all_chars (fun c => negb (Ascii.eqb c "/")) path.

(** An export in the layout of the appliance: [uam_dir] indented by ten
    spaces, [uar_data] with data, and the signature after [config]. *)
Definition export_text : string :=
  "<?xml version='1.0' encoding='UTF-8'?>" ++ nl
  ++ "<eef>" ++ nl
  ++ "  <config Schema=" ++ dq ++ "2.0" ++ dq ++ ">" ++ nl
  ++ "          <uam_dir><![CDATA[/x/y]]></uam_dir>" ++ nl
  ++ "          <uar_data><![CDATA[" ++ nl
  ++ "AAAAAAAAAA==" ++ nl
  ++ "          ]]></uar_data>" ++ nl
  ++ "  </config>" ++ nl
  ++ "  <signature><![CDATA[" ++ nl ++ "abc" ++ nl ++ "]]></signature>" ++ nl
  ++ "</eef>" ++ nl.

(** The end-to-end input of the specification. *)
Definition scenario_text : string :=
  "<eef><config><uam_dir/><uar_data></uar_data><signature></signature></config></eef>".

(** A document whose [signature] element lies inside [config]. *)
Definition inner_signature_text : string :=
  "<eef><config><uam_dir/><uar_data> </uar_data><signature>s</signature></config></eef>".

(** A small document with blank [uar_data] and the signature after
    [config]. *)
Definition small_text : string :=
  "<eef><config><uam_dir/><uar_data> </uar_data></config><signature>s</signature></eef>".

Lemma sign_then_verify_witness :
  fst (verifySignature Minidom.parseString "hellohello"
         (snd (sign Minidom.parseString "hellohello" (loaded export_text))))
  = Ok true.
Proof.
  eapply (sign_then_verify Minidom.parseString "hellohello"
            (loaded export_text) export_text).
  - vm_compute. reflexivity.
  - vm_compute. reflexivity.
  - vm_compute. reflexivity.
  - vm_compute. reflexivity.
  - vm_compute. reflexivity.
  - vm_compute. reflexivity.
  - vm_compute. reflexivity.
  - vm_compute. discriminate.
  - vm_compute. reflexivity.
  - vm_compute. reflexivity.
  - intros uar H. vm_compute in H. injection H as <-. vm_compute. reflexivity.
  - intros cfg H. vm_compute in H. injection H as <-. vm_compute. reflexivity.
Defined.

(** Where the conditions do not hold.  On the end-to-end input of the
    specification [sign] raises AttributeError, its [uar_data] element
    having no child.  On a document with every element filled in but the
    signature inside [config], [sign] succeeds and [verifySignature] then
    returns false: the digest written changes the bytes that are hashed. *)
Lemma sign_then_verify_counterexample :
  fst (sign Minidom.parseString "hellohello" (loaded scenario_text))
  = Raise AttributeError
  /\ fst (sign Minidom.parseString "hellohello" (loaded inner_signature_text))
     = Ok tt
  /\ fst (verifySignature Minidom.parseString "hellohello"
            (snd (sign Minidom.parseString "hellohello"
                    (loaded inner_signature_text))))
     = Ok false.
Proof. vm_compute. auto. Qed.

(** The export with the line ends of a file edited under Windows, a
    carriage return before every newline. *)
Definition crnl : string := String "013" nl.

Definition crlf_export_text : string :=
  "<?xml version='1.0' encoding='UTF-8'?>" ++ crnl
  ++ "<eef>" ++ crnl
  ++ "  <config Schema=" ++ dq ++ "2.0" ++ dq ++ ">" ++ crnl
  ++ "          <uam_dir><![CDATA[/x/y]]></uam_dir>" ++ crnl
  ++ "          <uar_data><![CDATA[" ++ crnl
  ++ "AAAAAAAAAA==" ++ crnl
  ++ "          ]]></uar_data>" ++ crnl
  ++ "  </config>" ++ crnl
  ++ "  <signature><![CDATA[" ++ crnl ++ "abc" ++ crnl ++ "]]></signature>"
  ++ crnl
  ++ "</eef>" ++ crnl.

(** C1.  The round trip fails on this export: it is well formed and has
    the four elements, each with content, the signature after [config].
    [sign] succeeds and writes the digest of the text as it was loaded,
    in which the newline after [</uam_dir>] follows a carriage return and
    is not taken away by the rewriting.  The text [sign] leaves is the
    serialisation of the parsed tree, where the line ends are newlines
    alone; there the rewriting takes the newline away, the bytes hashed
    are others, and [verifySignature] returns false. *)
Theorem sign_then_verify_crlf :
  fst (sign Minidom.parseString "hellohello" (loaded crlf_export_text))
  = Ok tt
  /\ fst (computeSignature Minidom.parseString "hellohello"
            (loaded crlf_export_text))
     = Ok "e8b1d3ae356ec04f6062a5a63153e375c1259aab"
  /\ fst (computeSignature Minidom.parseString "hellohello"
            (snd (sign Minidom.parseString "hellohello"
                    (loaded crlf_export_text))))
     = Ok "e67298a58e820316787345ac3f4006b948e9cde8"
  /\ fst (verifySignature Minidom.parseString "hellohello"
            (snd (sign Minidom.parseString "hellohello"
                    (loaded crlf_export_text))))
     = Ok false.
Proof. vm_compute. auto. Qed.

(** A document whose [signature] element holds a newline and then a CDATA
    section with the digest of the document. *)
Definition split_signature_text : string :=
  "<eef><config><uam_dir/><uar_data> </uar_data></config><signature>" ++ nl
  ++ "<![CDATA[08fcf39a082e3cb3406f6cd2b2ad1a6499a4cfe1]]></signature></eef>".

(** C2 fails as stated.  The digest of the document stands in the text
    content of its [signature] element, after a newline; the first child
    of the element is the text node with the newline, and
    [verifySignature] returns false. *)
Lemma verifySignature_text_content_counterexample :
  fst (computeSignature Minidom.parseString "hellohello"
         (loaded split_signature_text))
  = Ok "08fcf39a082e3cb3406f6cd2b2ad1a6499a4cfe1"
  /\ item0 (getElementsByTagName "signature"
              (default [] (Minidom.parseString split_signature_text)))
     = Some (Element "signature" []
               [Text nl;
                CDATASection "08fcf39a082e3cb3406f6cd2b2ad1a6499a4cfe1"])
  /\ textContent (Element "signature" []
                    [Text nl;
                     CDATASection "08fcf39a082e3cb3406f6cd2b2ad1a6499a4cfe1"])
     = nl ++ "08fcf39a082e3cb3406f6cd2b2ad1a6499a4cfe1"
  /\ fst (verifySignature Minidom.parseString "hellohello"
            (loaded split_signature_text))
     = Ok false.
Proof. vm_compute. auto. Qed.

(** White space around the digest in the node that is read does not
    matter. *)
Example verifySignature_surrounding_whitespace :
  fst (verifySignature Minidom.parseString "hellohello"
         (loaded ("<eef><config><uam_dir/><uar_data> </uar_data></config>"
                  ++ "<signature><![CDATA[" ++ nl
                  ++ "  08fcf39a082e3cb3406f6cd2b2ad1a6499a4cfe1" ++ nl
                  ++ "]]></signature></eef>")))
  = Ok true.
Proof. vm_compute. reflexivity. Qed.

(** A document whose [uar_data] element holds a space and then a CDATA
    section with data. *)
Definition split_uar_data_text : string :=
  "<eef><config><uam_dir/><uar_data> <![CDATA[AAAAAAAAAA==]]></uar_data>"
  ++ "</config><signature>s</signature></eef>".

Lemma canonical_uar_data_witness :
  exists doc tree uar',
    Minidom.parseString (rewrite_uam_dir export_text) = Some doc
    /\ canonical_tree "hellohello" doc = Ok tree
    /\ item0 (getElementsByTagName "uar_data" tree) = Some uar'
    /\ firstChild uar' ≫= nodeValue
       = Some (nl ++ "/tmp/tmp_uar_data_dir,"
               ++ "3cdbd2982a273ebee08f1f6edbf805ed03904a09"
               ++ nl ++ "          ").
Proof.
  edestruct (canonical_uar_data Minidom.parseString "hellohello"
               (loaded export_text) export_text) as (_ & H & _);
    [reflexivity | vm_compute; reflexivity | vm_compute; reflexivity
    | vm_compute; reflexivity | vm_compute; reflexivity
    | vm_compute; reflexivity |].
  destruct H as (uar' & Hi & Hv & _); [vm_compute; discriminate|].
  eexists _, _, uar'.
  split; [vm_compute; reflexivity|]. split; [vm_compute; reflexivity|].
  split; [exact Hi|]. etrans; [exact Hv|]. vm_compute. reflexivity.
Defined.

(** C3 fails as stated.  The text content of this [uar_data] element is
    not blank, and the element is left as it is: its first child, the
    text node with the space, is all that is read. *)
Lemma uar_data_text_content_counterexample :
  strip (textContent (Element "uar_data" []
                        [Text " "; CDATASection "AAAAAAAAAA=="]))
  = "AAAAAAAAAA=="
  /\ rbind (parse Minidom.parseString (rewrite_uam_dir split_uar_data_text))
       (fun doc => rbind (canonical_tree "hellohello" doc)
       (fun tree => attr_of (item0 (getElementsByTagName "uar_data" tree))))
     = Ok (Element "uar_data" [] [Text " "; CDATASection "AAAAAAAAAA=="]).
Proof. vm_compute. auto. Qed.

Lemma uam_dir_removed_witness :
  exists docr tree cfg,
    Minidom.parseString (rewrite_uam_dir export_text) = Some docr
    /\ canonical_tree "hellohello" docr = Ok tree
    /\ item0 (getElementsByTagName "config" tree) = Some cfg
    /\ getElementsByTagName "uam_dir" tree = []
    /\ elements_in "uam_dir" cfg = [].
Proof.
  edestruct (uam_dir_removed_from_view_only Minidom.parseString "hellohello"
               (loaded export_text) export_text) as [H _];
    [vm_compute; reflexivity | vm_compute; reflexivity
    | vm_compute; reflexivity | vm_compute; reflexivity |].
  edestruct H as [Ha Hb]; [vm_compute; reflexivity | vm_compute; reflexivity |].
  eexists _, _, _.
  split; [vm_compute; reflexivity|]. split; [vm_compute; reflexivity|].
  split; [vm_compute; reflexivity|]. split; [exact Ha | exact Hb].
Defined.

(** C4 fails as stated.  The export has [uam_dir] indented by ten spaces;
    [sign] succeeds, and the document it leaves still has the [uam_dir]
    element. *)
Lemma sign_keeps_uam_dir_counterexample :
  occurs "          <uam_dir>" export_text = true
  /\ fst (sign Minidom.parseString "hellohello" (loaded export_text)) = Ok tt
  /\ getElementsByTagName "uam_dir"
       (default []
          (raw (snd (sign Minidom.parseString "hellohello" (loaded export_text)))
           ≫= Minidom.parseString))
     = [Element "uam_dir" [] [CDATASection "/x/y"]].
Proof. vm_compute. auto. Qed.

Lemma sign_raw_content_witness :
  exists body,
    raw (snd (sign Minidom.parseString "hellohello" (loaded small_text)))
    = Some (xml_declaration ++ body)
    /\ prefix "<eef>" body = true
    /\ fst (writeFile Minidom.parseString current_directory "out.xml"
              (snd (sign Minidom.parseString "hellohello" (loaded small_text))))
       = Ok tt
    /\ files (snd (writeFile Minidom.parseString current_directory "out.xml"
                     (snd (sign Minidom.parseString "hellohello"
                             (loaded small_text))))) !! "out.xml"
       = Some (xml_declaration ++ nl ++ body).
Proof.
  edestruct (sign_raw_content Minidom.parseString current_directory
               "hellohello" (loaded small_text) small_text)
    as (digest & sn & child & body & Hd & _ & _ & _ & _ & _ & _ & Hb & Hraw
        & Hw & _);
    [vm_compute; reflexivity | vm_compute; reflexivity
    | vm_compute; reflexivity |].
  vm_compute in Hd. injection Hd as <-.
  vm_compute in Hb. injection Hb as <-.
  eexists. split; [exact Hraw|]. split; [vm_compute; reflexivity|].
  edestruct (Hw "out.xml") as [H1 H2];
    [apply lookup_empty | reflexivity | vm_compute; reflexivity
    | vm_compute; reflexivity |].
  split; [exact H1|]. etrans; [exact H2|]. vm_compute. reflexivity.
Defined.

(** C5 fails as stated.  After [sign], the raw content of this document
    is one line: the tag [<eef>] follows the XML declaration, and no
    newline stands before it. *)
Lemma sign_inserts_no_newline_counterexample :
  raw (snd (sign Minidom.parseString "hellohello" (loaded small_text)))
  = Some (xml_declaration
          ++ "<eef><config><uam_dir/><uar_data> </uar_data></config>"
          ++ "<signature>08fcf39a082e3cb3406f6cd2b2ad1a6499a4cfe1</signature>"
          ++ "</eef>")
  /\ fst (sign Minidom.parseString "hellohello" (loaded small_text)) = Ok tt.
Proof. vm_compute. auto. Qed.

(** Documents without a [signature] element, and without a [config]
    element. *)
Definition no_signature_text : string :=
  "<eef><config><uam_dir/><uar_data> </uar_data></config></eef>".

Definition no_config_text : string :=
  "<eef><uam_dir/><uar_data> </uar_data><signature>s</signature></eef>".

Lemma missing_element_witness :
  fst (sign Minidom.parseString "hellohello" (loaded no_signature_text))
  = Raise AttributeError
  /\ fst (verifySignature Minidom.parseString "hellohello"
            (loaded no_signature_text))
     = Raise AttributeError
  /\ fst (computeSignature Minidom.parseString "hellohello"
            (loaded no_config_text))
     = Raise AttributeError.
Proof.
  edestruct (missing_element_raises Minidom.parseString "hellohello"
               (loaded no_signature_text) no_signature_text) as [H1 _];
    [vm_compute; reflexivity | vm_compute; reflexivity
    | vm_compute; reflexivity | vm_compute; reflexivity |].
  destruct H1 as [Ha Hb]; [vm_compute; reflexivity|].
  edestruct (missing_element_raises Minidom.parseString "hellohello"
               (loaded no_config_text) no_config_text) as [_ H2];
    [vm_compute; reflexivity | vm_compute; reflexivity
    | vm_compute; reflexivity | vm_compute; reflexivity |].
  split; [exact Ha|]. split; [exact Hb|].
  apply H2. right. right. vm_compute. reflexivity.
Defined.

(** A well-formed document, without a [signature] element, that holds the
    text the rewriting looks for inside a processing instruction. *)
Definition instruction_text : string :=
  "<eef><?pi          <uam_dir>?><config><uam_dir/><uar_data> </uar_data>"
  ++ "</config></eef>".

(** A document in ISO-8859-1, without a [signature] element: the byte 233
    is the letter e with an acute accent. *)
Definition latin1_text : string :=
  "<?xml version='1.0' encoding='ISO-8859-1'?>" ++ nl
  ++ "<eef><config><uam_dir>/caf" ++ String "233" "" ++ "</uam_dir>"
  ++ "<uar_data> </uar_data></config></eef>".

(** C6 fails as stated.  The first document parses and has no
    [signature] element, and [sign] and [verifySignature] raise the
    parser's error: the rewriting joins the target of the processing
    instruction and its data, and the rewritten text is not well formed.
    The second has no [signature] element either, and the two methods
    raise UnicodeDecodeError before anything is parsed: its bytes are not
    UTF-8. *)
Lemma missing_signature_counterexample :
  getElementsByTagName "signature" <$> Minidom.parseString instruction_text
  = Some []
  /\ Minidom.parseString (rewrite_uam_dir instruction_text) = None
  /\ fst (sign Minidom.parseString "hellohello" (loaded instruction_text))
     = Raise ExpatError
  /\ fst (verifySignature Minidom.parseString "hellohello"
            (loaded instruction_text))
     = Raise ExpatError
  /\ fst (sign Minidom.parseString "hellohello" (loaded latin1_text))
     = Raise UnicodeDecodeError
  /\ fst (verifySignature Minidom.parseString "hellohello"
            (loaded latin1_text))
     = Raise UnicodeDecodeError.
Proof. vm_compute. auto 10. Qed.

Lemma writeFile_existing_witness :
  exists w',
    writeFile Minidom.parseString current_directory "out.xml"
      (World (GsaConfig (Some small_text)) {[ "out.xml" := "old" ]} [])
    = (Raise (SystemExit 1), w')
    /\ files w' = {[ "out.xml" := "old" ]}
    /\ files w' !! "out.xml" = Some "old"
    /\ self w' = GsaConfig (Some small_text).
Proof.
  exact (writeFile_existing Minidom.parseString current_directory
           "out.xml" "old"
           (World (GsaConfig (Some small_text)) {[ "out.xml" := "old" ]} [])
           (lookup_singleton_eq _ _)).
Defined.

(** A document whose [uar_data] element is empty. *)
Definition childless_text : string :=
  "<eef><config><uam_dir/><uar_data/></config><signature>s</signature></eef>".

Lemma computeSignature_childless_witness :
  fst (computeSignature Minidom.parseString "hellohello" (loaded childless_text))
  = Raise AttributeError
  /\ fst (sign Minidom.parseString "hellohello" (loaded childless_text))
     = Raise AttributeError
  /\ fst (verifySignature Minidom.parseString "hellohello"
            (loaded childless_text))
     = Raise AttributeError.
Proof.
  eapply (computeSignature_childless_uar_data Minidom.parseString "hellohello"
            (loaded childless_text) childless_text).
  - vm_compute. reflexivity.
  - vm_compute. reflexivity.
  - vm_compute. discriminate.
  - vm_compute. reflexivity.
  - vm_compute. reflexivity.
Defined.

(** Blank content, one white-space text node, is accepted. *)
Example computeSignature_blank_uar_data :
  fst (computeSignature Minidom.parseString "hellohello" (loaded small_text))
  = Ok "08fcf39a082e3cb3406f6cd2b2ad1a6499a4cfe1".
Proof. vm_compute. reflexivity. Qed.

(** The export with an empty [uam_dir] element: [toxml] writes the
    element as an empty-element tag, which the rewriting does not match,
    and the signature [sign] wrote is not the one [verifySignature]
    computes. *)
Definition empty_uam_dir_text : string :=
  "<eef>" ++ nl
  ++ "  <config>" ++ nl
  ++ "          <uam_dir></uam_dir>" ++ nl
  ++ "          <uar_data> </uar_data>" ++ nl
  ++ "  </config>" ++ nl
  ++ "  <signature>s</signature>" ++ nl
  ++ "</eef>".

Example sign_then_verify_empty_uam_dir :
  fst (sign Minidom.parseString "hellohello" (loaded empty_uam_dir_text)) = Ok tt
  /\ fst (verifySignature Minidom.parseString "hellohello"
            (snd (sign Minidom.parseString "hellohello"
                    (loaded empty_uam_dir_text))))
     = Ok false.
Proof. vm_compute. auto. Qed.

(** * The rest of the class, and how its methods compose *)

(** An assignment that is idempotent on the elements it reaches gives the
    same tree when it is made a second time. *)
Lemma update_in_tag name f m :
  is_tag name m = true -> update_in name f m = Some (f m).
Proof.
  intros Hm. destruct (is_tag_Element _ _ Hm) as (t & a & cs & -> & Et).
  by rewrite update_in_Element, Et.
Qed.

Lemma update_first_idem name (g : node -> node) ns ns' :
  Forall (fun c => forall r, update_in name (fun m => Some (g m)) c = Some r ->
                    exists c', r = Some c'
                      /\ update_in name (fun m => Some (g m)) c' = Some (Some c')) ns ->
  update_first name (fun m => Some (g m)) ns = Some ns' ->
  update_first name (fun m => Some (g m)) ns' = Some ns'.
Proof.
  intros Hall. revert ns'.
  induction Hall as [|c ns Hc _ IH]; [done|].
  intros ns'. cbn [update_first].
  destruct (update_in name _ c) as [r|] eqn:Ec.
  - destruct (Hc r eq_refl) as (c' & -> & Hc'). intros [= <-].
    cbn [update_first]. by rewrite Hc'.
  - destruct (update_first name _ ns) as [ns1|] eqn:E1; [|done].
    intros [= <-]. cbn [update_first]. rewrite Ec.
    by rewrite (IH ns1 eq_refl).
Qed.

Lemma update_in_idem name (g : node -> node) n r :
  (forall m, is_tag name m = true ->
             is_tag name (g m) = true /\ g (g m) = g m) ->
  update_in name (fun m => Some (g m)) n = Some r ->
  exists n', r = Some n'
    /\ update_in name (fun m => Some (g m)) n' = Some (Some n').
Proof.
  intros Hg. revert r.
  induction n as [t a cs IH| | | |] using node_forall_ind; try done.
  intros r. rewrite update_in_Element.
  destruct (String.eqb t name) eqn:Et.
  - intros [= <-]. eexists. split; [done|].
    destruct (Hg (Element t a cs) Et) as [Htag Hidem].
    by rewrite update_in_tag, Hidem.
  - destruct (update_first name _ cs) as [cs'|] eqn:E; [|done].
    intros [= <-]. eexists. split; [done|].
    rewrite update_in_Element, Et.
    by rewrite (update_first_idem _ _ _ _ IH E).
Qed.

Lemma assign_first_idem name (g : node -> node) ns :
  (forall m, is_tag name m = true ->
             is_tag name (g m) = true /\ g (g m) = g m) ->
  assign_first name g (assign_first name g ns) = assign_first name g ns.
Proof.
  intros Hg. unfold assign_first.
  destruct (update_first name _ ns) as [ns'|] eqn:E;
    cbn [default from_option id]; [|by rewrite E].
  erewrite update_first_idem; [done| |exact E].
  apply Forall_forall. intros c _ r. by apply update_in_idem.
Qed.

Lemma signed_tree_idem digest doc :
  signed_tree digest (signed_tree digest doc) = signed_tree digest doc.
Proof.
  apply assign_first_idem. intros m Hm.
  rewrite is_tag_set_firstChild_value. split; [done|].
  destruct m as [t a [|c cs]| | | |]; try done.
  cbn [set_firstChild_value]. by destruct c.
Qed.

Section object.

Variable parseString : string -> option document.
Variable creatable : string -> bool.

(** [gsaConfig(fileName)]: a new object, whose [configXMLString] is the
    class attribute [None]; a file name that is given and not empty is
    opened. *)
Definition __init__ (fileName : option string) : M unit :=
  (fun w => (Ok tt, World (GsaConfig None) (files w) (records w))) ;;
  match fileName with
  | Some name => if String.eqb name "" then ret tt else openFile name
  | None => ret tt
  end.

Lemma openFile_absent fileName w :
  files w !! fileName = None ->
  openFile fileName w
  = (Raise (SystemExit 1),
     World (self w) (files w)
       ((ERROR, "Input file does not exist") :: records w)).
Proof.
  intros Hf. unfold openFile. run. rewrite Hf.
  rewrite bool_decide_eq_false_2 by (by intros [? ?]). done.
Qed.

Lemma openFile_present fileName contents w :
  files w !! fileName = Some contents ->
  openFile fileName w
  = (Ok tt, World (GsaConfig (Some contents)) (files w) (records w)).
Proof.
  intros Hf. unfold openFile. run. rewrite Hf.
  rewrite bool_decide_eq_true_2 by eauto. run. by rewrite Hf.
Qed.

Lemma init_run fileName w :
  __init__ fileName w
  = let w0 := World (GsaConfig None) (files w) (records w) in
    match fileName with
    | Some name => if String.eqb name "" then (Ok tt, w0) else openFile name w0
    | None => (Ok tt, w0)
    end.
Proof.
  unfold __init__, bind.
  destruct fileName as [name|]; [destruct (String.eqb name "")|]; reflexivity.
Qed.

Lemma writeFile_absent filename w :
  files w !! filename = None ->
  writeFile parseString creatable filename w
  = match raw w with
    | None => (Raise TypeError, w)
    | Some text =>
        match parseString text with
        | None => (Raise ExpatError, w)
        | Some doc =>
            if negb (creatable filename) then (Raise IOError, w) else
            let w' :=
              World (self w) (<[filename := ""]> (files w))
                ((DEBUG, "Writing XML to " ++ filename) :: records w) in
            match doc_toxml doc with
            | Ok xml =>
                (Ok tt,
                 World (self w)
                   (<[filename := replace_first "<eef>" (nl ++ "<eef>") xml]>
                      (files w))
                   ((DEBUG, "Writing XML to " ++ filename) :: records w))
            | Raise e => (Raise e, w')
            end
        end
    end.
Proof.
  intros Hf. destruct w as [[s] fs log]. unfold writeFile, parse. run.
  cbn [files] in Hf. rewrite Hf.
  rewrite bool_decide_eq_false_2 by (by intros [? ?]). run.
  destruct s as [text|]; run; [|done].
  destruct (parseString text) as [doc|]; run; [|done].
  destruct (creatable filename); run; [|done].
  destruct (doc_toxml doc) as [xml|e]; run; [|done].
  by rewrite insert_insert_eq.
Qed.

(** X1.  Building the object on a file that does not exist: the
    constructor logs the error and leaves through [sys.exit(1)]; nothing
    is loaded and no file is touched. *)
Theorem init_missing_file fileName w :
  fileName <> "" ->
  files w !! fileName = None ->
  exists w',
    __init__ (Some fileName) w = (Raise (SystemExit 1), w')
    /\ raw w' = None
    /\ files w' = files w
    /\ records w' = (ERROR, "Input file does not exist") :: records w.
Proof.
  intros Hn Hf. rewrite init_run. cbn zeta.
  apply String.eqb_neq in Hn. rewrite Hn.
  rewrite openFile_absent by done. eexists. split; [reflexivity|]. done.
Qed.

(** X2.  An object built without a file name, or with the empty name,
    holds no document: reading its content fails with AttributeError, and
    so do [computeSignature], [sign] and [verifySignature]. *)
Theorem unloaded_object fileName password w :
  fileName = None \/ fileName = Some "" ->
  fst (__init__ fileName w) = Ok tt
  /\ raw (snd (__init__ fileName w)) = None
  /\ files (snd (__init__ fileName w)) = files w
  /\ fst (getXMLContents (snd (__init__ fileName w))) = Raise AttributeError
  /\ fst (computeSignature parseString password (snd (__init__ fileName w)))
     = Raise AttributeError
  /\ fst (sign parseString password (snd (__init__ fileName w)))
     = Raise AttributeError
  /\ fst (verifySignature parseString password (snd (__init__ fileName w)))
     = Raise AttributeError.
Proof.
  intros Hn.
  assert (__init__ fileName w
          = (Ok tt, World (GsaConfig None) (files w) (records w))) as ->
    by (rewrite init_run; by destruct Hn as [-> | ->]).
  set (w0 := World (GsaConfig None) (files w) (records w)).
  destruct (computeSignature_run parseString password w0) as [m1 H1].
  destruct (sign_run parseString password w0) as [m2 H2].
  destruct (verifySignature_run parseString password w0) as [m3 H3].
  cbn [fst snd]. rewrite H1, H2, H3. done.
Qed.

(** X3.  The object built on a file and verified at once: the outcome is
    that of checking the text of the file, as [encode("utf-8")] returns
    it, whatever the state before; the files are as they were, and the
    object holds the bytes of the file. *)
Theorem init_then_verifySignature fileName contents password w :
  fileName <> "" ->
  files w !! fileName = Some contents ->
  fst ((__init__ (Some fileName) ;; verifySignature parseString password) w)
  = rbind (encode_utf8 contents) (verified parseString password)
  /\ files (snd ((__init__ (Some fileName) ;;
                  verifySignature parseString password) w)) = files w
  /\ raw (snd ((__init__ (Some fileName) ;;
                verifySignature parseString password) w)) = Some contents.
Proof.
  intros Hn Hf. unfold bind. rewrite init_run. cbn zeta.
  apply String.eqb_neq in Hn. rewrite Hn.
  rewrite (openFile_present _ contents) by done. cbn beta iota. cbn [files records].
  destruct (verifySignature_run parseString password
              (World (GsaConfig (Some contents)) (files w) (records w)))
    as [msgs ->].
  by rewrite getXMLContents_fst.
Qed.

(** X4.  The object built on the input file, signed, and written to a
    path that does not exist and at which a file can be created: when the
    bytes of the file are UTF-8, their text can be signed and the signed
    text parses and serialises, the three calls succeed; the output file
    holds that serialisation with a newline put before the first [<eef>],
    the input file and every other file are as they were, and the object
    holds the signed text.  When no file can be created at the path,
    [writeFile] raises IOError after [sign] has succeeded, and the files
    are as they were. *)
Theorem init_sign_writeFile inputFile outputFile contents password w
    text signed doc written :
  inputFile <> "" ->
  files w !! inputFile = Some contents ->
  files w !! outputFile = None ->
  encode_utf8 contents = Ok text ->
  signed_text parseString password text = Ok signed ->
  parseString signed = Some doc ->
  doc_toxml doc = Ok written ->
  exists w',
    (__init__ (Some inputFile) ;; sign parseString password ;;
     writeFile parseString creatable outputFile) w
    = (if creatable outputFile then Ok tt else Raise IOError, w')
    /\ files w'
       = (if creatable outputFile
          then <[outputFile := replace_first "<eef>" (nl ++ "<eef>") written]>
                 (files w)
          else files w)
    /\ files w' !! inputFile = Some contents
    /\ raw w' = Some signed.
Proof.
  intros Hn Hin Hout Ht Hs Hp Hx. unfold bind at 1. rewrite init_run.
  cbn zeta. apply String.eqb_neq in Hn. rewrite Hn.
  rewrite (openFile_present _ contents) by done. cbn beta iota.
  cbn [files records].
  set (w1 := World (GsaConfig (Some contents)) (files w) (records w)).
  destruct (sign_run parseString password w1) as [msgs Hrun].
  unfold bind. rewrite Hrun, getXMLContents_fst. subst w1.
  cbn [raw self configXMLString attr_of rbind].
  rewrite Ht. cbn [rbind]. rewrite Hs. rewrite writeFile_absent by done.
  cbn [raw self configXMLString]. rewrite Hp.
  destruct (creatable outputFile); cbn [negb]; cbn zeta.
  - rewrite Hx.
    eexists. split; [reflexivity|]. cbn [files raw self configXMLString].
    split; [done|]. split; [|done].
    rewrite lookup_insert_ne; [done|]. intros ->. congruence.
  - eexists. split; [reflexivity|]. cbn [files raw self configXMLString].
    done.
Qed.

(** X5.  [writeFile] parses the content before it opens the file: on a
    path that does not exist, when nothing is loaded (TypeError) or the
    content does not parse (ExpatError), the error is raised and no file
    is created; the state is as it was. *)
Theorem writeFile_unparsable filename w :
  files w !! filename = None ->
  match raw w with Some text => parseString text = None | None => True end ->
  writeFile parseString creatable filename w
  = (Raise (match raw w with Some _ => ExpatError | None => TypeError end), w).
Proof.
  intros Hf Hp. rewrite writeFile_absent by done.
  destruct (raw w) as [text|]; [|done]. by rewrite Hp.
Qed.

(** X6.  [sign] and [verifySignature] write no file, and
    [verifySignature] leaves the object as it found it; each only adds
    records to the log. *)
Theorem sign_verifySignature_frame password w :
  files (snd (sign parseString password w)) = files w
  /\ files (snd (verifySignature parseString password w)) = files w
  /\ self (snd (verifySignature parseString password w)) = self w
  /\ (exists msgs,
        records (snd (sign parseString password w)) = (msgs ++ records w)%list)
  /\ (exists msgs,
        records (snd (verifySignature parseString password w))
        = (msgs ++ records w)%list).
Proof.
  destruct (sign_run parseString password w) as [m2 H2].
  destruct (verifySignature_run parseString password w) as [m3 H3].
  rewrite H2, H3.
  destruct (rbind (fst (getXMLContents w)) (signed_text parseString password));
    cbn [fst snd files self records]; eauto 10.
Qed.

Lemma length_append (a b : string) :
  String.length (a ++ b) = (String.length a + String.length b)%nat.
Proof.
  induction a as [|c a IH]; [done|].
  rewrite append_String. cbn [String.length]. by rewrite IH.
Qed.

(** X7.  A signature that [computeSignature] returns is forty lower-case
    hexadecimal digits. *)
Theorem computeSignature_hex_digest password w digest :
  fst (computeSignature parseString password w) = Ok digest ->
  String.length digest = 40%nat /\ all_chars is_hex digest = true.
Proof.
  destruct (computeSignature_run parseString password w) as [m1 H1].
  rewrite H1. cbn [fst].
  destruct (fst (getXMLContents w)) as [text|]; [|done].
  cbn [attr_of rbind]. unfold signature_of.
  destruct (canonical_view parseString password text) as [bytes|]; [|done].
  cbn [rbind]. intros Hd. injection Hd as <-. apply hmac_sha1_hex_spec.
Qed.

(** X8.  A document whose signature value, the node value of the first
    child of the [signature] element in the text that [getXMLContents]
    returns, is shorter than forty characters is never verified, whatever
    the password. *)
Theorem verifySignature_short_signature password w text doc child value :
  fst (getXMLContents w) = Ok text ->
  parseString text = Some doc ->
  signature_child doc = Ok child ->
  nodeValue child = Some value ->
  (String.length value < 40)%nat ->
  fst (verifySignature parseString password w) <> Ok true.
Proof.
  intros Hraw Hp Hc Hv Hlen.
  destruct (verifySignature_run parseString password w) as [m3 H3].
  rewrite H3, Hraw. cbn [fst attr_of rbind]. unfold verified, signature_of, parse.
  destruct (canonical_view parseString password text) as [bytes|]; [|done].
  cbn [rbind]. rewrite Hp. cbn [rbind]. rewrite Hc. cbn [rbind]. rewrite Hv.
  cbn [attr_of rbind]. intros Hok. injection Hok as Hok.
  apply occurs_substring in Hok as (a & b & Hab).
  destruct (hmac_sha1_hex_spec password bytes) as [H40 _].
  rewrite Hab, !length_append, H40 in Hlen. lia.
Qed.

(** X9.  Signing twice.  Under the conditions of the round trip (the
    signed text parses back to the tree that was serialised, as it stands
    and after the rewriting of the white space around [uam_dir], and
    neither the [uar_data] element read nor the [config] element hashed
    holds a [signature] element), a second [sign] with the same password
    succeeds and leaves the signed text as it is. *)
Theorem sign_twice password w text doc docr digest signed :
  fst (getXMLContents w) = Ok text ->
  parseString text = Some doc ->
  parseString (rewrite_uam_dir text) = Some docr ->
  fst (computeSignature parseString password w) = Ok digest ->
  fst (sign parseString password w) = Ok tt ->
  fst (getXMLContents (snd (sign parseString password w))) = Ok signed ->
  parseString signed = Some (signed_tree digest doc) ->
  parseString (rewrite_uam_dir signed) = Some (signed_tree digest docr) ->
  (forall uar, uar_data_node docr = Some uar ->
               elements_in "signature" uar = []) ->
  (forall cfg, hashed_config password docr = Ok cfg ->
               elements_in "signature" cfg = []) ->
  fst (sign parseString password (snd (sign parseString password w))) = Ok tt
  /\ raw (snd (sign parseString password (snd (sign parseString password w))))
     = raw (snd (sign parseString password w)).
Proof.
  intros Hraw Hp Hpr Hd Hs Hsigned Hp' Hpr' Huar Hcfg.
  destruct (sign_run parseString password
              (snd (sign parseString password w))) as [m2 H2].
  rewrite H2, Hsigned. cbn [attr_of rbind]. clear H2 Hsigned.
  destruct (computeSignature_run parseString password w) as [m1 H1].
  rewrite H1, Hraw in Hd. cbn [attr_of rbind fst] in Hd. clear H1.
  destruct (sign_run parseString password w) as [m0 H0].
  rewrite H0, Hraw in Hs. rewrite H0, Hraw. cbn [attr_of rbind] in *.
  clear H0.
  destruct (signed_text parseString password text) as [xml|] eqn:Ex;
    [|done].
  cbn [snd raw self configXMLString files records].
  clear Hs. unfold signed_text in *. rewrite Hd in Ex. cbn [rbind] in Ex.
  unfold signature_of, canonical_view, parse in *.
  rewrite Hp in Ex. rewrite Hpr in Hd. rewrite Hp', Hpr'. cbn [rbind] in *.
  destruct (config_xml password docr) as [bytes|] eqn:Eb; [|done].
  cbn [rbind] in Hd. injection Hd as Hd.
  rewrite (config_xml_mask password docr (signed_tree digest docr) bytes
             (mask_signed_tree _ _ _) Eb Huar Hcfg).
  cbn [rbind]. rewrite Hd. clear Hd Eb.
  destruct (signature_child doc) as [child|] eqn:Ec; [|done].
  cbn [rbind] in Ex.
  assert (exists n, signature_child (signed_tree digest doc) = Ok n)
    as [n ->].
  { unfold signature_child in *. unfold signed_tree.
    rewrite item0_assign_first
      by (intros m; by rewrite is_tag_set_firstChild_value).
    destruct (item0 (getElementsByTagName "signature" doc)) as [sn|]; [|done].
    cbn [attr_of rbind fmap option_fmap option_map] in *.
    destruct sn as [tg ats [|c cs]| | | |]; try done.
    cbn [set_firstChild_value firstChild children List.head attr_of rbind].
    eauto. }
  cbn [rbind].
  rewrite signed_tree_idem, Ex. done.
Qed.

End object.

(** ** The added properties on concrete documents *)

Lemma init_missing_file_witness :
  exists w',
    __init__ (Some "in.xml") (loaded small_text) = (Raise (SystemExit 1), w')
    /\ raw w' = None
    /\ files w' = files (loaded small_text)
    /\ records w'
       = (ERROR, "Input file does not exist") :: records (loaded small_text).
Proof.
  apply (init_missing_file "in.xml" (loaded small_text));
    [discriminate | apply lookup_empty].
Defined.

Lemma unloaded_object_witness :
  fst (__init__ (Some "") (loaded small_text)) = Ok tt
  /\ raw (snd (__init__ (Some "") (loaded small_text))) = None
  /\ files (snd (__init__ (Some "") (loaded small_text)))
     = files (loaded small_text)
  /\ fst (getXMLContents (snd (__init__ (Some "") (loaded small_text))))
     = Raise AttributeError
  /\ fst (computeSignature Minidom.parseString "hellohello"
            (snd (__init__ (Some "") (loaded small_text))))
     = Raise AttributeError
  /\ fst (sign Minidom.parseString "hellohello"
            (snd (__init__ (Some "") (loaded small_text))))
     = Raise AttributeError
  /\ fst (verifySignature Minidom.parseString "hellohello"
            (snd (__init__ (Some "") (loaded small_text))))
     = Raise AttributeError.
Proof.
  apply (unloaded_object Minidom.parseString (Some "") "hellohello"
           (loaded small_text)).
  right. reflexivity.
Defined.

(** A file system with one file, [in.xml], holding the small document. *)
Definition one_file : world :=
  World (GsaConfig None) {[ "in.xml" := small_text ]} [].

Lemma init_then_verifySignature_witness :
  fst ((__init__ (Some "in.xml") ;;
        verifySignature Minidom.parseString "hellohello") one_file)
  = rbind (encode_utf8 small_text)
      (verified Minidom.parseString "hellohello")
  /\ files (snd ((__init__ (Some "in.xml") ;;
                  verifySignature Minidom.parseString "hellohello") one_file))
     = files one_file
  /\ raw (snd ((__init__ (Some "in.xml") ;;
                verifySignature Minidom.parseString "hellohello") one_file))
     = Some small_text.
Proof.
  apply (init_then_verifySignature Minidom.parseString "in.xml" small_text
           "hellohello" one_file);
    [discriminate | apply lookup_singleton_eq].
Defined.

(** The small document, signed with the password [hellohello]. *)
Definition small_signed_text : string :=
  xml_declaration
  ++ "<eef><config><uam_dir/><uar_data> </uar_data></config>"
  ++ "<signature>08fcf39a082e3cb3406f6cd2b2ad1a6499a4cfe1</signature></eef>".

Lemma init_sign_writeFile_witness :
  exists w',
    (__init__ (Some "in.xml") ;; sign Minidom.parseString "hellohello" ;;
     writeFile Minidom.parseString current_directory "out.xml") one_file
    = (Ok tt, w')
    /\ files w'
       = <["out.xml" := replace_first "<eef>" (nl ++ "<eef>") small_signed_text]>
           (files one_file)
    /\ files w' !! "in.xml" = Some small_text
    /\ raw w' = Some small_signed_text.
Proof.
  eapply (init_sign_writeFile Minidom.parseString current_directory
            "in.xml" "out.xml" small_text "hellohello" one_file
            small_text small_signed_text).
  - discriminate.
  - apply lookup_singleton_eq.
  - apply lookup_singleton_ne. discriminate.
  - vm_compute. reflexivity.
  - vm_compute. reflexivity.
  - vm_compute. reflexivity.
  - vm_compute. reflexivity.
Defined.

Lemma writeFile_unparsable_witness :
  writeFile Minidom.parseString current_directory "out.xml" (loaded "<eef>")
  = (Raise ExpatError, loaded "<eef>").
Proof.
  apply (writeFile_unparsable Minidom.parseString current_directory
           "out.xml" (loaded "<eef>")).
  - apply lookup_empty.
  - vm_compute. reflexivity.
Defined.

Lemma computeSignature_hex_digest_witness :
  String.length "08fcf39a082e3cb3406f6cd2b2ad1a6499a4cfe1" = 40%nat
  /\ all_chars is_hex "08fcf39a082e3cb3406f6cd2b2ad1a6499a4cfe1" = true.
Proof.
  apply (computeSignature_hex_digest Minidom.parseString "hellohello"
           (loaded small_text)).
  vm_compute. reflexivity.
Defined.

Lemma verifySignature_short_signature_witness :
  fst (verifySignature Minidom.parseString "hellohello" (loaded small_text))
  <> Ok true.
Proof.
  eapply (verifySignature_short_signature Minidom.parseString "hellohello"
            (loaded small_text) small_text).
  - vm_compute. reflexivity.
  - vm_compute. reflexivity.
  - vm_compute. reflexivity.
  - vm_compute. reflexivity.
  - vm_compute. lia.
Defined.

Lemma sign_twice_witness :
  fst (sign Minidom.parseString "hellohello"
         (snd (sign Minidom.parseString "hellohello" (loaded export_text))))
  = Ok tt
  /\ raw (snd (sign Minidom.parseString "hellohello"
                 (snd (sign Minidom.parseString "hellohello"
                         (loaded export_text)))))
     = raw (snd (sign Minidom.parseString "hellohello" (loaded export_text))).
Proof.
  eapply (sign_twice Minidom.parseString "hellohello"
            (loaded export_text) export_text).
  - vm_compute. reflexivity.
  - vm_compute. reflexivity.
  - vm_compute. reflexivity.
  - vm_compute. reflexivity.
  - vm_compute. reflexivity.
  - vm_compute. reflexivity.
  - vm_compute. reflexivity.
  - vm_compute. reflexivity.
  - intros uar H. vm_compute in H. injection H as <-. vm_compute. reflexivity.
  - intros cfg H. vm_compute in H. injection H as <-. vm_compute. reflexivity.
Defined.

(** * Class [gsaWebInterface]: the methods that compute on strings *)

(** [s.replace('&amp;', '&')] *)
Definition _unescape (s : string) : string := re_sub "&amp;" "&" s.

Definition BOUNDARY : string := "----------ThIs_Is_tHe_bouNdaRY_$".

Definition CRLF : string := String "013"%char (String "010"%char EmptyString).

(** [sep.join(lines)] *)
Fixpoint join (sep : string) (lines : list string) : string :=
  match lines with
  | [] => ""
  | l :: ls =>
      match ls with
      | [] => l
      | _ :: _ => l ++ sep ++ join sep ls
      end
  end.

(** Returns [(content_type, body)].  The two loops append to [lines]. *)
Definition _encode_multipart_formdata
    (fields : list (string * string))
    (files : list (string * string * string)) : string * string :=
  let lines : list string := [] in
  let lines :=
    List.fold_left
      (fun lines '(key, value) =>
         lines ++ [ ("--" ++ BOUNDARY)%string;
                    ("Content-Disposition: form-data; name="
                     ++ dq ++ key ++ dq)%string;
                    "";
                    value ])%list
      fields lines in
  let lines :=
    List.fold_left
      (fun lines '(key, filename, value) =>
         lines ++ [ ("--" ++ BOUNDARY)%string;
                    ("Content-Disposition: form-data; name="
                     ++ dq ++ key ++ dq
                     ++ "; filename=" ++ dq ++ filename ++ dq)%string;
                    "Content-Type: text/xml";
                    "";
                    value ])%list
      files lines in
  let lines := (lines ++ [("--" ++ BOUNDARY ++ "--")%string])%list in
  let lines := (lines ++ [""])%list in
  let body := join CRLF lines in
  let content_type := "multipart/form-data; boundary=" ++ BOUNDARY in
  (content_type, body).

(** What the body is made of: one part for each field, one for each file,
    every line ended by CRLF, and the closing delimiter. *)
Definition field_part (field : string * string) : string :=
  let '(key, value) := field in
  "--" ++ BOUNDARY ++ CRLF
  ++ "Content-Disposition: form-data; name=" ++ dq ++ key ++ dq ++ CRLF
  ++ CRLF
  ++ value ++ CRLF.

Definition file_part (file : string * string * string) : string :=
  let '(key, filename, value) := file in
  "--" ++ BOUNDARY ++ CRLF
  ++ "Content-Disposition: form-data; name=" ++ dq ++ key ++ dq
  ++ "; filename=" ++ dq ++ filename ++ dq ++ CRLF
  ++ "Content-Type: text/xml" ++ CRLF
  ++ CRLF
  ++ value ++ CRLF.

Fixpoint concat_parts (parts : list string) : string :=
  match parts with
  | [] => ""
  | p :: ps => p ++ concat_parts ps
  end.

(** Escaping the ampersand, as in the attribute values of a page. *)
Definition escape_amp (s : string) : string := re_sub "&" "&amp;" s.

Lemma append_assoc (a b c : string) : (a ++ b) ++ c = a ++ b ++ c.
Proof.
  induction a as [|x a IH]; [done|]. by rewrite !append_String, IH.
Qed.

Lemma prefix_nil s : prefix "" s = true.
Proof. by destruct s. Qed.

Lemma escape_amp_String c s :
  escape_amp (String c s)
  = if Ascii.eqb c "&"%char then "&amp;" ++ escape_amp s
    else String c (escape_amp s).
Proof.
  unfold escape_amp, re_sub. cbn [replace_from prefix String.length Nat.sub].
  rewrite prefix_nil.
  destruct (ascii_dec "&"%char c) as [<-|Hne].
  - vm_compute. reflexivity.
  - assert (Ascii.eqb c "&" = false) as ->; [|done].
    apply Ascii.eqb_neq. congruence.
Qed.

(** X10.  [_unescape] undoes the escaping of ampersands: a string in which
    every [&] was written [&amp;] comes back as it was. *)
Theorem unescape_escape_amp s : _unescape (escape_amp s) = s.
Proof.
  induction s as [|c s IH]; [reflexivity|].
  rewrite escape_amp_String. destruct (Ascii.eqb c "&") eqn:Ec.
  - apply Ascii.eqb_eq in Ec as ->. unfold _unescape, re_sub in *.
    rewrite !append_String, append_empty.
    cbn [replace_from prefix String.length Nat.sub].
    destruct (ascii_dec "&" "&"); [|done].
    destruct (ascii_dec "a" "a"); [|done].
    destruct (ascii_dec "m" "m"); [|done].
    destruct (ascii_dec "p" "p"); [|done].
    destruct (ascii_dec ";" ";"); [|done].
    by rewrite prefix_nil, append_String, append_empty, IH.
  - unfold _unescape, re_sub in *. cbn [replace_from prefix].
    destruct (ascii_dec "&" c) as [<-|Hne]; [done|]. by rewrite IH.
Qed.

Lemma join_terminated sep lines :
  join sep (lines ++ [""])%list
  = concat_parts (List.map (fun l => l ++ sep) lines).
Proof.
  induction lines as [|l ls IH]; [reflexivity|].
  cbn [app List.map concat_parts join]. rewrite <- IH.
  destruct (ls ++ [""])%list eqn:E; [by destruct ls|].
  by rewrite append_assoc.
Qed.

Lemma concat_parts_app a b :
  concat_parts (a ++ b)%list = concat_parts a ++ concat_parts b.
Proof.
  induction a as [|p a IH]; [reflexivity|].
  cbn [app concat_parts]. by rewrite IH, append_assoc.
Qed.

Lemma fold_left_lines {A} (g : list string -> A -> list string)
    (f : A -> list string) (l : list A) acc :
  (forall acc x, g acc x = (acc ++ f x)%list) ->
  List.fold_left g l acc = (acc ++ List.concat (List.map f l))%list.
Proof.
  intros Hg. revert acc.
  induction l as [|x l IH]; intros acc; cbn [List.fold_left].
  - by rewrite app_nil_r.
  - rewrite IH, Hg. cbn [List.map List.concat]. by rewrite app_assoc.
Qed.

Lemma concat_parts_lines {A} (f : A -> list string) (part : A -> string) sep l :
  (forall x, concat_parts (List.map (fun l => l ++ sep) (f x)) = part x) ->
  concat_parts (List.map (fun l => l ++ sep) (List.concat (List.map f l)))
  = concat_parts (List.map part l).
Proof.
  intros Hf. induction l as [|x l IH]; [reflexivity|].
  cbn [List.map List.concat concat_parts].
  by rewrite map_app, concat_parts_app, Hf, IH.
Qed.

(** The lines a field and a file add. *)
Definition field_lines (field : string * string) : list string :=
  let '(key, value) := field in
  [ "--" ++ BOUNDARY;
    "Content-Disposition: form-data; name=" ++ dq ++ key ++ dq;
    ""; value ].

Definition file_lines (file : string * string * string) : list string :=
  let '(key, filename, value) := file in
  [ "--" ++ BOUNDARY;
    "Content-Disposition: form-data; name=" ++ dq ++ key ++ dq
    ++ "; filename=" ++ dq ++ filename ++ dq;
    "Content-Type: text/xml"; ""; value ].

Lemma multipart_body fields files :
  _encode_multipart_formdata fields files
  = ("multipart/form-data; boundary=" ++ BOUNDARY,
     concat_parts (List.map field_part fields)
     ++ concat_parts (List.map file_part files)
     ++ "--" ++ BOUNDARY ++ "--" ++ CRLF).
Proof.
  unfold _encode_multipart_formdata. f_equal.
  rewrite join_terminated.
  rewrite (fold_left_lines _ file_lines) by (by intros acc [[? ?] ?]).
  rewrite (fold_left_lines _ field_lines) by (by intros acc [? ?]).
  cbn [app]. rewrite !map_app, !concat_parts_app.
  rewrite (concat_parts_lines _ field_part), (concat_parts_lines _ file_part).
  - cbn [List.map concat_parts]. by rewrite append_nil_r, !append_assoc.
  - intros [[key filename] value].
    cbn [List.map concat_parts file_lines file_part].
    by rewrite append_nil_r, !append_assoc.
  - intros [key value]. cbn [List.map concat_parts field_lines field_part].
    by rewrite append_nil_r, !append_assoc.
Qed.

(** X11.  The body of the multipart message: one part for each field, in
    order, then one part for each file, then the closing delimiter; every
    line, the last one included, ends with CRLF, and the values are copied
    as they are.  The content type names the same boundary, whatever the
    input. *)
Theorem encode_multipart_formdata_body fields files :
  _encode_multipart_formdata fields files
  = ("multipart/form-data; boundary=" ++ BOUNDARY,
     concat_parts (List.map field_part fields)
     ++ concat_parts (List.map file_part files)
     ++ "--" ++ BOUNDARY ++ "--" ++ CRLF).
Proof. apply multipart_body. Qed.

(** X12.  Nothing is escaped: a field whose value holds a line break, the
    delimiter and the header of a further field gives the very message that
    the two fields give. *)
Theorem encode_multipart_formdata_verbatim key value key' value' fields files :
  _encode_multipart_formdata
    ((key,
      value ++ CRLF ++ "--" ++ BOUNDARY ++ CRLF
      ++ "Content-Disposition: form-data; name=" ++ dq ++ key' ++ dq ++ CRLF
      ++ CRLF ++ value') :: fields) files
  = _encode_multipart_formdata ((key, value) :: (key', value') :: fields) files.
Proof.
  rewrite !multipart_body. f_equal.
  cbn [List.map concat_parts field_part]. by rewrite !append_assoc.
Qed.

(** ** [getSecurityTokenFromContents] *)

(** [re.I] on a byte string: the letters of ASCII compare without case. *)
Fixpoint prefix_nocase (pat s : string) : bool :=
  match pat, s with
  | EmptyString, _ => true
  | String a pat', String b s' =>
      Ascii.eqb (Minidom.lower a) (Minidom.lower b) && prefix_nocase pat' s'
  | String _ _, EmptyString => false
  end.

(** The two literals of the expression that [getSecurityTokenFromContents]
    compiles: the name of the parameter with its quotes, and [value=] with
    the opening quote. *)
Definition token_name : string := "name=" ++ dq ++ "security_token" ++ dq.
Definition token_value : string := "value=" ++ dq.

(** The end of the expression, the group and the double quote after it:
    the characters before the next double quote, which must be there. *)
Fixpoint quoted (s : string) : option string :=
  match s with
  | EmptyString => None
  | String c s' =>
      if Ascii.eqb c "034" then Some "" else String c <$> quoted s'
  end.

(** The expression after the name: any characters other than [>], then
    [value=], a double quote and the end.  The star is greedy, so that of
    the places, in the run of characters other than [>], from which the
    rest matches, the last one is taken. *)
Fixpoint value_after (s : string) : option string :=
  let here :=
    if prefix_nocase token_value s then quoted (drop_chars 7 s)
    else None in
  match s with
  | EmptyString => here
  | String c s' =>
      if Ascii.eqb c ">" then here
      else match value_after s' with
           | Some v => Some v
           | None => here
           end
  end.

(** [token_re.search(content)]: the first place from which the expression
    matches, and group 1 of that match. *)
Fixpoint token_search (s : string) : option string :=
  let here :=
    if prefix_nocase token_name s
    then value_after (drop_chars 21 s)
    else None in
  match here with
  | Some v => Some v
  | None =>
      match s with
      | EmptyString => None
      | String _ s' => token_search s'
      end
  end.

Definition getSecurityTokenFromContents (content : string) : M string :=
  match token_search content with
  | Some security_token =>
      log_to DEBUG ("Security token is: " ++ security_token) ;;
      ret security_token
  | None => ret ""
  end.

Definition not_char (x : ascii) (c : ascii) : bool := negb (Ascii.eqb c x).

Lemma quoted_spec s t :
  quoted s = Some t ->
  all_chars (not_char "034") t = true /\ exists b, s = t ++ dq ++ b.
Proof.
  revert t. induction s as [|c s IH]; intros t; [done|]. cbn [quoted].
  destruct (Ascii.eqb c "034") eqn:Ec.
  - intros [= <-]. apply Ascii.eqb_eq in Ec as ->. split; [done|]. by exists s.
  - destruct (quoted s) as [t'|]; [|done]. intros [= <-].
    destruct (IH t' eq_refl) as (Ht & b & ->).
    split; [|by exists b]. cbn [all_chars]. unfold not_char at 1.
    by rewrite Ec, Ht.
Qed.

Lemma quoted_app t b :
  all_chars (not_char "034") t = true -> quoted (t ++ dq ++ b) = Some t.
Proof.
  induction t as [|c t IH]; [done|]. cbn [all_chars].
  intros [Hc Ht]%andb_prop. rewrite append_String. cbn [quoted].
  unfold not_char in Hc. apply negb_true_iff in Hc. rewrite Hc.
  by rewrite (IH Ht).
Qed.

Lemma prefix_nocase_split pat s :
  prefix_nocase pat s = true ->
  exists v, s = v ++ drop_chars (String.length pat) s
    /\ String.length v = String.length pat
    /\ prefix_nocase pat v = true.
Proof.
  revert s. induction pat as [|a pat IH]; intros s.
  - intros _. by exists "".
  - destruct s as [|b s]; [done|]. cbn [prefix_nocase].
    intros [Hab Hp]%andb_prop. destruct (IH s Hp) as (v & Hs & Hl & Hv).
    exists (String b v). cbn [String.length drop_chars prefix_nocase].
    rewrite append_String, <- Hs, Hl, Hab, Hv. done.
Qed.

(** What a match of the tail gives: the token lies between double quotes,
    after [value=] in some letter case. *)
Definition value_at (s token : string) : Prop :=
  exists a v b,
    s = a ++ v ++ token ++ dq ++ b
    /\ String.length v = 7%nat
    /\ prefix_nocase token_value v = true.

Lemma value_at_here s t :
  prefix_nocase token_value s = true ->
  quoted (drop_chars 7 s) = Some t ->
  all_chars (not_char "034") t = true /\ value_at s t.
Proof.
  intros Hp Hq. destruct (quoted_spec _ _ Hq) as (Ht & b & Hb).
  destruct (prefix_nocase_split _ _ Hp) as (v & Hs & Hl & Hv).
  split; [done|]. exists "", v, b. rewrite append_empty.
  change (String.length token_value) with 7%nat in Hs, Hl.
  by rewrite <- Hb.
Qed.

Lemma value_at_skip c s t : value_at s t -> value_at (String c s) t.
Proof.
  intros (a & v & b & -> & Hl & Hv). by exists (String c a), v, b.
Qed.

Lemma value_at_drop n s t : value_at (drop_chars n s) t -> value_at s t.
Proof.
  revert s. induction n as [|n IH]; intros s; [by destruct s|].
  destruct s as [|c s]; [done|]. cbn [drop_chars].
  intros H. by apply value_at_skip, IH.
Qed.

Lemma value_after_spec s t :
  value_after s = Some t ->
  all_chars (not_char "034") t = true /\ value_at s t.
Proof.
  revert t. induction s as [|c s IH]; intros t; cbn [value_after].
  - destruct (prefix_nocase token_value "") eqn:Ep; [|done].
    by apply value_at_here.
  - assert ((if prefix_nocase token_value (String c s)
             then quoted (drop_chars 7 (String c s)) else None) = Some t ->
            all_chars (not_char "034") t = true /\ value_at (String c s) t)
      as Hhere.
    { destruct (prefix_nocase token_value (String c s)) eqn:Ep; [|done].
      by apply value_at_here. }
    destruct (Ascii.eqb c ">"); [done|].
    destruct (value_after s) as [v|]; [|done].
    intros [= <-]. destruct (IH v eq_refl) as [Hv Hat].
    split; [done|]. by apply value_at_skip.
Qed.

Lemma token_search_spec s t :
  token_search s = Some t ->
  all_chars (not_char "034") t = true /\ value_at s t.
Proof.
  revert t. induction s as [|c s IH]; intros t; cbn [token_search].
  - destruct (prefix_nocase token_name ""); [|done].
    destruct (value_after (drop_chars 21 "")) as [v|] eqn:Ev; [|done].
    intros [= <-]. destruct (value_after_spec _ _ Ev) as [Hv Hat].
    split; [done|]. by apply (value_at_drop 21).
  - destruct (if prefix_nocase token_name (String c s)
              then value_after (drop_chars 21 (String c s)) else None)
      as [v|] eqn:Eh.
    + intros [= <-].
      destruct (prefix_nocase token_name (String c s)); [|done].
      destruct (value_after_spec _ _ Eh) as [Hv Hat].
      split; [done|]. by apply (value_at_drop 21).
    + intros Hs. destruct (IH t Hs) as [Hv Hat].
      split; [done|]. by apply value_at_skip.
Qed.

Lemma getSecurityTokenFromContents_run content w :
  getSecurityTokenFromContents content w
  = match token_search content with
    | Some token =>
        (Ok token,
         World (self w) (files w)
           ((DEBUG, "Security token is: " ++ token) :: records w))
    | None => (Ok "", w)
    end.
Proof.
  unfold getSecurityTokenFromContents.
  by destruct (token_search content).
Qed.

(** X13.  The security token that is returned holds no double quote; it
    is empty, or it stands in the page between double quotes, after
    [value=] written in some letter case.  The call changes neither the
    object nor the files. *)
Theorem getSecurityTokenFromContents_quoted content w token :
  fst (getSecurityTokenFromContents content w) = Ok token ->
  all_chars (not_char "034") token = true
  /\ (token = "" \/ value_at content token)
  /\ self (snd (getSecurityTokenFromContents content w)) = self w
  /\ files (snd (getSecurityTokenFromContents content w)) = files w.
Proof.
  rewrite getSecurityTokenFromContents_run.
  destruct (token_search content) as [t|] eqn:Et; cbn [fst snd self files].
  - intros [= <-]. destruct (token_search_spec _ _ Et) as [Ht Hat]. auto.
  - intros [= <-]. auto.
Qed.

(** When the token is found *)

Lemma lower_equals c :
  Ascii.eqb (Minidom.lower "=") (Minidom.lower c) = true -> c = "="%char.
Proof.
  destruct c as [[] [] [] [] [] [] [] []]; vm_compute; intros H;
    solve [reflexivity | discriminate].
Qed.

Lemma token_value_chars :
  token_value
  = String "v" (String "a" (String "l" (String "u" (String "e"
      (String "=" (String "034" EmptyString)))))).
Proof. reflexivity. Qed.

Ltac first_differs :=
  repeat match goal with
    | |- context [Ascii.eqb ?a ?b && _] =>
        destruct (Ascii.eqb a b) eqn:?; cbn [andb]; [|reflexivity]
    end.

Lemma value_not_here t u :
  all_chars (fun c => not_char "034" c && not_char "=" c) t = true ->
  prefix_nocase token_value (t ++ dq ++ u) = false.
Proof.
  intros Ht. rewrite token_value_chars. unfold dq.
  do 6 (destruct t as [|? t];
        [rewrite append_empty, append_String; cbn [prefix_nocase];
         first_differs;
         match goal with
         | H : Ascii.eqb _ (Minidom.lower "034") = true |- _ =>
             vm_compute in H; discriminate
         end
        |rewrite append_String]).
  cbn [prefix_nocase]. first_differs.
  match goal with
  | H : Ascii.eqb (Minidom.lower "=") _ = true |- _ =>
      apply lower_equals in H as ->
  end.
  cbn [all_chars] in Ht. repeat (apply andb_prop in Ht as [? Ht]).
  match goal with
  | H : not_char "034" "=" && not_char "=" "=" = true |- _ =>
      vm_compute in H; discriminate
  end.
Qed.

Lemma value_after_String c s :
  value_after (String c s)
  = if Ascii.eqb c ">" then
      (if prefix_nocase token_value (String c s)
       then quoted (drop_chars 7 (String c s)) else None)
    else match value_after s with
         | Some v => Some v
         | None =>
             if prefix_nocase token_value (String c s)
             then quoted (drop_chars 7 (String c s)) else None
         end.
Proof. reflexivity. Qed.

Lemma prefix_nocase_head a p b s :
  Ascii.eqb (Minidom.lower a) (Minidom.lower b) = false ->
  prefix_nocase (String a p) (String b s) = false.
Proof. cbn [prefix_nocase]. by intros ->. Qed.

Lemma value_after_none t rest :
  all_chars (fun c => not_char "034" c && not_char "=" c) t = true ->
  value_after (t ++ dq ++ ">" ++ rest) = None.
Proof.
  induction t as [|c t IH]; intros Ht.
  - pose proof (value_not_here "" (">" ++ rest) eq_refl) as Hh.
    rewrite append_empty in *. unfold dq in *. rewrite !append_String in *.
    rewrite append_empty in *. rewrite value_after_String, Hh.
    change (Ascii.eqb "034" ">") with false. cbn iota.
    rewrite value_after_String. change (Ascii.eqb ">" ">") with true.
    cbn iota. rewrite token_value_chars.
    by rewrite prefix_nocase_head by reflexivity.
  - pose proof (value_not_here _ (">" ++ rest) Ht) as Hh.
    cbn [all_chars] in Ht. apply andb_prop in Ht as [_ Ht].
    specialize (IH Ht). rewrite append_String in Hh |- *.
    rewrite value_after_String, Hh, IH.
    by destruct (Ascii.eqb c ">").
Qed.

Lemma value_after_value t rest :
  all_chars (fun c => not_char "034" c && not_char "=" c) t = true ->
  value_after (token_value ++ t ++ dq ++ ">" ++ rest) = Some t.
Proof.
  intros Ht. pose proof (value_after_none t rest Ht) as Hn.
  assert (all_chars (not_char "034") t = true) as Hq.
  { clear Hn. induction t as [|c t IH]; [done|]. cbn [all_chars] in *.
    apply andb_prop in Ht as [[-> _]%andb_prop Ht]. by rewrite IH. }
  set (T := t ++ dq ++ ">" ++ rest) in *.
  rewrite token_value_chars, !append_String, append_empty.
  rewrite value_after_String. change (Ascii.eqb "v" ">") with false.
  cbn iota.
  assert (value_after (String "a" (String "l" (String "u" (String "e"
            (String "=" (String "034" T)))))) = None) as ->.
  { rewrite !value_after_String, Hn, token_value_chars.
    by rewrite !prefix_nocase_head by reflexivity. }
  cbn [prefix_nocase drop_chars].
  change (Ascii.eqb (Minidom.lower "v") (Minidom.lower "v")) with true.
  change (Ascii.eqb (Minidom.lower "a") (Minidom.lower "a")) with true.
  change (Ascii.eqb (Minidom.lower "l") (Minidom.lower "l")) with true.
  change (Ascii.eqb (Minidom.lower "u") (Minidom.lower "u")) with true.
  change (Ascii.eqb (Minidom.lower "e") (Minidom.lower "e")) with true.
  change (Ascii.eqb (Minidom.lower "=") (Minidom.lower "=")) with true.
  change (Ascii.eqb (Minidom.lower "034") (Minidom.lower "034")) with true.
  cbn [andb]. subst T. by apply quoted_app.
Qed.

Lemma value_after_run mid s v :
  all_chars (not_char ">") mid = true ->
  value_after s = Some v ->
  value_after (mid ++ s) = Some v.
Proof.
  intros Hm Hs. induction mid as [|c mid IH]; [done|].
  cbn [all_chars] in Hm. apply andb_prop in Hm as [Hc Hm].
  rewrite append_String, value_after_String, (IH Hm).
  unfold not_char in Hc. apply negb_true_iff in Hc. by rewrite Hc.
Qed.

Lemma prefix_nocase_app p s : prefix_nocase p (p ++ s) = true.
Proof.
  induction p as [|a p IH]; [by destruct s|].
  rewrite append_String. cbn [prefix_nocase].
  by rewrite Ascii.eqb_refl, IH.
Qed.

Lemma drop_chars_app p s : drop_chars (String.length p) (p ++ s) = s.
Proof. induction p as [|a p IH]; [by destruct s|]. done. Qed.

Lemma token_search_here s t :
  prefix_nocase token_name s = true ->
  value_after (drop_chars 21 s) = Some t ->
  token_search s = Some t.
Proof. intros Hp Hv. destruct s; cbn [token_search]; by rewrite Hp, Hv. Qed.

Lemma token_search_skip pre s :
  (forall i, (i < String.length pre)%nat ->
             prefix_nocase token_name (drop_chars i (pre ++ s)) = false) ->
  token_search (pre ++ s) = token_search s.
Proof.
  induction pre as [|c pre IH]; intros Hpre; [done|].
  rewrite append_String in *. cbn [token_search].
  pose proof (Hpre 0%nat ltac:(cbn; lia)) as H0.
  cbn [drop_chars] in H0. rewrite H0. apply IH.
  intros i Hi. apply (Hpre (S i)). cbn. lia.
Qed.

(** X14.  The token of a hidden parameter is found: in a page where the
    name [security_token], with its quotes, occurs first after [pre], is
    followed on the same tag by [value=], the token in double quotes and
    the end of the tag, the call returns that token, when the token holds
    no double quote and no equals sign. *)
Theorem getSecurityTokenFromContents_found pre mid token rest w :
  (forall i, (i < String.length pre)%nat ->
     prefix_nocase token_name
       (drop_chars i (pre ++ token_name ++ mid ++ token_value ++ token
                          ++ dq ++ ">" ++ rest)) = false) ->
  all_chars (not_char ">") mid = true ->
  all_chars (fun c => not_char "034" c && not_char "=" c) token = true ->
  fst (getSecurityTokenFromContents
         (pre ++ token_name ++ mid ++ token_value ++ token
              ++ dq ++ ">" ++ rest) w)
  = Ok token.
Proof.
  intros Hpre Hmid Htoken. rewrite getSecurityTokenFromContents_run.
  rewrite (token_search_skip _ _ Hpre).
  rewrite (token_search_here _ token); [done|apply prefix_nocase_app|].
  change 21%nat with (String.length token_name). rewrite drop_chars_app.
  by apply value_after_run, value_after_value.
Qed.

(** The hidden parameter of a form of the Admin Console. *)
Definition token_page : string :=
  "<input type=" ++ dq ++ "hidden" ++ dq ++ " " ++ token_name ++ " "
  ++ token_value ++ "Vaup237Rd5jXE6ZC0Iy6BeVo4h0:1290533850660" ++ dq ++ ">"
  ++ "".

Lemma getSecurityTokenFromContents_found_witness :
  fst (getSecurityTokenFromContents token_page (loaded small_text))
  = Ok "Vaup237Rd5jXE6ZC0Iy6BeVo4h0:1290533850660".
Proof.
  apply (getSecurityTokenFromContents_found
           ("<input type=" ++ dq ++ "hidden" ++ dq ++ " ") " "
           "Vaup237Rd5jXE6ZC0Iy6BeVo4h0:1290533850660" "" (loaded small_text)).
  - intros i Hi. do 21 (destruct i as [|i]; [vm_compute; reflexivity|]).
    vm_compute in Hi. lia.
  - vm_compute. reflexivity.
  - reflexivity.
Defined.

Lemma getSecurityTokenFromContents_quoted_witness :
  all_chars (not_char "034") "Vaup237Rd5jXE6ZC0Iy6BeVo4h0:1290533850660" = true
  /\ ("Vaup237Rd5jXE6ZC0Iy6BeVo4h0:1290533850660" = ""
      \/ value_at token_page "Vaup237Rd5jXE6ZC0Iy6BeVo4h0:1290533850660")
  /\ self (snd (getSecurityTokenFromContents token_page (loaded small_text)))
     = self (loaded small_text)
  /\ files (snd (getSecurityTokenFromContents token_page (loaded small_text)))
     = files (loaded small_text).
Proof.
  apply (getSecurityTokenFromContents_quoted token_page (loaded small_text)).
  vm_compute. reflexivity.
Defined.

(** * The command line: which action runs

    The options that the blocks below read, as [parser.parse_args()]
    returns them: an action flag is [True] or [None], a string option
    holds the string given or [None]. *)

Module Options.

Record options : Type := {
  actimport : bool;
  export : bool;
  sign : bool;
  verify : bool;
  setaccesscontrol : bool;
  all_urls : bool;
  export_all_urls : bool;
  database_sync : bool;
  keymatches_export : bool;
  synonyms_export : bool;
  getstatus : bool;
  getcollection : bool;
  cus_sscript : bool;
  gsaHostName : option string;
  gsaUsername : option string;
  gsaPassword : option string
}.

End Options.

(** The truth value of a string or [None]: [None] and the empty string are
    false. *)
Definition truth (s : option string) : bool :=
  match s with
  | Some (String _ _) => true
  | _ => false
  end.

(** One step of the block that ensures only one action is specified:
    [if options.x: if action: (error) else: action = name]. *)
Definition only_one (flag : bool) (name : string) (action : option string)
  : M (option string) :=
  if flag then
    if truth action then log_to ERROR "Specify only one action" ;; sys_exit 3
    else ret (Some name)
  else ret action.

Definition select_action (options : Options.options) : M string :=
  let action : option string := None in
  let action := if Options.actimport options then Some "import" else action in
  do action <- only_one (Options.setaccesscontrol options) "setaccesscontrol" action;
  do action <- only_one (Options.export options) "export" action;
  do action <- only_one (Options.sign options) "sign" action;
  do action <- only_one (Options.verify options) "verify" action;
  do action <- only_one (Options.all_urls options) "all_urls" action;
  do action <- only_one (Options.export_all_urls options) "export_all_urls" action;
  do action <- only_one (Options.database_sync options) "database_sync" action;
  do action <- only_one (Options.keymatches_export options) "keymatches_export" action;
  do action <- only_one (Options.synonyms_export options) "synonyms_export" action;
  do action <- only_one (Options.getstatus options) "status" action;
  do action <- only_one (Options.getcollection options) "getcollection" action;
  do action <- only_one (Options.cus_sscript options) "cus_sscript" action;
  match action with
  | Some (String c name) => ret (String c name)
  | _ => log_to ERROR "No action specified" ;; sys_exit 3
  end.

(** The check of host, user and password, under
    [if action != "sign" or action != "verify":]. *)
Definition check_credentials (options : Options.options) (action : string)
  : M unit :=
  if negb (String.eqb action "sign") || negb (String.eqb action "verify") then
    (if truth (Options.gsaHostName options) then ret tt
     else log_to ERROR "hostname not given" ;; sys_exit 3) ;;
    (if truth (Options.gsaUsername options) then ret tt
     else log_to ERROR "username not given" ;; sys_exit 3) ;;
    (if truth (Options.gsaPassword options) then ret tt
     else log_to ERROR "password not given" ;; sys_exit 3)
  else ret tt.

(** The action flags with the names of their actions, in the order in
    which they are looked at, and the actions that were asked for. *)
Definition action_flags (options : Options.options) : list (bool * string) :=
  [ (Options.actimport options, "import");
    (Options.setaccesscontrol options, "setaccesscontrol");
    (Options.export options, "export");
    (Options.sign options, "sign");
    (Options.verify options, "verify");
    (Options.all_urls options, "all_urls");
    (Options.export_all_urls options, "export_all_urls");
    (Options.database_sync options, "database_sync");
    (Options.keymatches_export options, "keymatches_export");
    (Options.synonyms_export options, "synonyms_export");
    (Options.getstatus options, "status");
    (Options.getcollection options, "getcollection");
    (Options.cus_sscript options, "cus_sscript") ].

Definition picked (l : list (bool * string)) : list string :=
  List.map snd (List.filter fst l).

Definition requested (options : Options.options) : list string :=
  picked (action_flags options).

Definition logged (l : level) (msg : string) (w : world) : world :=
  World (self w) (files w) ((l, msg) :: records w).

Fixpoint chain (l : list (bool * string)) (action : option string)
  : M (option string) :=
  match l with
  | [] => ret action
  | (flag, name) :: l' =>
      do action <- only_one flag name action; chain l' action
  end.

Lemma chain_some l a w :
  truth (Some a) = true ->
  chain l (Some a) w
  = match picked l with
    | [] => (Ok (Some a), w)
    | _ :: _ => (Raise (SystemExit 3), logged ERROR "Specify only one action" w)
    end.
Proof.
  intros Ha. induction l as [|[flag name] l IH]; [done|].
  cbn [chain]. unfold bind, only_one. rewrite Ha. unfold picked in *.
  cbn [List.filter fst]. destruct flag; cbn [List.map]; [done|].
  by rewrite <- IH.
Qed.

Lemma chain_none l w :
  Forall (fun p => truth (Some (snd p)) = true) l ->
  chain l None w
  = match picked l with
    | [] => (Ok None, w)
    | [name] => (Ok (Some name), w)
    | _ :: _ :: _ =>
        (Raise (SystemExit 3), logged ERROR "Specify only one action" w)
    end.
Proof.
  induction 1 as [|[flag name] l Hn _ IH]; [done|].
  cbn [chain]. unfold bind, only_one. unfold picked in *.
  cbn [List.filter fst truth]. destruct flag; cbn [List.map snd].
  - unfold ret at 1. cbn beta iota.
    rewrite (chain_some l name w Hn). unfold picked.
    by destruct (List.map snd (List.filter fst l)).
  - by rewrite <- IH.
Qed.

Fixpoint chain_then {A} (l : list (bool * string)) (action : option string)
    (k : option string -> M A) : M A :=
  match l with
  | [] => k action
  | (flag, name) :: l' =>
      do action <- only_one flag name action; chain_then l' action k
  end.

Lemma chain_then_bind {A} l action (k : option string -> M A) w :
  chain_then l action k w = bind (chain l action) k w.
Proof.
  revert action w. induction l as [|[flag name] l IH]; intros action w;
    [done|].
  cbn [chain_then chain]. unfold bind at 1 2 3.
  destruct (only_one flag name action w) as [[a|e] w']; [|done].
  by rewrite IH.
Qed.

Lemma select_action_run options w :
  select_action options w
  = match requested options with
    | [] => (Raise (SystemExit 3), logged ERROR "No action specified" w)
    | [name] => (Ok name, w)
    | _ :: _ :: _ =>
        (Raise (SystemExit 3), logged ERROR "Specify only one action" w)
    end.
Proof.
  unfold requested.
  set (rest := List.tl (action_flags options)).
  assert (Forall (fun p => truth (Some (snd p)) = true) rest) as Hrest
    by (repeat constructor).
  change (select_action options w)
    with (chain_then rest
            (if Options.actimport options then Some "import" else None)
            (fun a => match a with
                      | Some (String c name) => ret (String c name)
                      | _ => log_to ERROR "No action specified" ;; sys_exit 3
                      end) w).
  rewrite chain_then_bind. unfold bind at 1.
  change (picked (action_flags options))
    with (List.map snd
            (if Options.actimport options
             then (Options.actimport options, "import")
                  :: List.filter fst rest
             else List.filter fst rest)).
  assert (Forall (fun name => truth (Some name) = true) (picked rest)) as Hp.
  { unfold picked. clear -Hrest.
    induction Hrest as [|[f n] l Hn _ IH]; [constructor|].
    cbn [List.filter fst]. destruct f; [|done].
    cbn [List.map]. by constructor. }
  destruct (Options.actimport options).
  - rewrite chain_some by done. unfold picked. cbn [List.map snd].
    by destruct (List.map snd (List.filter fst rest)).
  - rewrite (chain_none rest w Hrest). unfold picked in *.
    destruct (List.map snd (List.filter fst rest)) as [|name [|? ?]];
      [done| |done].
    apply Forall_inv in Hp. by destruct name.
Qed.

(** The condition [action != "sign" or action != "verify"] holds for
    every action. *)
Lemma credentials_guard action :
  negb (String.eqb action "sign") || negb (String.eqb action "verify") = true.
Proof.
  destruct (String.eqb_spec action "sign") as [->|_]; reflexivity.
Qed.

Lemma check_credentials_run options action w :
  check_credentials options action w
  = if truth (Options.gsaHostName options) then
      if truth (Options.gsaUsername options) then
        if truth (Options.gsaPassword options) then (Ok tt, w)
        else (Raise (SystemExit 3), logged ERROR "password not given" w)
      else (Raise (SystemExit 3), logged ERROR "username not given" w)
    else (Raise (SystemExit 3), logged ERROR "hostname not given" w).
Proof.
  unfold check_credentials. rewrite credentials_guard.
  destruct (truth (Options.gsaHostName options)),
    (truth (Options.gsaUsername options)),
    (truth (Options.gsaPassword options)); reflexivity.
Qed.

(** X15.  The block that ensures only one action is specified.  When
    exactly one action flag is set, the action is the one of that flag, and
    nothing is logged or changed; when none is set the script logs
    [No action specified] and leaves through [sys.exit(3)]; when two or
    more are set it logs [Specify only one action] and leaves through
    [sys.exit(3)]. *)
Theorem select_action_only_one options w :
  select_action options w
  = match requested options with
    | [] => (Raise (SystemExit 3), logged ERROR "No action specified" w)
    | [name] => (Ok name, w)
    | _ :: _ :: _ =>
        (Raise (SystemExit 3), logged ERROR "Specify only one action" w)
    end.
Proof. apply select_action_run. Qed.

(** X16.  Host, user and password are asked of every action, [sign] and
    [verify] included, for the condition that guards the check always
    holds: the selection of the action and the check succeed if and only
    if exactly one action is asked for and the three options are given
    and not empty; otherwise the script leaves through [sys.exit(3)].  No
    file and no object is touched. *)
Theorem credentials_for_every_action options w :
  (fst ((do action <- select_action options;
         check_credentials options action) w) = Ok tt
   <-> (exists name, requested options = [name])
       /\ truth (Options.gsaHostName options) = true
       /\ truth (Options.gsaUsername options) = true
       /\ truth (Options.gsaPassword options) = true)
  /\ (fst ((do action <- select_action options;
            check_credentials options action) w) = Ok tt
      \/ fst ((do action <- select_action options;
               check_credentials options action) w) = Raise (SystemExit 3))
  /\ files (snd ((do action <- select_action options;
                  check_credentials options action) w)) = files w
  /\ self (snd ((do action <- select_action options;
                 check_credentials options action) w)) = self w.
Proof.
  unfold bind. rewrite select_action_run.
  destruct (requested options) as [|name [|other rest]]; cbn [fst snd].
  - split; [|by auto]. split; [done|]. by intros [[? ?] _].
  - rewrite check_credentials_run.
    destruct (truth (Options.gsaHostName options)),
      (truth (Options.gsaUsername options)),
      (truth (Options.gsaPassword options)); cbn [fst snd];
      (split; [split; [try done; eauto|by intros (_ & ? & ? & ?)]|by auto]).
  - split; [|by auto]. split; [done|]. by intros [[? ?] _].
Qed.

(** The options of [-s] alone, with a signing password but no host: the
    script stops at the check of the host name. *)
Definition sign_only : Options.options :=
  {| Options.actimport := false; Options.export := false;
     Options.sign := true; Options.verify := false;
     Options.setaccesscontrol := false; Options.all_urls := false;
     Options.export_all_urls := false; Options.database_sync := false;
     Options.keymatches_export := false; Options.synonyms_export := false;
     Options.getstatus := false; Options.getcollection := false;
     Options.cus_sscript := false;
     Options.gsaHostName := None; Options.gsaUsername := None;
     Options.gsaPassword := None |}.

Example sign_asks_for_the_host :
  select_action sign_only (loaded small_text) = (Ok "sign", loaded small_text)
  /\ (do action <- select_action sign_only;
      check_credentials sign_only action) (loaded small_text)
     = (Raise (SystemExit 3),
        logged ERROR "hostname not given" (loaded small_text)).
Proof. split; reflexivity. Qed.
